(** * home-lab-exporter: the UniFi collector ([pkg/collector/unifi.go])

    A shallow embedding of the device adapters, of the metric collector
    ([Collect], [resetAll]) and of the refresh step ([fetch]), with the
    properties the design document states about them.

    Conventions.
    - Go's [float64] is Rocq's primitive binary64 [float]; comparisons are
      the IEEE ones ([<?], [<=?]), so NaN and the signed zeros behave as in
      the program.
    - A Go pointer that may be nil is an [option]; a slice is a [list].
    - A panic is an outcome of its own ([Panic], [Panicked]), never a
      default value.
    - A [GaugeVec] or [CounterVec] is a finite map from tuples of label
      values to values; [Set] overwrites, [Add] accumulates (whole numbers
      in an unsigned 64-bit integer, the rest in a float) and panics below
      zero, [WithLabelValues] panics on a wrong number of values.
    - The client is any implementation of the [UniFiClient] interface; a
      call returns its results and the client afterwards. *)

From Stdlib Require Import Floats.
From stdpp Require Import base option list finite gmap strings.

Open Scope string_scope.

(** ** The records of [github.com/unpoller/unifi/v5] the collector reads

    Only the fields that [unifi.go] touches are kept. *)
Module unifi.

(** [FlexInt{Val float64; Txt string}]; [String()] returns [Txt]. *)
Module FlexInt.
Record t := mk { Val : float; Txt : string }.
Definition String (f : t) : string := Txt f.
End FlexInt.

(** [FlexBool{Val bool; Txt string}]; [String()] returns [Txt]. *)
Module FlexBool.
Record t := mk { Val : bool; Txt : string }.
Definition String (f : t) : string := Txt f.
End FlexBool.

Module SystemStats.
Record t := mk { CPU : FlexInt.t; Mem : FlexInt.t }.
End SystemStats.

Module Temperature.
Record t := mk { Name : string; Value : float }.
End Temperature.

Module Port.
Record t := mk {
  Name : string;
  PortIdx : FlexInt.t;
  Up : FlexBool.t;
  IsUplink : FlexBool.t;
  RxPackets : FlexInt.t;
  RxBytes : FlexInt.t;
  RxErrors : FlexInt.t;
  RxDropped : FlexInt.t;
  Speed : FlexInt.t;
  TxPackets : FlexInt.t;
  TxBytes : FlexInt.t;
  TxErrors : FlexInt.t;
  TxDropped : FlexInt.t;
  SFPFound : FlexBool.t;
  SFPTemperature : FlexInt.t
}.
End Port.

(** The switch totals; [USWStat] embeds a pointer to them. *)
Module Sw.
Record t := mk {
  RxPackets : FlexInt.t;
  RxBytes : FlexInt.t;
  RxErrors : FlexInt.t;
  RxDropped : FlexInt.t;
  TxPackets : FlexInt.t;
  TxBytes : FlexInt.t;
  TxErrors : FlexInt.t;
  TxDropped : FlexInt.t;
  Bytes : FlexInt.t
}.
End Sw.

(** [type USWStat struct { *Sw }] *)
Module USWStat.
Record t := mk { Sw : option Sw.t }.
End USWStat.

Module UDM.
Record t := mk {
  Name : string;
  SiteName : string;
  IP : string;
  Model : string;
  HasTemperature : FlexBool.t;
  Temperatures : list Temperature.t;
  SystemStats : SystemStats.t;
  PortTable : list Port.t
}.
End UDM.

Module USG.
Record t := mk {
  Name : string;
  SiteName : string;
  IP : string;
  Model : string;
  SystemStats : SystemStats.t
}.
End USG.

Module USW.
Record t := mk {
  Name : string;
  SiteName : string;
  IP : string;
  Model : string;
  HasTemperature : FlexBool.t;
  GeneralTemperature : FlexInt.t;
  SystemStats : SystemStats.t;
  Stat : USWStat.t;
  PortTable : list Port.t
}.
End USW.

Module UAP.
Record t := mk {
  Name : string;
  SiteName : string;
  IP : string;
  Model : string;
  SystemStats : SystemStats.t
}.
End UAP.

Module Site.
Record t := mk { Name : string; ID : string }.
End Site.

Module Client.
Record t := mk { Name : string; IP : string; ApMac : string }.
End Client.

(** [unifi.Devices]: one slice of pointers per family. *)
Module Devices.
Record t := mk {
  UAPs : list (option UAP.t);
  USGs : list (option USG.t);
  USWs : list (option USW.t);
  UDMs : list (option UDM.t)
}.
End Devices.

End unifi.
Import unifi.

(** ** The cached snapshot *)

Record UnifiDevices := mkUnifiDevices {
  UDMs : list UDM.t;
  USGs : list USG.t;
  USWs : list USW.t;
  UAPs : list UAP.t
}.

Record UnifiData := mkUnifiData {
  Sites : list Site.t;
  Devices : UnifiDevices;
  Clients : list Client.t
}.

(** ** The device adapters

    One constructor per adapter struct; the methods of the [UnifiDevice]
    interface are defined adapter by adapter, then dispatched on the
    constructor. *)

Inductive UnifiDevice :=
  | udmAdapter (d : UDM.t)
  | usgAdapter (d : USG.t)
  | uswAdapter (d : USW.t)
  | uapAdapter (d : UAP.t).

Definition udmAdapter_Name (d : UDM.t) : string := UDM.Name d.
Definition udmAdapter_Site (d : UDM.t) : string := UDM.SiteName d.
Definition udmAdapter_IP (d : UDM.t) : string := UDM.IP d.
Definition udmAdapter_HasTemperature (d : UDM.t) : bool :=
  FlexBool.Val (UDM.HasTemperature d).
Definition udmAdapter_Temperature (d : UDM.t) : float :=
  match UDM.Temperatures d with
  | t :: _ => Temperature.Value t
  | [] => 0%float
  end.
Definition udmAdapter_Model (d : UDM.t) : string := UDM.Model d.
Definition udmAdapter_Type (d : UDM.t) : string := "UDM".
Definition udmAdapter_CPUUsage (d : UDM.t) : float :=
  let r := FlexInt.Val (SystemStats.CPU (UDM.SystemStats d)) in
  if (r <? 0)%float then 0%float else r.
Definition udmAdapter_MEMUsage (d : UDM.t) : float :=
  let r := FlexInt.Val (SystemStats.Mem (UDM.SystemStats d)) in
  if (r <? 0)%float then 0%float else r.

Definition usgAdapter_Name (d : USG.t) : string := USG.Name d.
Definition usgAdapter_Site (d : USG.t) : string := USG.SiteName d.
Definition usgAdapter_IP (d : USG.t) : string := USG.IP d.
Definition usgAdapter_HasTemperature (d : USG.t) : bool := false.
Definition usgAdapter_Temperature (d : USG.t) : float := 0%float.
Definition usgAdapter_Model (d : USG.t) : string := USG.Model d.
Definition usgAdapter_Type (d : USG.t) : string := "USG".
Definition usgAdapter_CPUUsage (d : USG.t) : float :=
  let r := FlexInt.Val (SystemStats.CPU (USG.SystemStats d)) in
  if (r <? 0)%float then 0%float else r.
Definition usgAdapter_MEMUsage (d : USG.t) : float :=
  let r := FlexInt.Val (SystemStats.Mem (USG.SystemStats d)) in
  if (r <? 0)%float then 0%float else r.

Definition uswAdapter_Name (d : USW.t) : string := USW.Name d.
Definition uswAdapter_Site (d : USW.t) : string := USW.SiteName d.
Definition uswAdapter_IP (d : USW.t) : string := USW.IP d.
Definition uswAdapter_HasTemperature (d : USW.t) : bool :=
  FlexBool.Val (USW.HasTemperature d).
Definition uswAdapter_Temperature (d : USW.t) : float :=
  FlexInt.Val (USW.GeneralTemperature d).
Definition uswAdapter_Model (d : USW.t) : string := USW.Model d.
Definition uswAdapter_Type (d : USW.t) : string := "USW".
Definition uswAdapter_CPUUsage (d : USW.t) : float :=
  let r := FlexInt.Val (SystemStats.CPU (USW.SystemStats d)) in
  if (r <? 0)%float then 0%float else r.
Definition uswAdapter_MEMUsage (d : USW.t) : float :=
  let r := FlexInt.Val (SystemStats.Mem (USW.SystemStats d)) in
  if (r <? 0)%float then 0%float else r.

Definition uapAdapter_Name (d : UAP.t) : string := UAP.Name d.
Definition uapAdapter_Site (d : UAP.t) : string := UAP.SiteName d.
Definition uapAdapter_IP (d : UAP.t) : string := UAP.IP d.
Definition uapAdapter_HasTemperature (d : UAP.t) : bool := false.
Definition uapAdapter_Temperature (d : UAP.t) : float := 0%float.
Definition uapAdapter_Model (d : UAP.t) : string := UAP.Model d.
Definition uapAdapter_Type (d : UAP.t) : string := "UAP".
Definition uapAdapter_CPUUsage (d : UAP.t) : float :=
  let r := FlexInt.Val (SystemStats.CPU (UAP.SystemStats d)) in
  if (r <? 0)%float then 0%float else r.
Definition uapAdapter_MEMUsage (d : UAP.t) : float :=
  let r := FlexInt.Val (SystemStats.Mem (UAP.SystemStats d)) in
  if (r <? 0)%float then 0%float else r.

(** The interface [UnifiDevice]: dynamic dispatch on the adapter. *)
Definition Name (dev : UnifiDevice) : string :=
  match dev with
  | udmAdapter d => udmAdapter_Name d
  | usgAdapter d => usgAdapter_Name d
  | uswAdapter d => uswAdapter_Name d
  | uapAdapter d => uapAdapter_Name d
  end.
Definition Site (dev : UnifiDevice) : string :=
  match dev with
  | udmAdapter d => udmAdapter_Site d
  | usgAdapter d => usgAdapter_Site d
  | uswAdapter d => uswAdapter_Site d
  | uapAdapter d => uapAdapter_Site d
  end.
Definition IP (dev : UnifiDevice) : string :=
  match dev with
  | udmAdapter d => udmAdapter_IP d
  | usgAdapter d => usgAdapter_IP d
  | uswAdapter d => uswAdapter_IP d
  | uapAdapter d => uapAdapter_IP d
  end.
Definition HasTemperature (dev : UnifiDevice) : bool :=
  match dev with
  | udmAdapter d => udmAdapter_HasTemperature d
  | usgAdapter d => usgAdapter_HasTemperature d
  | uswAdapter d => uswAdapter_HasTemperature d
  | uapAdapter d => uapAdapter_HasTemperature d
  end.
Definition Temperature (dev : UnifiDevice) : float :=
  match dev with
  | udmAdapter d => udmAdapter_Temperature d
  | usgAdapter d => usgAdapter_Temperature d
  | uswAdapter d => uswAdapter_Temperature d
  | uapAdapter d => uapAdapter_Temperature d
  end.
Definition Model (dev : UnifiDevice) : string :=
  match dev with
  | udmAdapter d => udmAdapter_Model d
  | usgAdapter d => usgAdapter_Model d
  | uswAdapter d => uswAdapter_Model d
  | uapAdapter d => uapAdapter_Model d
  end.
(** [Type()] in the source; [Type] is reserved here. *)
Definition Type_ (dev : UnifiDevice) : string :=
  match dev with
  | udmAdapter d => udmAdapter_Type d
  | usgAdapter d => usgAdapter_Type d
  | uswAdapter d => uswAdapter_Type d
  | uapAdapter d => uapAdapter_Type d
  end.
Definition CPUUsage (dev : UnifiDevice) : float :=
  match dev with
  | udmAdapter d => udmAdapter_CPUUsage d
  | usgAdapter d => usgAdapter_CPUUsage d
  | uswAdapter d => uswAdapter_CPUUsage d
  | uapAdapter d => uapAdapter_CPUUsage d
  end.
Definition MEMUsage (dev : UnifiDevice) : float :=
  match dev with
  | udmAdapter d => udmAdapter_MEMUsage d
  | usgAdapter d => usgAdapter_MEMUsage d
  | uswAdapter d => uswAdapter_MEMUsage d
  | uapAdapter d => uapAdapter_MEMUsage d
  end.

(** The raw readings behind [CPUUsage] and [MEMUsage]
    ([SystemStats.CPU.Val], [SystemStats.Mem.Val] of the wrapped record). *)
Definition rawStats (dev : UnifiDevice) : SystemStats.t :=
  match dev with
  | udmAdapter d => UDM.SystemStats d
  | usgAdapter d => USG.SystemStats d
  | uswAdapter d => USW.SystemStats d
  | uapAdapter d => UAP.SystemStats d
  end.
Definition rawCPU (dev : UnifiDevice) : float :=
  FlexInt.Val (SystemStats.CPU (rawStats dev)).
Definition rawMem (dev : UnifiDevice) : float :=
  FlexInt.Val (SystemStats.Mem (rawStats dev)).

(** [UnifiDevices.All]: the four families in the fixed order UDM, USG, USW,
    UAP, each in slice order.  Each adapter wraps the address of the loop
    variable; [go.mod] asks for Go 1.24, where every iteration has a
    variable of its own, so each adapter sees its own record. *)
Definition All (d : UnifiDevices) : list UnifiDevice :=
  let all : list UnifiDevice := [] in
  let all := (all ++ (udmAdapter <$> UDMs d))%list in
  let all := (all ++ (usgAdapter <$> USGs d))%list in
  let all := (all ++ (uswAdapter <$> USWs d))%list in
  let all := (all ++ (uapAdapter <$> UAPs d))%list in
  all.

(** ** The metric instruments ([prometheus.GaugeVec], [prometheus.CounterVec])

    The fields of [UniFiCollector] that hold instruments, in the order of
    the struct (which is also the order of [Describe], [Collect] and
    [resetAll]). *)

Inductive Instrument :=
  | deviceTemp | deviceCPU | deviceMem
  | swRXPackets | swRXBytes | swRXErrors | swRXDropped
  | swTXPackets | swTXBytes | swTXErrors | swTXDropped | swBytes
  | pRXPackets | pRXBytes | pRXErrors | pRXDropped | pSpeed
  | pTXPackets | pTXBytes | pTXErrors | pTXDropped | pSFPTemp.

#[global] Instance Instrument_eq_dec : EqDecision Instrument.
Proof. solve_decision. Defined.

Definition instruments : list Instrument :=
  [ deviceTemp; deviceCPU; deviceMem;
    swRXPackets; swRXBytes; swRXErrors; swRXDropped;
    swTXPackets; swTXBytes; swTXErrors; swTXDropped; swBytes;
    pRXPackets; pRXBytes; pRXErrors; pRXDropped; pSpeed;
    pTXPackets; pTXBytes; pTXErrors; pTXDropped; pSFPTemp ].

#[global] Instance Instrument_finite : Finite Instrument.
Proof.
  refine {| enum := instruments |}.
  - apply (bool_decide_unpack _). vm_compute. reflexivity.
  - intros []; apply (bool_decide_unpack _); vm_compute; reflexivity.
Defined.

Inductive VecKind := GaugeVec | CounterVec.

(** What [NewGaugeVec]/[NewCounterVec] record about an instrument. *)
Record Desc := mkDesc {
  kind : VecKind;
  fqName : string;
  help : string;
  variableLabels : list string
}.
Definition NewGaugeVec (name help : string) (labelNames : list string) : Desc :=
  mkDesc GaugeVec name help labelNames.
Definition NewCounterVec (name help : string) (labelNames : list string) : Desc :=
  mkDesc CounterVec name help labelNames.

(** The label schemas and the instruments built by
    [NewUniFiCollectorWithClient]. *)
Definition labels : list string := ["type"; "site"; "source"; "name"].
Definition portLabels : list string :=
  ["type"; "site"; "source"; "name"; "port"; "port_number"; "up"; "uplink"].

Definition desc (i : Instrument) : Desc :=
  match i with
  | deviceTemp => NewGaugeVec "unifi_device_temperature_celsius" "Device temp (°C)" labels
  | deviceCPU => NewGaugeVec "unifi_device_cpu_pct" "Device CPU (%)" labels
  | deviceMem => NewGaugeVec "unifi_device_mem_pct" "Device memory (%)" labels
  | swRXPackets => NewCounterVec "unifi_switch_rx_packets_total" "Switch RX packets" labels
  | swRXBytes => NewCounterVec "unifi_switch_rx_bytes_total" "Switch RX bytes" labels
  | swRXErrors => NewCounterVec "unifi_switch_rx_errors_total" "Switch RX errors" labels
  | swRXDropped => NewCounterVec "unifi_switch_rx_dropped_total" "Switch RX dropped" labels
  | swTXPackets => NewCounterVec "unifi_switch_tx_packets_total" "Switch TX packets" labels
  | swTXBytes => NewCounterVec "unifi_switch_tx_bytes_total" "Switch TX bytes" labels
  | swTXErrors => NewCounterVec "unifi_switch_tx_errors_total" "Switch TX errors" labels
  | swTXDropped => NewCounterVec "unifi_switch_tx_dropped_total" "Switch TX dropped" labels
  | swBytes => NewCounterVec "unifi_switch_bytes_total" "Switch total bytes" labels
  | pRXPackets => NewCounterVec "unifi_port_rx_packets_total" "Port RX packets" portLabels
  | pRXBytes => NewCounterVec "unifi_port_rx_bytes_total" "Port RX bytes" portLabels
  | pRXErrors => NewCounterVec "unifi_port_rx_errors_total" "Port RX errors" portLabels
  | pRXDropped => NewCounterVec "unifi_port_rx_dropped_total" "Port RX dropped" portLabels
  | pSpeed => NewGaugeVec "unifi_port_speed_bps" "Port speed (bps)" portLabels
  | pTXPackets => NewCounterVec "unifi_port_tx_packets_total" "Port TX packets" portLabels
  | pTXBytes => NewCounterVec "unifi_port_tx_bytes_total" "Port TX bytes" portLabels
  | pTXErrors => NewCounterVec "unifi_port_tx_errors_total" "Port TX errors" portLabels
  | pTXDropped => NewCounterVec "unifi_port_tx_dropped_total" "Port TX dropped" portLabels
  | pSFPTemp => NewGaugeVec "unifi_port_sfp_temperature_celsius" "Port SFP temperature (°C)" portLabels
  end.

(** ** The value of a series ([prometheus.gauge], [prometheus.counter])

    A gauge keeps its value in [valBits]; [Set] stores there (a gauge has
    no [valInt]: it stays 0 here).  A counter keeps two accumulators:
    [Add(v)] adds a [v] that is an exact unsigned 64-bit integer to the
    [uint64] field [valInt], which wraps at 2^64, and any other [v] to the
    float [valBits]; the value it reports is
    [valBits + float64(valInt)]. *)
Record Value := mkValue {
  valBits : float;
  valInt : Z
}.

(** A series as [WithLabelValues] creates it. *)
Definition zeroValue : Value := mkValue 0 0.

(** The integer part of a finite float, rounded toward zero. *)
Definition truncate (v : float) : option Z :=
  match Prim2SF v with
  | S754_zero _ => Some 0%Z
  | S754_finite s m e =>
      let a := if (0 <=? e)%Z then (Z.pos m * 2 ^ e)%Z
               else (Z.pos m / 2 ^ (- e))%Z in
      Some (if s then (- a)%Z else a)
  | S754_infinity _ | S754_nan => None
  end.

(** The conversion [uint64(v)] of a [float64]: the fraction is discarded.
    Where the integer part does not fit (and for NaN and the infinities)
    Go leaves the result to the implementation; the values here are those
    of the amd64 compiler, which wraps a negative integer part above
    -2^63 and answers 2^63 everywhere else. *)
Definition uint64 (v : float) : Z :=
  match truncate v with
  | Some t =>
      if ((- 2 ^ 63 <=? t) && (t <? 2 ^ 64))%Z then (t mod 2 ^ 64)%Z
      else (2 ^ 63)%Z
  | None => (2 ^ 63)%Z
  end.

(** The conversion [float64(n)] of a [uint64]: the nearest binary64 value,
    ties to even. *)
Definition float64 (n : Z) : float :=
  SF2Prim (binary_normalize prec emax n 0 false).

(** What [gauge.Set(v)] stores. *)
Definition setValue (v : float) : Value := mkValue v 0.

(** The test [float64(uint64(v)) == v] of [counter.Add]: [v] is an exact
    unsigned 64-bit integer. *)
Definition integral (v : float) : bool := (float64 (uint64 v) =? v)%float.

(** What [counter.Add(v)] makes of a counter, for a [v] that is not below
    zero: [ival := uint64(v); if float64(ival) == v { valInt += ival }
    else { valBits += v }]. *)
Definition addValue (x : Value) (v : float) : Value :=
  if integral v
  then mkValue (valBits x) ((valInt x + uint64 v) mod 2 ^ 64)%Z
  else mkValue (valBits x + v)%float (valInt x).

(** The value a series reports to the sink ([gauge.Write],
    [counter.Write]). *)
Definition readValue (k : VecKind) (x : Value) : float :=
  match k with
  | GaugeVec => valBits x
  | CounterVec => (valBits x + float64 (valInt x))%float
  end.

(** The state of the instruments: per instrument, the series it holds,
    keyed by the tuple of label values. *)
Abbreviation Series := (gmap (list string) Value).
Abbreviation Vecs := (gmap Instrument (gmap (list string) Value)).

(** One sample as [Collect] sends it to the sink. *)
Record Metric := mkMetric {
  mInstrument : Instrument;
  mLabelValues : list string;
  mValue : float
}.

(** ** A state monad with panics for the code that drives the instruments *)

Inductive outcome (A : Type) :=
  | Done (a : A)
  | Panic.
Arguments Done {A} a.
Arguments Panic {A}.

Definition M (A : Type) : Type := Vecs -> outcome (A * Vecs).

Definition ret {A} (a : A) : M A := fun st => Done (a, st).
Definition bind {A B} (m : M A) (k : A -> M B) : M B :=
  fun st => match m st with
            | Done (a, st') => k a st'
            | Panic => Panic
            end.

Declare Scope go_scope.
Delimit Scope go_scope with go.
Notation "x <- m ;; k" := (bind m (fun x => k))
  (at level 100, m at next level, right associativity) : go_scope.
Notation "m ;; k" := (bind m (fun _ => k))
  (at level 100, right associativity) : go_scope.
Open Scope go_scope.

(** [for _, x := range l { body }] *)
Fixpoint forRange {A} (l : list A) (body : A -> M unit) : M unit :=
  match l with
  | [] => ret tt
  | x :: l' => body x ;; forRange l' body
  end.

(** Dereferencing a pointer: a nil pointer panics. *)
Definition deref {A} (p : option A) : M A :=
  fun st => match p with
            | Some a => Done (a, st)
            | None => Panic
            end.

(** [vec.Reset()] deletes every series of the instrument. *)
Definition Reset (i : Instrument) : M unit :=
  fun st => Done (tt, <[i := ∅]> st).

(** [vec.WithLabelValues(lvs...)]: panics unless there is one value per
    label name; returns the series with these label values, creating it at
    zero when the instrument does not hold it yet.  (Label values are
    taken to be valid UTF-8, as strings decoded from JSON are.) *)
Definition WithLabelValues (i : Instrument) (lvs : list string)
  : M (Instrument * list string) :=
  fun st =>
    if decide (length lvs = length (variableLabels (desc i))) then
      let m := st !!! i in
      match m !! lvs with
      | Some _ => Done ((i, lvs), st)
      | None => Done ((i, lvs), <[i := <[lvs := zeroValue]> m]> st)
      end
    else Panic.

(** [gauge.Set(v)] *)
Definition Gauge_Set (h : Instrument * list string) (v : float) : M unit :=
  fun st => Done (tt, <[h.1 := <[h.2 := setValue v]> (st !!! h.1)]> st).

(** [counter.Add(v)]: panics when [v < 0]. *)
Definition Counter_Add (h : Instrument * list string) (v : float) : M unit :=
  fun st =>
    if (v <? 0)%float then Panic
    else
      let m := st !!! h.1 in
      Done (tt, <[h.1 := <[h.2 := addValue (default zeroValue (m !! h.2)) v]> m]> st).

(** [vec.Collect(ch)]: every series the instrument holds, with the value
    it reports. *)
Definition VecCollect (st : Vecs) (i : Instrument) : list Metric :=
  (fun kv => mkMetric i kv.1 (readValue (kind (desc i)) kv.2))
    <$> map_to_list (st !!! i).

(** The value the series of instrument [i] with label values [k] reports,
    when the instrument holds it. *)
Definition seriesValue (st : Vecs) (i : Instrument) (k : list string)
  : option float :=
  readValue (kind (desc i)) <$> (st !!! i) !! k.

(** ** The collector *)

(** [UniFiCollector]: the client, the cached snapshot and the instruments.
    The mutex guards [cache]; in this sequential reading [Lock]/[Unlock]
    are no-ops (the interleavings are the subject of [Module Mutex]
    below). *)
Record UniFiCollector (Cl : Type) := mkUniFiCollector {
  client : Cl;
  cache : UnifiData;
  vecs : Vecs
}.
Arguments mkUniFiCollector {Cl} _ _ _.
Arguments client {Cl} _.
Arguments cache {Cl} _.
Arguments vecs {Cl} _.

Definition resetAll : M unit :=
  Reset deviceTemp ;;
  Reset deviceCPU ;;
  Reset deviceMem ;;
  Reset swRXPackets ;;
  Reset swRXBytes ;;
  Reset swRXErrors ;;
  Reset swRXDropped ;;
  Reset swTXPackets ;;
  Reset swTXBytes ;;
  Reset swTXErrors ;;
  Reset swTXDropped ;;
  Reset swBytes ;;
  Reset pRXPackets ;;
  Reset pRXBytes ;;
  Reset pRXErrors ;;
  Reset pRXDropped ;;
  Reset pSpeed ;;
  Reset pTXPackets ;;
  Reset pTXBytes ;;
  Reset pTXErrors ;;
  Reset pTXDropped ;;
  Reset pSFPTemp.

(** The label values of a port: the device's [labelValues] extended with
    the port's name, index, up flag and uplink flag. *)
Definition portLabelValues (labelValues : list string) (port : Port.t) : list string :=
  (labelValues ++ [ Port.Name port;
                    FlexInt.String (Port.PortIdx port);
                    FlexBool.String (Port.Up port);
                    FlexBool.String (Port.IsUplink port) ])%list.

(** The body of the two port loops of [Collect] (the source repeats it
    verbatim for USW and for UDM). *)
Definition collectPort (labelValues : list string) (port : Port.t) : M unit :=
  let portLabels := portLabelValues labelValues port in
  h <- WithLabelValues pRXPackets portLabels ;; Counter_Add h (FlexInt.Val (Port.RxPackets port)) ;;
  h <- WithLabelValues pRXBytes portLabels ;; Counter_Add h (FlexInt.Val (Port.RxBytes port)) ;;
  h <- WithLabelValues pRXErrors portLabels ;; Counter_Add h (FlexInt.Val (Port.RxErrors port)) ;;
  h <- WithLabelValues pRXDropped portLabels ;; Counter_Add h (FlexInt.Val (Port.RxDropped port)) ;;
  h <- WithLabelValues pSpeed portLabels ;; Gauge_Set h (FlexInt.Val (Port.Speed port)) ;;
  h <- WithLabelValues pTXPackets portLabels ;; Counter_Add h (FlexInt.Val (Port.TxPackets port)) ;;
  h <- WithLabelValues pTXBytes portLabels ;; Counter_Add h (FlexInt.Val (Port.TxBytes port)) ;;
  h <- WithLabelValues pTXErrors portLabels ;; Counter_Add h (FlexInt.Val (Port.TxErrors port)) ;;
  h <- WithLabelValues pTXDropped portLabels ;; Counter_Add h (FlexInt.Val (Port.TxDropped port)) ;;
  if FlexBool.Val (Port.SFPFound port) then
    h <- WithLabelValues pSFPTemp portLabels ;; Gauge_Set h (FlexInt.Val (Port.SFPTemperature port))
  else ret tt.

(** The switch totals of a USW.  [stat] is the pointer [usw.USW.Stat.Sw];
    its first use dereferences it. *)
Definition collectSwitch (labelValues : list string) (usw : USW.t) : M unit :=
  h <- WithLabelValues swRXPackets labelValues ;;
  stat <- deref (USWStat.Sw (USW.Stat usw)) ;;
  Counter_Add h (FlexInt.Val (Sw.RxPackets stat)) ;;
  h <- WithLabelValues swRXBytes labelValues ;; Counter_Add h (FlexInt.Val (Sw.RxBytes stat)) ;;
  h <- WithLabelValues swRXErrors labelValues ;; Counter_Add h (FlexInt.Val (Sw.RxErrors stat)) ;;
  h <- WithLabelValues swRXDropped labelValues ;; Counter_Add h (FlexInt.Val (Sw.RxDropped stat)) ;;
  h <- WithLabelValues swTXPackets labelValues ;; Counter_Add h (FlexInt.Val (Sw.TxPackets stat)) ;;
  h <- WithLabelValues swTXBytes labelValues ;; Counter_Add h (FlexInt.Val (Sw.TxBytes stat)) ;;
  h <- WithLabelValues swTXErrors labelValues ;; Counter_Add h (FlexInt.Val (Sw.TxErrors stat)) ;;
  h <- WithLabelValues swTXDropped labelValues ;; Counter_Add h (FlexInt.Val (Sw.TxDropped stat)) ;;
  h <- WithLabelValues swBytes labelValues ;; Counter_Add h (FlexInt.Val (Sw.Bytes stat)).

(** The body of the device loop of [Collect]. *)
Definition collectDevice (dev : UnifiDevice) : M unit :=
  let labelValues := [Type_ dev; Site dev; IP dev; Name dev] in
  h <- WithLabelValues deviceTemp [Model dev; Site dev; IP dev; Name dev] ;;
  Gauge_Set h (Temperature dev) ;;
  h <- WithLabelValues deviceCPU [Model dev; Site dev; IP dev; Name dev] ;;
  Gauge_Set h (CPUUsage dev) ;;
  h <- WithLabelValues deviceMem [Model dev; Site dev; IP dev; Name dev] ;;
  Gauge_Set h (MEMUsage dev) ;;
  match dev with
  | uswAdapter usw =>
      collectSwitch labelValues usw ;;
      forRange (USW.PortTable usw) (collectPort labelValues)
  | _ => ret tt
  end ;;
  match dev with
  | udmAdapter udm => forRange (UDM.PortTable udm) (collectPort labelValues)
  | _ => ret tt
  end.

(** The tail of [Collect]: every instrument sends its series, in this
    order. *)
Definition collectAll (st : Vecs) : list Metric :=
  (VecCollect st deviceTemp ++ VecCollect st deviceCPU ++ VecCollect st deviceMem
   ++ VecCollect st swRXPackets ++ VecCollect st swRXBytes ++ VecCollect st swRXErrors
   ++ VecCollect st swRXDropped ++ VecCollect st swTXPackets ++ VecCollect st swTXBytes
   ++ VecCollect st swTXErrors ++ VecCollect st swTXDropped ++ VecCollect st swBytes
   ++ VecCollect st pRXPackets ++ VecCollect st pRXBytes ++ VecCollect st pRXErrors
   ++ VecCollect st pRXDropped ++ VecCollect st pSpeed ++ VecCollect st pTXPackets
   ++ VecCollect st pTXBytes ++ VecCollect st pTXErrors ++ VecCollect st pTXDropped
   ++ VecCollect st pSFPTemp)%list.

(** Reset and repopulation of the instruments from a snapshot. *)
Definition populate (data : UnifiData) : M unit :=
  resetAll ;;
  forRange (All (Devices data)) collectDevice.

(** [Collect]: the samples sent to the sink and the collector afterwards,
    or a panic. *)
Definition Collect {Cl} (c : UniFiCollector Cl)
  : outcome (list Metric * UniFiCollector Cl) :=
  match populate (cache c) (vecs c) with
  | Done (_, st) => Done (collectAll st, mkUniFiCollector (client c) (cache c) st)
  | Panic => Panic
  end.

(** ** The refresh step *)

Definition error := string.

(** The interface [UniFiClient].  A call may change the client (a session,
    a counter), so every method returns the client afterwards. *)
Class UniFiClient (Cl : Type) := {
  GetSites : Cl -> (list (option Site.t) * option error) * Cl;
  GetClients : list (option Site.t) -> Cl -> (list (option Client.t) * option error) * Cl;
  GetDevices : list (option Site.t) -> Cl -> (option Devices.t * option error) * Cl;
  Login : Cl -> option error * Cl
}.

(** The loops of [fetch] that copy a slice of pointers, skipping nil. *)
Definition appendNonNil {A} (l : list (option A)) : list A :=
  foldl (fun vals p => match p with
                       | Some v => (vals ++ [v])%list
                       | None => vals
                       end) [] l.

(** How a call of [fetch] ends: it returns (an error or nil), or it
    panics; either way with the collector as it then is. *)
Inductive FetchResult (Cl : Type) :=
  | Returned (err : option error) (c : UniFiCollector Cl)
  | Panicked (c : UniFiCollector Cl).
Arguments Returned {Cl} _ _.
Arguments Panicked {Cl} _.

Definition fetch {Cl} `{UniFiClient Cl} (c : UniFiCollector Cl) : FetchResult Cl :=
  let '(_, err, cl) := GetSites (client c) in
  let '(loginErr, cl) :=
    match err with
    | Some _ => Login cl
    | None => (None, cl)
    end in
  match loginErr with
  | Some err => Returned (Some err) (mkUniFiCollector cl (cache c) (vecs c))
  | None =>
      let '(sites, _, cl) := GetSites cl in
      let '(clients, _, cl) := GetClients sites cl in
      let '(devices, _, cl) := GetDevices sites cl in
      let siteVals := appendNonNil sites in
      let clientVals := appendNonNil clients in
      match devices with
      | None => Panicked (mkUniFiCollector cl (cache c) (vecs c))
      | Some devices =>
          let udms := appendNonNil (Devices.UDMs devices) in
          let usgs := appendNonNil (Devices.USGs devices) in
          let usw := appendNonNil (Devices.USWs devices) in
          let uaps := appendNonNil (Devices.UAPs devices) in
          Returned None
            (mkUniFiCollector cl
               (mkUnifiData siteVals (mkUnifiDevices udms usgs usw uaps) clientVals)
               (vecs c))
      end
  end.

(** The 22 instruments, each without a series: what the constructor
    builds, and what [resetAll] restores. *)
Definition emptyVecs : Vecs := gset_to_gmap ∅ (list_to_set instruments).

(** [NewUniFiCollectorWithClient], without the [go col.run()]: a zero
    cache and empty instruments. *)
Definition NewUniFiCollectorWithClient {Cl} (cl : Cl) : UniFiCollector Cl :=
  mkUniFiCollector cl
    (mkUnifiData [] (mkUnifiDevices [] [] [] []) [])
    emptyVecs.

(** [run]: fetch, log the error if any, wait for the next tick, forever.
    Here for a given number of rounds; a panic in [fetch] ends the
    process. *)
Fixpoint run {Cl} `{UniFiClient Cl} (rounds : nat) (c : UniFiCollector Cl)
  : FetchResult Cl :=
  match rounds with
  | O => Returned None c
  | S n =>
      match fetch c with
      | Returned _ c' => run n c'
      | Panicked c' => Panicked c'
      end
  end.

(** ** Clients *)

(** The [mockClient] of [unifi_test.go]. *)
Module mockClient.
Record t := mk {
  loggedIn : bool;
  Sites : list (option Site.t);
  Clients : list (option Client.t);
  Devices : option Devices.t;
  Err : option error
}.
Definition Login (m : t) : option error * t :=
  (None, mk true (Sites m) (Clients m) (Devices m) (Err m)).
Definition GetSites (m : t) : (list (option Site.t) * option error) * t :=
  match Err m with
  | Some e => (([], Some e), m)
  | None => ((Sites m, None), m)
  end.
Definition GetClients (_ : list (option Site.t)) (m : t)
  : (list (option Client.t) * option error) * t :=
  ((Clients m, None), m).
Definition GetDevices (_ : list (option Site.t)) (m : t)
  : (option Devices.t * option error) * t :=
  ((Devices m, None), m).
End mockClient.

#[global] Instance mockClient_UniFiClient : UniFiClient mockClient.t := {
  GetSites := mockClient.GetSites;
  GetClients := mockClient.GetClients;
  GetDevices := mockClient.GetDevices;
  Login := mockClient.Login
}.

(** A client that records the calls made to it, around any client. *)
Inductive Call := CallGetSites | CallGetClients | CallGetDevices | CallLogin.

#[global] Instance Call_eq_dec : EqDecision Call.
Proof. solve_decision. Defined.

Record traced (Cl : Type) := mkTraced {
  inner : Cl;
  calls : list Call
}.
Arguments mkTraced {Cl} _ _.
Arguments inner {Cl} _.
Arguments calls {Cl} _.

#[global] Instance traced_UniFiClient {Cl} `{UniFiClient Cl} : UniFiClient (traced Cl) := {
  GetSites t :=
    let '(r, cl) := GetSites (inner t) in
    (r, mkTraced cl (calls t ++ [CallGetSites]));
  GetClients sites t :=
    let '(r, cl) := GetClients sites (inner t) in
    (r, mkTraced cl (calls t ++ [CallGetClients]));
  GetDevices sites t :=
    let '(r, cl) := GetDevices sites (inner t) in
    (r, mkTraced cl (calls t ++ [CallGetDevices]));
  Login t :=
    let '(r, cl) := Login (inner t) in
    (r, mkTraced cl (calls t ++ [CallLogin]))
}.

(** A client that answers from a script: each method consumes its next
    scripted answer, and reports an error once its script is used up. *)
Module scripted.
Record t := mk {
  sites : list (list (option Site.t) * option error);
  clients : list (list (option Client.t) * option error);
  devices : list (option Devices.t * option error);
  logins : list (option error)
}.
Definition GetSites (s : t) : (list (option Site.t) * option error) * t :=
  match sites s with
  | r :: rest => (r, mk rest (clients s) (devices s) (logins s))
  | [] => (([], Some "script exhausted"), s)
  end.
Definition GetClients (_ : list (option Site.t)) (s : t)
  : (list (option Client.t) * option error) * t :=
  match clients s with
  | r :: rest => (r, mk (sites s) rest (devices s) (logins s))
  | [] => (([], Some "script exhausted"), s)
  end.
Definition GetDevices (_ : list (option Site.t)) (s : t)
  : (option Devices.t * option error) * t :=
  match devices s with
  | r :: rest => (r, mk (sites s) (clients s) rest (logins s))
  | [] => ((None, Some "script exhausted"), s)
  end.
Definition Login (s : t) : option error * t :=
  match logins s with
  | r :: rest => (r, mk (sites s) (clients s) (devices s) rest)
  | [] => (Some "script exhausted", s)
  end.
End scripted.

#[global] Instance scripted_UniFiClient : UniFiClient scripted.t := {
  GetSites := scripted.GetSites;
  GetClients := scripted.GetClients;
  GetDevices := scripted.GetDevices;
  Login := scripted.Login
}.

(** ** Sample data *)

Module Sample.

(** [*unifi.NewFlexInt(v)] with the text the library formats for [v], and
    the zero values. *)
Definition flex (v : float) (txt : string) : FlexInt.t := FlexInt.mk v txt.
Definition flex0 : FlexInt.t := FlexInt.mk 0 "".
Definition flexTrue : FlexBool.t := FlexBool.mk true "true".
Definition flexFalse : FlexBool.t := FlexBool.mk false "false".
Definition flexBool0 : FlexBool.t := FlexBool.mk false "".

(** The access point of [TestCollectorCollect]: only the name, the
    address and the CPU and memory readings are set. *)
Definition uap1 : UAP.t :=
  UAP.mk "uap-1" "" "192.168.1.2" ""
    (SystemStats.mk (flex 10 "10") (flex 20 "20")).

Definition site1 : Site.t := Site.mk "default" "site-id".
Definition client1 : Client.t := Client.mk "client1" "192.168.1.100" "aa:bb:cc".

Definition testDevices : Devices.t := Devices.mk [Some uap1] [] [] [].

Definition mc : mockClient.t :=
  mockClient.mk false [Some site1] [Some client1] (Some testDevices) None.

(** A switch with one copper port and one SFP port. *)
Definition port1 : Port.t :=
  Port.mk "Port 1" (flex 1 "1") flexTrue flexFalse
    (flex 100 "100") (flex 2000 "2000") flex0 flex0 (flex 1000 "1000")
    (flex 50 "50") (flex 900 "900") flex0 flex0
    flexFalse (flex 55 "55").
Definition port2 : Port.t :=
  Port.mk "SFP 1" (flex 2 "2") flexTrue flexTrue
    (flex 7 "7") (flex 70 "70") flex0 flex0 (flex 10000 "10000")
    (flex 8 "8") (flex 80 "80") flex0 flex0
    flexTrue (flex 41.5 "41.5").
Definition sw1 : Sw.t :=
  Sw.mk (flex 107 "107") (flex 2070 "2070") flex0 flex0
        (flex 58 "58") (flex 980 "980") flex0 flex0 (flex 3050 "3050").
Definition usw1 : USW.t :=
  USW.mk "switch-1" "default" "192.168.1.3" "US8P60"
    flexTrue (flex 48 "48")
    (SystemStats.mk (flex 3.5 "3.5") (flex (-1) "-1"))
    (USWStat.mk (Some sw1)) [port1; port2].
Definition udm1 : UDM.t :=
  UDM.mk "gateway" "default" "192.168.1.1" "UDMPRO"
    flexTrue [Temperature.mk "CPU" 52; Temperature.mk "Local" 47]
    (SystemStats.mk (flex 12 "12") (flex 63 "63"))
    [port2].
Definition usg1 : USG.t :=
  USG.mk "usg" "default" "192.168.1.254" "UGW3"
    (SystemStats.mk (flex (-1) "-1") (flex 30 "30")).

Definition S1 : UnifiData :=
  mkUnifiData [site1] (mkUnifiDevices [udm1] [usg1] [usw1] [uap1]) [client1].
Definition S2 : UnifiData :=
  mkUnifiData [site1] (mkUnifiDevices [udm1] [] [] [uap1]) [client1].

(** A switch whose totals are missing, and one with a negative counter. *)
Definition uswNoStat : USW.t :=
  USW.mk "switch-2" "default" "192.168.1.4" "US8P60"
    flexBool0 flex0 (SystemStats.mk flex0 flex0) (USWStat.mk None) [].
Definition sw1neg : Sw.t :=
  Sw.mk (flex (-1) "-1") flex0 flex0 flex0 flex0 flex0 flex0 flex0 flex0.
Definition uswNeg : USW.t :=
  USW.mk "switch-3" "default" "192.168.1.5" "US8P60"
    flexBool0 flex0 (SystemStats.mk flex0 flex0) (USWStat.mk (Some sw1neg)) [].

End Sample.

(** ** Vocabulary for the statements *)

(** The four groups of instruments: per device, per switch, per port, and
    the SFP temperature (per port with a module). *)
Inductive Level := DeviceLevel | SwitchLevel | PortLevel | SFPLevel.

Definition level (i : Instrument) : Level :=
  match i with
  | deviceTemp | deviceCPU | deviceMem => DeviceLevel
  | swRXPackets | swRXBytes | swRXErrors | swRXDropped
  | swTXPackets | swTXBytes | swTXErrors | swTXDropped | swBytes => SwitchLevel
  | pRXPackets | pRXBytes | pRXErrors | pRXDropped | pSpeed
  | pTXPackets | pTXBytes | pTXErrors | pTXDropped => PortLevel
  | pSFPTemp => SFPLevel
  end.


(** The label values of a device's base series, and the [labelValues]
    slice that keys its switch and port series. *)
Definition deviceKey (dev : UnifiDevice) : list string :=
  [Model dev; Site dev; IP dev; Name dev].
Definition labelValuesOf (dev : UnifiDevice) : list string :=
  [Type_ dev; Site dev; IP dev; Name dev].

(** The port table [Collect] ranges over for a device: that of a USW or of
    a UDM; the other adapters have no port loop. *)
Definition portTable (dev : UnifiDevice) : list Port.t :=
  match dev with
  | uswAdapter usw => USW.PortTable usw
  | udmAdapter udm => UDM.PortTable udm
  | _ => []
  end.
Definition portKey (dev : UnifiDevice) (port : Port.t) : list string :=
  portLabelValues (labelValuesOf dev) port.

Definition deviceInstruments : list Instrument :=
  [deviceTemp; deviceCPU; deviceMem].
Definition switchInstruments : list Instrument :=
  [swRXPackets; swRXBytes; swRXErrors; swRXDropped;
   swTXPackets; swTXBytes; swTXErrors; swTXDropped; swBytes].
(** The per-port counters and the speed gauge: everything per port but the
    SFP temperature. *)
Definition portInstruments : list Instrument :=
  [pRXPackets; pRXBytes; pRXErrors; pRXDropped; pSpeed;
   pTXPackets; pTXBytes; pTXErrors; pTXDropped].

(** All (device, port) pairs of a snapshot, in the order [Collect] visits
    them. *)
Definition allPorts (data : UnifiData) : list (UnifiDevice * Port.t) :=
  dev ← All (Devices data); (fun port => (dev, port)) <$> portTable dev.

(** The samples of [ms] that belong to the series of instrument [i] with
    label values [lvs], and their number. *)
Definition seriesKey (m : Metric) : Instrument * list string :=
  (mInstrument m, mLabelValues m).
Definition countSeries (ms : list Metric) (i : Instrument) (lvs : list string) : nat :=
  length (filter (fun m => seriesKey m = (i, lvs)) ms).

(** A sample carries the labels of device [D]: the base key of [D] on a
    device instrument, the [labelValues] of [D] on a switch instrument,
    and [labelValues] followed by the four port labels on a port
    instrument. *)
Definition labelledWith (D : UnifiDevice) (m : Metric) : Prop :=
  match level (mInstrument m) with
  | DeviceLevel => mLabelValues m = deviceKey D
  | SwitchLevel => mLabelValues m = labelValuesOf D
  | PortLevel | SFPLevel => take 4 (mLabelValues m) = labelValuesOf D
  end.

#[global] Instance labelledWith_dec D m : Decision (labelledWith D m).
Proof. unfold labelledWith. destruct (level (mInstrument m)); apply _. Defined.

(** What a scrape yields: the samples of [Collect], or a panic. *)
Definition Scrape {Cl} (c : UniFiCollector Cl) : outcome (list Metric) :=
  match Collect c with
  | Done (ms, _) => Done ms
  | Panic => Panic
  end.

(** The collector a call of [fetch] leaves behind. *)
Definition collectorOf {Cl} (r : FetchResult Cl) : UniFiCollector Cl :=
  match r with
  | Returned _ c => c
  | Panicked c => c
  end.

(** ** The writes [Collect] makes, as data

    A pure reading of the device loop: the list of [Set]/[Add] calls it
    makes, in order, and the preconditions under which none of them
    panics.  [populate_spec] below proves the monadic code equal to it. *)

Inductive Write :=
  | WSet (i : Instrument) (lvs : list string) (v : float)
  | WAdd (i : Instrument) (lvs : list string) (v : float).

Definition wTarget (w : Write) : Instrument * list string :=
  match w with
  | WSet i lvs _ => (i, lvs)
  | WAdd i lvs _ => (i, lvs)
  end.

Definition applyWrite (st : Vecs) (w : Write) : Vecs :=
  match w with
  | WSet i lvs v => <[i := <[lvs := setValue v]> (st !!! i)]> st
  | WAdd i lvs v =>
      <[i := <[lvs := addValue (default zeroValue ((st !!! i) !! lvs)) v]> (st !!! i)]> st
  end.

Definition portWrites (labelValues : list string) (port : Port.t) : list Write :=
  let portLabels := portLabelValues labelValues port in
  ([ WAdd pRXPackets portLabels (FlexInt.Val (Port.RxPackets port));
     WAdd pRXBytes portLabels (FlexInt.Val (Port.RxBytes port));
     WAdd pRXErrors portLabels (FlexInt.Val (Port.RxErrors port));
     WAdd pRXDropped portLabels (FlexInt.Val (Port.RxDropped port));
     WSet pSpeed portLabels (FlexInt.Val (Port.Speed port));
     WAdd pTXPackets portLabels (FlexInt.Val (Port.TxPackets port));
     WAdd pTXBytes portLabels (FlexInt.Val (Port.TxBytes port));
     WAdd pTXErrors portLabels (FlexInt.Val (Port.TxErrors port));
     WAdd pTXDropped portLabels (FlexInt.Val (Port.TxDropped port)) ]
   ++ (if FlexBool.Val (Port.SFPFound port)
       then [WSet pSFPTemp portLabels (FlexInt.Val (Port.SFPTemperature port))]
       else []))%list.

Definition switchWrites (labelValues : list string) (stat : Sw.t) : list Write :=
  [ WAdd swRXPackets labelValues (FlexInt.Val (Sw.RxPackets stat));
    WAdd swRXBytes labelValues (FlexInt.Val (Sw.RxBytes stat));
    WAdd swRXErrors labelValues (FlexInt.Val (Sw.RxErrors stat));
    WAdd swRXDropped labelValues (FlexInt.Val (Sw.RxDropped stat));
    WAdd swTXPackets labelValues (FlexInt.Val (Sw.TxPackets stat));
    WAdd swTXBytes labelValues (FlexInt.Val (Sw.TxBytes stat));
    WAdd swTXErrors labelValues (FlexInt.Val (Sw.TxErrors stat));
    WAdd swTXDropped labelValues (FlexInt.Val (Sw.TxDropped stat));
    WAdd swBytes labelValues (FlexInt.Val (Sw.Bytes stat)) ].

Definition baseWrites (dev : UnifiDevice) : list Write :=
  [ WSet deviceTemp (deviceKey dev) (Temperature dev);
    WSet deviceCPU (deviceKey dev) (CPUUsage dev);
    WSet deviceMem (deviceKey dev) (MEMUsage dev) ].

Definition deviceWrites (dev : UnifiDevice) : list Write :=
  (baseWrites dev
   ++ match dev with
      | uswAdapter usw =>
          match USWStat.Sw (USW.Stat usw) with
          | Some stat => switchWrites (labelValuesOf dev) stat
          | None => []
          end
      | _ => []
      end
   ++ (portTable dev ≫= portWrites (labelValuesOf dev)))%list.

Definition allWrites (data : UnifiData) : list Write :=
  All (Devices data) ≫= deviceWrites.

(** [Counter.Add] accepts the reading: it is not below zero. *)
Definition addable (f : FlexInt.t) : bool := negb (FlexInt.Val f <? 0)%float.

Definition portOK (port : Port.t) : bool :=
  addable (Port.RxPackets port) && addable (Port.RxBytes port)
  && addable (Port.RxErrors port) && addable (Port.RxDropped port)
  && addable (Port.TxPackets port) && addable (Port.TxBytes port)
  && addable (Port.TxErrors port) && addable (Port.TxDropped port).

Definition switchOK (usw : USW.t) : bool :=
  match USWStat.Sw (USW.Stat usw) with
  | Some stat =>
      addable (Sw.RxPackets stat) && addable (Sw.RxBytes stat)
      && addable (Sw.RxErrors stat) && addable (Sw.RxDropped stat)
      && addable (Sw.TxPackets stat) && addable (Sw.TxBytes stat)
      && addable (Sw.TxErrors stat) && addable (Sw.TxDropped stat)
      && addable (Sw.Bytes stat)
  | None => false
  end.

Definition deviceOK (dev : UnifiDevice) : bool :=
  match dev with
  | uswAdapter usw => switchOK usw && forallb portOK (USW.PortTable usw)
  | udmAdapter udm => forallb portOK (UDM.PortTable udm)
  | _ => true
  end.

(** The snapshots on which [Collect] runs to its end: every switch has its
    totals, and no counter reading is negative. *)
Definition collectable (data : UnifiData) : bool :=
  forallb deviceOK (All (Devices data)).


(** The instruments as [Collect] leaves them on a collectable snapshot. *)
Definition finalVecs (data : UnifiData) : Vecs :=
  foldl applyWrite emptyVecs (allWrites data).

(** The families whose adapter reports no temperature. *)
Definition noTemperatureFamily (dev : UnifiDevice) : bool :=
  match dev with
  | usgAdapter _ | uapAdapter _ => true
  | udmAdapter _ | uswAdapter _ => false
  end.

(** The label values of every port series of a snapshot, in order. *)
Definition allPortKeys (data : UnifiData) : list (list string) :=
  (fun dp => portKey dp.1 dp.2) <$> allPorts data.

(** The snapshot [fetch] builds from the answers of the three data calls. *)
Definition snapshotOf (sites : list (option Site.t))
    (clients : list (option Client.t)) (devices : Devices.t) : UnifiData :=
  mkUnifiData (appendNonNil sites)
    (mkUnifiDevices (appendNonNil (Devices.UDMs devices))
                    (appendNonNil (Devices.USGs devices))
                    (appendNonNil (Devices.USWs devices))
                    (appendNonNil (Devices.UAPs devices)))
    (appendNonNil clients).

(** The collector with a recording client around its client. *)
Definition withTrace {Cl} (c : UniFiCollector Cl) : UniFiCollector (traced Cl) :=
  mkUniFiCollector (mkTraced (client c) []) (cache c) (vecs c).

(** Scripts for the failing rounds: the data calls fail after a probe that
    succeeded. *)
Module Failing.

(** The second [GetSites] fails; the library then finds no site to query
    and answers the other two calls with empty results and no error. *)
Definition sitesFail : scripted.t :=
  scripted.mk
    [ ([Some Sample.site1], None); ([], Some "connection reset") ]
    [ ([], None) ]
    [ (Some (Devices.mk [] [] [] []), None) ]
    [].

(** [GetClients] fails; sites and devices arrive. *)
Definition clientsFail : scripted.t :=
  scripted.mk
    [ ([Some Sample.site1], None); ([Some Sample.site1], None) ]
    [ ([], Some "connection reset") ]
    [ (Some (Devices.mk [Some Sample.uap1] [Some Sample.usg1]
                        [Some Sample.usw1] [Some Sample.udm1]), None) ]
    [].

(** [GetDevices] fails and, as the library does, returns a nil pointer
    with its error. *)
Definition devicesFail : scripted.t :=
  scripted.mk
    [ ([Some Sample.site1], None); ([Some Sample.site1], None) ]
    [ ([Some Sample.client1], None) ]
    [ (None, Some "connection reset") ]
    [].

(** The [mockClient] of the test once its [Err] is set: both [GetSites]
    fail, [Login] succeeds, clients and devices arrive. *)
Definition mockErr : mockClient.t :=
  mockClient.mk false [Some Sample.site1] [Some Sample.client1]
    (Some Sample.testDevices) (Some "i/o timeout").

(** The probe fails and so does the login. *)
Definition loginFail : scripted.t :=
  scripted.mk [ ([], Some "401 unauthorized") ] [] [] [ Some "bad credentials" ].

(** The probe fails, the login succeeds, the data calls answer, with nil
    entries among the records. *)
Definition relogin : scripted.t :=
  scripted.mk
    [ ([], Some "401 unauthorized"); ([None; Some Sample.site1], None) ]
    [ ([Some Sample.client1; None], None) ]
    [ (Some (Devices.mk [None; Some Sample.uap1; None] [Some Sample.usg1; None]
                        [None] [Some Sample.udm1]), None) ]
    [ None ].

End Failing.

(** ** The mutex: interleavings of [fetch] and [Collect]

    The goroutine [run] and any number of scrapes run in parallel.  The
    assignment [c.cache = UnifiData{...}] at the end of [fetch] is not
    atomic for the machine: it stores the slice headers of the struct one
    after the other, and a scrape loads them one after the other.  Both
    happen between [c.mutex.Lock()] and the deferred [c.mutex.Unlock()].
    The model below interleaves these stores and loads freely and lets
    [Lock] succeed only when nobody holds the mutex. *)
Module Mutex.

(** The slice headers of [UnifiData], in the order of the struct. *)
Inductive field := FSites | FUDMs | FUSGs | FUSWs | FUAPs | FClients.

Definition fields : list field :=
  [FSites; FUDMs; FUSGs; FUSWs; FUAPs; FClients].

(** [dst] with field [f] overwritten by that of [src]: one store (or one
    load into a local copy). *)
Definition store (f : field) (src dst : UnifiData) : UnifiData :=
  let d := Devices dst in
  match f with
  | FSites => mkUnifiData (Sites src) d (Clients dst)
  | FUDMs =>
      mkUnifiData (Sites dst)
        (mkUnifiDevices (UDMs (Devices src)) (USGs d) (USWs d) (UAPs d)) (Clients dst)
  | FUSGs =>
      mkUnifiData (Sites dst)
        (mkUnifiDevices (UDMs d) (USGs (Devices src)) (USWs d) (UAPs d)) (Clients dst)
  | FUSWs =>
      mkUnifiData (Sites dst)
        (mkUnifiDevices (UDMs d) (USGs d) (USWs (Devices src)) (UAPs d)) (Clients dst)
  | FUAPs =>
      mkUnifiData (Sites dst)
        (mkUnifiDevices (UDMs d) (USGs d) (USWs d) (UAPs (Devices src))) (Clients dst)
  | FClients => mkUnifiData (Sites dst) d (Clients src)
  end.

(** The fields [done] of [src] copied over [dst]. *)
Definition stores (done : list field) (src dst : UnifiData) : UnifiData :=
  foldl (fun d f => store f src d) dst done.

Inductive tid := Writer | Reader (i : nat).

(** The goroutine [run], inside [fetch]: calling the client and building
    the snapshot; snapshot built, before [Lock]; holding the mutex, with
    the fields still to store. *)
Inductive wpc :=
  | WIdle
  | WReady (new : UnifiData)
  | WLocked (new : UnifiData) (todo : list field).

(** A scrape, inside [Collect]: not started; holding the mutex, with the
    fields still to load and the local copy so far; returned, with the
    snapshot it has read. *)
Inductive rpc :=
  | RIdle
  | RLocked (todo : list field) (seen : UnifiData)
  | RDone (seen : UnifiData).

Record state := mkState {
  mem : UnifiData;               (* c.cache *)
  holder : option tid;           (* c.mutex *)
  wr : wpc;
  rd : list rpc;
  published : list UnifiData     (* the snapshots stored so far, newest first *)
}.

Definition zero : UnifiData := mkUnifiData [] (mkUnifiDevices [] [] [] []) [].

Definition init (scrapes : nat) : state :=
  mkState zero None WIdle (replicate scrapes RIdle) [zero].

(** [Lock] when the mutex is in use ([sync = true]); with [sync = false]
    the critical sections are entered without it. *)
Definition mayLock (sync : bool) (h : option tid) : Prop :=
  sync = true -> h = None.

Inductive step (sync : bool) : state -> state -> Prop :=
  | w_build s sites clients devices :
      wr s = WIdle ->
      step sync s
        (mkState (mem s) (holder s) (WReady (snapshotOf sites clients devices))
                 (rd s) (published s))
  | w_lock s new :
      wr s = WReady new -> mayLock sync (holder s) ->
      step sync s
        (mkState (mem s) (Some Writer) (WLocked new fields) (rd s) (published s))
  | w_store s new f todo :
      wr s = WLocked new (f :: todo) ->
      step sync s
        (mkState (store f new (mem s)) (holder s) (WLocked new todo)
                 (rd s) (published s))
  | w_unlock s new :
      wr s = WLocked new [] ->
      step sync s
        (mkState (mem s) None WIdle (rd s) (new :: published s))
  | r_lock s i :
      rd s !! i = Some RIdle -> mayLock sync (holder s) ->
      step sync s
        (mkState (mem s) (Some (Reader i)) (wr s)
                 (<[i := RLocked fields zero]> (rd s)) (published s))
  | r_load s i f todo seen :
      rd s !! i = Some (RLocked (f :: todo) seen) ->
      step sync s
        (mkState (mem s) (holder s) (wr s)
                 (<[i := RLocked todo (store f (mem s) seen)]> (rd s)) (published s))
  | r_unlock s i seen :
      rd s !! i = Some (RLocked [] seen) ->
      step sync s
        (mkState (mem s) None (wr s) (<[i := RDone seen]> (rd s)) (published s)).

Definition reachable (sync : bool) (scrapes : nat) (s : state) : Prop :=
  rtc (step sync) (init scrapes) s.

(** What holds in every reachable state when the mutex is in use. *)
Definition writerInside (s : state) : Prop :=
  exists new todo, wr s = WLocked new todo.
Definition readerInside (s : state) (i : nat) : Prop :=
  exists todo seen, rd s !! i = Some (RLocked todo seen).

Record inv (s : state) : Prop := mkInv {
  inv_free :
    holder s = None ->
    mem s ∈ published s /\ ~ writerInside s /\ forall i, ~ readerInside s i;
  inv_writer :
    holder s = Some Writer ->
    (forall i, ~ readerInside s i)
    /\ exists new done todo old,
         wr s = WLocked new todo /\ (done ++ todo)%list = fields
         /\ old ∈ published s /\ mem s = stores done new old;
  inv_reader : forall i,
    holder s = Some (Reader i) ->
    mem s ∈ published s /\ ~ writerInside s
    /\ (forall j, j <> i -> ~ readerInside s j)
    /\ exists done todo seen0,
         rd s !! i = Some (RLocked todo (stores done (mem s) seen0))
         /\ (done ++ todo)%list = fields;
  inv_done : forall i seen,
    rd s !! i = Some (RDone seen) -> seen ∈ published s
}.

(** A run of the unguarded variant: the scrape reads the sites before the
    refresh stores anything and the rest after it has stored everything. *)
Definition tornNew : UnifiData :=
  snapshotOf [Some Sample.site1] [Some Sample.client1] Sample.testDevices.
Definition tornSeen : UnifiData := store FSites zero tornNew.
Definition tornEnd : state :=
  mkState tornNew None WIdle [RDone tornSeen] [tornNew; zero].

(** A run with the mutex: one refresh, then one scrape. *)
Definition sampleEnd : state :=
  mkState tornNew None WIdle [RDone tornNew] [tornNew; zero].

End Mutex.

(** A collector holding [Sample.S1] before and after a scrape; one whose
    client answers after a new login, with nil entries in its lists; and
    the label values of some of the sample series. *)
Module Scenario.
Definition c1 : UniFiCollector unit := mkUniFiCollector tt Sample.S1 emptyVecs.
Definition c1' : UniFiCollector unit :=
  mkUniFiCollector tt Sample.S1 (finalVecs Sample.S1).
Definition cRelogin : UniFiCollector scripted.t :=
  mkUniFiCollector Failing.relogin Sample.S1 emptyVecs.
Definition keyUsw1 : list string := ["US8P60"; "default"; "192.168.1.3"; "switch-1"].
Definition keyUsg1 : list string := ["UGW3"; "default"; "192.168.1.254"; "usg"].
Definition lvUsw1 : list string := ["USW"; "default"; "192.168.1.3"; "switch-1"].
Definition keyPort1 : list string :=
  ["USW"; "default"; "192.168.1.3"; "switch-1"; "Port 1"; "1"; "true"; "false"].
Definition keyPort2 : list string :=
  ["USW"; "default"; "192.168.1.3"; "switch-1"; "SFP 1"; "2"; "true"; "true"].
End Scenario.

(** ** More of the collector *)

(** [Describe]: every instrument sends its descriptor, in this order. *)
Definition Describe : list Desc :=
  [ desc deviceTemp; desc deviceCPU; desc deviceMem;
    desc swRXPackets; desc swRXBytes; desc swRXErrors; desc swRXDropped;
    desc swTXPackets; desc swTXBytes; desc swTXErrors; desc swTXDropped;
    desc swBytes;
    desc pRXPackets; desc pRXBytes; desc pRXErrors; desc pRXDropped;
    desc pSpeed;
    desc pTXPackets; desc pTXBytes; desc pTXErrors; desc pTXDropped;
    desc pSFPTemp ].

(** The sample a write leaves in a series that did not exist: the value
    set, or zero plus the value added. *)
Definition writeMetric (w : Write) : Metric :=
  match w with
  | WSet i lvs v => mkMetric i lvs v
  | WAdd i lvs v => mkMetric i lvs (0 + v)%float
  end.

(** The kind of instrument a write is made to: a gauge is [Set], a counter
    is [Add]ed to. *)
Definition wKind (w : Write) : VecKind :=
  match w with
  | WSet _ _ _ => GaugeVec
  | WAdd _ _ _ => CounterVec
  end.

(** The content of one series after one more write to it. *)
Definition replay (o : option Value) (w : Write) : option Value :=
  match w with
  | WSet _ _ v => Some (setValue v)
  | WAdd _ _ v => Some (addValue (default zeroValue o) v)
  end.

(** The port field behind each port counter. *)
Definition portCounter (i : Instrument) : option (Port.t -> FlexInt.t) :=
  match i with
  | pRXPackets => Some Port.RxPackets
  | pRXBytes => Some Port.RxBytes
  | pRXErrors => Some Port.RxErrors
  | pRXDropped => Some Port.RxDropped
  | pTXPackets => Some Port.TxPackets
  | pTXBytes => Some Port.TxBytes
  | pTXErrors => Some Port.TxErrors
  | pTXDropped => Some Port.TxDropped
  | _ => None
  end.

(** A device with the fields [Collect] does not read blanked: the
    [HasTemperature] flag of a UDM or USW, the names of the temperature
    entries of a UDM and its entries after the first. *)
Definition forgetUDM (d : UDM.t) : UDM.t :=
  UDM.mk (UDM.Name d) (UDM.SiteName d) (UDM.IP d) (UDM.Model d)
    (FlexBool.mk false "")
    (match UDM.Temperatures d with
     | t :: _ => [Temperature.mk "" (Temperature.Value t)]
     | [] => []
     end)
    (UDM.SystemStats d) (UDM.PortTable d).
Definition forgetUSW (d : USW.t) : USW.t :=
  USW.mk (USW.Name d) (USW.SiteName d) (USW.IP d) (USW.Model d)
    (FlexBool.mk false "") (USW.GeneralTemperature d)
    (USW.SystemStats d) (USW.Stat d) (USW.PortTable d).
Definition forgetDevice (dev : UnifiDevice) : UnifiDevice :=
  match dev with
  | udmAdapter d => udmAdapter (forgetUDM d)
  | uswAdapter d => uswAdapter (forgetUSW d)
  | usgAdapter _ | uapAdapter _ => dev
  end.
Definition forgetUnread (d : UnifiDevices) : UnifiDevices :=
  mkUnifiDevices (forgetUDM <$> UDMs d) (USGs d) (forgetUSW <$> USWs d) (UAPs d).

(** The adapters that have switch totals. *)
Definition isUSW (dev : UnifiDevice) : bool :=
  match dev with uswAdapter _ => true | _ => false end.

(** A gateway whose port table lists one port twice (equal label values,
    two readings), and a gateway with a set flag, further sensors and
    named entries. *)
Module Odd.
Definition port2b : Port.t :=
  Port.mk "SFP 1" (Sample.flex 2 "2") Sample.flexTrue Sample.flexTrue
    (Sample.flex 3 "3") (Sample.flex 30 "30") Sample.flex0 Sample.flex0
    (Sample.flex 1000 "1000")
    (Sample.flex 4 "4") (Sample.flex 40 "40") Sample.flex0 Sample.flex0
    Sample.flexFalse Sample.flex0.
Definition udmTwins : UDM.t :=
  UDM.mk "gateway" "default" "192.168.1.1" "UDMPRO"
    Sample.flexTrue [Temperature.mk "CPU" 52]
    (SystemStats.mk (Sample.flex 12 "12") (Sample.flex 63 "63"))
    [Sample.port2; port2b].
Definition twins : UniFiCollector unit :=
  mkUniFiCollector tt (mkUnifiData [] (mkUnifiDevices [udmTwins] [] [] []) [])
    emptyVecs.
Definition keyTwins : list string :=
  ["UDM"; "default"; "192.168.1.1"; "gateway"; "SFP 1"; "2"; "true"; "true"].
End Odd.

(** What the test's [mockClient] hands out, apart from its [loggedIn]
    flag, and the snapshot a round of [fetch] builds from it. *)
Definition mockData (m : mockClient.t)
  : list (option Site.t) * list (option Client.t) * option Devices.t * option error :=
  (mockClient.Sites m, mockClient.Clients m, mockClient.Devices m, mockClient.Err m).
Definition mockSnapshot (m : mockClient.t) (devices : Devices.t) : UnifiData :=
  snapshotOf (match mockClient.Err m with
              | Some _ => []
              | None => mockClient.Sites m
              end)
             (mockClient.Clients m) devices.

(** A client whose scripts are used up: every call fails. *)
Definition exhausted : scripted.t := scripted.mk [] [] [] [].

(** ** The configuration read by [main]

    [initConfig] defines seven flags, binds them to the settings store and
    reads seven keys.  The store is modelled after the lookup order of
    the library: a flag given on the command line, else the environment
    variable of the key (upper case, dots replaced by underscores) when it
    is set and not empty, else the default of the flag of that name, else
    the empty string. *)
Module Main.

Record Config := mkConfig {
  ListenAddr : string;
  RedfishTarget : string;
  RedfishUser : string;
  RedfishPass : string;
  UniFiURL : string;
  UniFiUser : string;
  UniFiPass : string
}.

(** The [pflag.String] definitions: name and default value. *)
Definition flagDefs : list (string * string) :=
  [ ("listen", ":9100");
    ("redfish.target", "");
    ("redfish.user", "");
    ("redfish.password", "");
    ("unifi.url", "");
    ("unifi.user", "");
    ("unifi.pass", "") ].

Definition flagDefault (name : string) : option string :=
  (fun r => r.2.2) <$> list_find (fun d => d.1 = name) flagDefs.

(** The process: the flags given on the command line (after
    [pflag.Parse]) and the environment. *)
Record Process := mkProcess {
  given : gmap string string;
  environ : gmap string string
}.

Definition upper (a : Ascii.ascii) : Ascii.ascii :=
  let n := Ascii.nat_of_ascii a in
  if bool_decide (97 <= n <= 122) then Ascii.ascii_of_nat (n - 32) else a.

Fixpoint mapString (f : Ascii.ascii -> Ascii.ascii) (s : string) : string :=
  match s with
  | EmptyString => EmptyString
  | String a s' => String (f a) (mapString f s')
  end.

(** [AutomaticEnv] with [SetEnvKeyReplacer(strings.NewReplacer(".", "_"))]. *)
Definition envKey (key : string) : string :=
  mapString (fun a => if bool_decide (Ascii.nat_of_ascii a = 46)
                      then Ascii.ascii_of_nat 95 else upper a) key.

Definition getEnv (p : Process) (key : string) : option string :=
  match environ p !! envKey key with
  | Some v => if bool_decide (v = "") then None else Some v
  | None => None
  end.

(** [viper.GetString(key)] *)
Definition GetString (p : Process) (key : string) : string :=
  match flagDefault key with
  | Some def =>
      match given p !! key with
      | Some v => v
      | None => default def (getEnv p key)
      end
  | None => default "" (getEnv p key)
  end.

Definition initConfig (p : Process) : Config :=
  mkConfig (GetString p "listen")
           (GetString p "redfish.target")
           (GetString p "redfish.user")
           (GetString p "redfish.password")
           (GetString p "unifi.url")
           (GetString p "unifi.user")
           (GetString p "unifi.password").

(** The check at the start of [main]: the message of [log.Fatalln], or
    nothing when [main] goes on. *)
Definition checkConfig (cfg : Config) : option string :=
  if bool_decide (RedfishTarget cfg = "" \/ UniFiURL cfg = "")
  then Some "At least one of Redfish and UniFi config must be provided"
  else None.

(** A process started with UniFi settings only, the password given by
    flag. *)
Definition unifiOnly : Process :=
  mkProcess
    (list_to_map [ ("unifi.url", "https://192.168.1.1");
                   ("unifi.user", "exporter");
                   ("unifi.pass", "secret") ])
    ∅.

End Main.

(** The adapter method behind each base gauge. *)
Definition baseGauge (i : Instrument) : option (UnifiDevice -> float) :=
  match i with
  | deviceTemp => Some Temperature
  | deviceCPU => Some CPUUsage
  | deviceMem => Some MEMUsage
  | _ => None
  end.

(** A gateway and a switch that report the same model, site, address and
    name. *)
Module Shared.
Definition usg : USG.t :=
  USG.mk "core" "default" "192.168.1.1" "generic"
    (SystemStats.mk (Sample.flex 5 "5") (Sample.flex 6 "6")).
Definition usw : USW.t :=
  USW.mk "core" "default" "192.168.1.1" "generic"
    Sample.flexTrue (Sample.flex 48 "48")
    (SystemStats.mk (Sample.flex 7 "7") (Sample.flex 8 "8"))
    (USWStat.mk (Some Sample.sw1)) [].
Definition c : UniFiCollector unit :=
  mkUniFiCollector tt (mkUnifiData [] (mkUnifiDevices [] [usg] [usw] []) [])
    emptyVecs.
Definition key : list string := ["generic"; "default"; "192.168.1.1"; "core"].
End Shared.

(** ** The test [TestCollectorCollect]

    The steps of the test on a given mock client, in order.  An [assert]
    that fails marks the test as failed and lets it go on; a panic ends
    it.  [testutil.CollectAndCount] runs [Collect] and counts the samples;
    [testutil.ToFloat64] reads the value of the series it is given. *)
Module Test.

Inductive Result := Pass | Fail | Panics.

Definition ToFloat64 (h : Instrument * list string) : M float :=
  fun st =>
    Done (readValue (kind (desc h.1)) (default zeroValue ((st !!! h.1) !! h.2)), st).

Definition TestCollectorCollect (mc : mockClient.t) : Result :=
  let col := NewUniFiCollectorWithClient mc in
  match fetch col with
  | Panicked _ => Panics
  | Returned err col =>
      (* assert.NoError(t, err) *)
      let failed := bool_decide (err <> None) in
      (* count := testutil.CollectAndCount(col); assert.Greater(t, count, 0) *)
      match Collect col with
      | Panic => Panics
      | Done (ms, col) =>
          let failed := failed || negb (bool_decide (0 < length ms)) in
          match
            (h <- WithLabelValues deviceTemp ["uap-1"; "192.168.1.2"] ;;
             tempVal <- ToFloat64 h ;;
             h <- WithLabelValues deviceCPU ["uap-1"; "192.168.1.2"] ;;
             cpuVal <- ToFloat64 h ;;
             h <- WithLabelValues deviceMem ["uap-1"; "192.168.1.2"] ;;
             memVal <- ToFloat64 h ;;
             ret (tempVal, cpuVal, memVal)) (vecs col)
          with
          | Panic => Panics
          | Done ((tempVal, cpuVal, memVal), _) =>
              let failed :=
                failed || negb (0 =? tempVal)%float
                || negb (10 =? cpuVal)%float || negb (20 =? memVal)%float in
              if failed then Fail else Pass
          end
      end
  end.

End Test.

(** * Properties *)

(** ** The adapters *)

(** On binary64, [0 <= r] excludes [r < 0] (NaN satisfies neither). *)
Lemma float_le0_not_lt0 (r : float) :
  (0 <=? r)%float = true -> (r <? 0)%float = false.
Proof.
  rewrite leb_spec, ltb_spec.
  change (Prim2SF 0) with (S754_zero false).
  destruct (Prim2SF r) as [s|s| |s m e]; try destruct s; cbn; congruence.
Qed.

Lemma clamp_neg (r : float) :
  (r <? 0)%float = true -> (if (r <? 0)%float then 0%float else r) = 0%float.
Proof. intros ->. reflexivity. Qed.

Lemma clamp_nonneg (r : float) :
  (0 <=? r)%float = true -> (if (r <? 0)%float then 0%float else r) = r.
Proof. intros H. rewrite (float_le0_not_lt0 r H). reflexivity. Qed.

Lemma CPUUsage_unfold (dev : UnifiDevice) :
  CPUUsage dev = if (rawCPU dev <? 0)%float then 0%float else rawCPU dev.
Proof. destruct dev; reflexivity. Qed.

Lemma MEMUsage_unfold (dev : UnifiDevice) :
  MEMUsage dev = if (rawMem dev <? 0)%float then 0%float else rawMem dev.
Proof. destruct dev; reflexivity. Qed.

(** C3. For a device of any of the four families, [CPUUsage()] and
    [MEMUsage()] return 0 when the raw reading is below zero, and the raw
    reading itself when it is at least zero. *)
Theorem C3_usage_clamped (dev : UnifiDevice) :
  ((rawCPU dev <? 0)%float = true -> CPUUsage dev = 0%float)
  /\ ((0 <=? rawCPU dev)%float = true -> CPUUsage dev = rawCPU dev)
  /\ ((rawMem dev <? 0)%float = true -> MEMUsage dev = 0%float)
  /\ ((0 <=? rawMem dev)%float = true -> MEMUsage dev = rawMem dev).
Proof.
  rewrite CPUUsage_unfold, MEMUsage_unfold.
  repeat split; auto using clamp_neg, clamp_nonneg.
Qed.

(** ** The arithmetic of a counter *)

Lemma uint64_range (v : float) : (0 <= uint64 v < 2 ^ 64)%Z.
Proof.
  unfold uint64. destruct (truncate v) as [t|]; [|lia].
  destruct (_ && _); [|lia]. apply Z.mod_pos_bound. lia.
Qed.

(** Two floats that compare equal have the same sum with zero (they are
    the same float, or the two zeros). *)
Lemma eqb_add_zero (x y : float) :
  (x =? y)%float = true -> (0 + x = 0 + y)%float.
Proof.
  rewrite FloatAxioms.eqb_spec. intros H. apply Prim2SF_inj.
  rewrite !FloatAxioms.add_spec.
  change (Prim2SF 0) with (S754_zero false).
  destruct (Prim2SF x) as [sx|sx| |sx mx ex], (Prim2SF y) as [sy|sy| |sy my ey];
    try (try destruct sx; try destruct sy; cbn in H; try discriminate H;
         reflexivity).
  unfold SFeqb, SFcompare in H. cbn [SFadd].
  destruct sx, sy; try discriminate H.
  all: destruct (ex ?= ey)%Z eqn:E; try discriminate H;
    apply Z.compare_eq in E; subst ey;
    destruct (Pos.compare_cont Eq mx my) eqn:E'; try discriminate H;
    apply Pos.compare_eq in E'; subst; reflexivity.
Qed.

Lemma add_zero_r (v : float) : (0 + v + 0 = 0 + v)%float.
Proof.
  apply Prim2SF_inj. rewrite !FloatAxioms.add_spec.
  change (Prim2SF 0) with (S754_zero false).
  destruct (Prim2SF v) as [s|s| |s m e]; try destruct s; reflexivity.
Qed.

(** A counter that received one [Add(v)] reports [0 + v], on either of its
    two paths. *)
Lemma readValue_first_add (v : float) :
  readValue CounterVec (addValue zeroValue v) = (0 + v)%float.
Proof.
  unfold readValue, addValue.
  destruct (integral v) eqn:E; cbn [valBits valInt zeroValue].
  - rewrite Z.add_0_l, Z.mod_small by apply uint64_range.
    apply eqb_add_zero, E.
  - apply add_zero_r.
Qed.

(** The two accumulators after a list of [Add]s: the readings that are
    exact unsigned integers are summed in [valInt], modulo 2^64, the
    others in [valBits], in order. *)
Lemma foldl_addValue (rs : list float) : forall x,
  (0 <= valInt x < 2 ^ 64)%Z ->
  foldl addValue x rs
  = mkValue
      (foldl (fun a r => (a + r)%float) (valBits x)
         (filter (fun r => integral r = false) rs))
      ((valInt x + foldr Z.add 0%Z (uint64 <$> filter (fun r => integral r = true) rs))
       mod 2 ^ 64)%Z.
Proof.
  induction rs as [|r rs IH]; intros x Hx.
  - cbn. rewrite Z.add_0_r, Z.mod_small by exact Hx. destruct x; reflexivity.
  - cbn [foldl]. rewrite !filter_cons. unfold addValue at 2. fold (integral r).
    destruct (integral r) eqn:E.
    + rewrite decide_False by discriminate. rewrite decide_True by reflexivity.
      rewrite IH by (cbn; apply Z.mod_pos_bound; lia).
      cbn [valBits valInt fmap list_fmap foldr]. f_equal.
      rewrite Zplus_mod_idemp_l. f_equal. lia.
    + rewrite decide_True by reflexivity. rewrite decide_False by discriminate.
      rewrite IH by exact Hx. reflexivity.
Qed.

(** ** The monad *)

Lemma set_step {A} i k v (rest : M A) st :
  (h <- WithLabelValues i k ;; Gauge_Set h v ;; rest) st
  = if decide (length k = length (variableLabels (desc i)))
    then rest (applyWrite st (WSet i k v)) else Panic.
Proof.
  unfold bind, WithLabelValues, Gauge_Set, applyWrite.
  destruct (decide _); [|reflexivity].
  destruct ((st !!! i) !! k) eqn:E; cbn; [reflexivity|].
  rewrite lookup_total_insert_eq, !insert_insert_eq. reflexivity.
Qed.

Lemma add_step {A} i k v (rest : M A) st :
  (h <- WithLabelValues i k ;; Counter_Add h v ;; rest) st
  = if decide (length k = length (variableLabels (desc i)))
    then if (v <? 0)%float then Panic else rest (applyWrite st (WAdd i k v))
    else Panic.
Proof.
  unfold bind, WithLabelValues, Counter_Add, applyWrite.
  destruct (decide _); [|reflexivity].
  destruct ((st !!! i) !! k) eqn:E; cbn.
  - destruct (v <? 0)%float; [reflexivity|]. rewrite E. reflexivity.
  - destruct (v <? 0)%float; [reflexivity|].
    rewrite lookup_total_insert_eq, lookup_insert_eq, !insert_insert_eq.
    reflexivity.
Qed.

Lemma bind_ret_r {A} (m : M A) st : (x <- m ;; ret x) st = m st.
Proof. unfold bind, ret. destruct (m st) as [[a st']|]; reflexivity. Qed.

Lemma set_last i k v st :
  (h <- WithLabelValues i k ;; Gauge_Set h v) st
  = if decide (length k = length (variableLabels (desc i)))
    then Done (tt, applyWrite st (WSet i k v)) else Panic.
Proof.
  change (Done (tt, applyWrite st (WSet i k v)))
    with (ret tt (applyWrite st (WSet i k v))).
  rewrite <- (set_step i k v (ret tt) st). unfold bind, ret.
  destruct (WithLabelValues i k st) as [[h st']|]; [|reflexivity].
  destruct (Gauge_Set h v st') as [[[] st'']|]; reflexivity.
Qed.

Lemma add_last i k v st :
  (h <- WithLabelValues i k ;; Counter_Add h v) st
  = if decide (length k = length (variableLabels (desc i)))
    then if (v <? 0)%float then Panic else Done (tt, applyWrite st (WAdd i k v))
    else Panic.
Proof.
  change (Done (tt, applyWrite st (WAdd i k v)))
    with (ret tt (applyWrite st (WAdd i k v))).
  rewrite <- (add_step i k v (ret tt) st). unfold bind, ret.
  destruct (WithLabelValues i k st) as [[h st']|]; [|reflexivity].
  destruct (Counter_Add h v st') as [[[] st'']|]; reflexivity.
Qed.

Lemma forRange_cons {A} (x : A) l body st :
  forRange (x :: l) body st
  = match body x st with
    | Done (_, st') => forRange l body st'
    | Panic => Panic
    end.
Proof. reflexivity. Qed.

(** ** [Collect] against its list of writes *)

Lemma portLabelValues_length lv port :
  length lv = 4 -> length (portLabelValues lv port) = 8.
Proof. intros H. unfold portLabelValues. rewrite length_app, H. reflexivity. Qed.

Ltac add_one Hlen :=
  rewrite add_step; rewrite (decide_True (P := _ = _)) by (exact Hlen);
  match goal with
  | |- context [(?v <? 0)%float] => destruct (v <? 0)%float; [reflexivity|]
  end; cbn [negb andb].

Lemma collectPort_spec lv port st :
  length lv = 4 ->
  collectPort lv port st
  = if portOK port
    then Done (tt, foldl applyWrite st (portWrites lv port))
    else Panic.
Proof.
  intros Hlv. pose proof (portLabelValues_length lv port Hlv) as Hlen.
  unfold collectPort, portOK, addable, portWrites.
  do 4 add_one Hlen.
  rewrite set_step, (decide_True (P := _ = _)) by exact Hlen.
  do 3 add_one Hlen.
  rewrite add_step; rewrite (decide_True (P := _ = _)) by (exact Hlen).
  destruct (FlexInt.Val (Port.TxDropped port) <? 0)%float; [reflexivity|].
  cbn [negb andb].
  destruct (FlexBool.Val (Port.SFPFound port)).
  - rewrite set_last, (decide_True (P := _ = _)) by exact Hlen. reflexivity.
  - reflexivity.
Qed.

Lemma forRange_ports_spec lv ports : forall st,
  length lv = 4 ->
  forRange ports (collectPort lv) st
  = if forallb portOK ports
    then Done (tt, foldl applyWrite st (ports ≫= portWrites lv))
    else Panic.
Proof.
  induction ports as [|port ports IH]; intros st Hlv; [reflexivity|].
  rewrite forRange_cons, collectPort_spec by exact Hlv.
  cbn [forallb]. destruct (portOK port); cbn [andb]; [|reflexivity].
  rewrite IH by exact Hlv. destruct (forallb portOK ports); [|reflexivity].
  rewrite bind_cons, foldl_app. reflexivity.
Qed.

(** The switch totals a USW contributes (none when the pointer is nil). *)
Lemma collectSwitch_spec lv usw st :
  length lv = 4 ->
  collectSwitch lv usw st
  = if switchOK usw
    then Done (tt, foldl applyWrite st
                     (match USWStat.Sw (USW.Stat usw) with
                      | Some stat => switchWrites lv stat
                      | None => []
                      end))
    else Panic.
Proof.
  intros Hlv. unfold collectSwitch, switchOK, addable.
  destruct (USWStat.Sw (USW.Stat usw)) as [stat|].
  - transitivity
      ((h <- WithLabelValues swRXPackets lv ;;
        Counter_Add h (FlexInt.Val (Sw.RxPackets stat)) ;;
        h <- WithLabelValues swRXBytes lv ;; Counter_Add h (FlexInt.Val (Sw.RxBytes stat)) ;;
        h <- WithLabelValues swRXErrors lv ;; Counter_Add h (FlexInt.Val (Sw.RxErrors stat)) ;;
        h <- WithLabelValues swRXDropped lv ;; Counter_Add h (FlexInt.Val (Sw.RxDropped stat)) ;;
        h <- WithLabelValues swTXPackets lv ;; Counter_Add h (FlexInt.Val (Sw.TxPackets stat)) ;;
        h <- WithLabelValues swTXBytes lv ;; Counter_Add h (FlexInt.Val (Sw.TxBytes stat)) ;;
        h <- WithLabelValues swTXErrors lv ;; Counter_Add h (FlexInt.Val (Sw.TxErrors stat)) ;;
        h <- WithLabelValues swTXDropped lv ;; Counter_Add h (FlexInt.Val (Sw.TxDropped stat)) ;;
        h <- WithLabelValues swBytes lv ;; Counter_Add h (FlexInt.Val (Sw.Bytes stat))) st).
    { unfold bind, deref.
      destruct (WithLabelValues swRXPackets lv st) as [[h st']|]; reflexivity. }
    do 8 add_one Hlv.
    rewrite add_last, (decide_True (P := _ = _)) by exact Hlv.
    destruct (FlexInt.Val (Sw.Bytes stat) <? 0)%float; reflexivity.
  - unfold bind, deref.
    destruct (WithLabelValues swRXPackets lv st) as [[h st']|]; reflexivity.
Qed.

Lemma collectDevice_spec dev st :
  collectDevice dev st
  = if deviceOK dev
    then Done (tt, foldl applyWrite st (deviceWrites dev))
    else Panic.
Proof.
  unfold collectDevice, deviceWrites, baseWrites, deviceKey.
  do 3 (rewrite set_step, (decide_True (P := _ = _)) by reflexivity).
  rewrite foldl_app. cbn [foldl].
  set (st3 := applyWrite _ (WSet deviceMem _ _)).
  assert (Hlv : length (labelValuesOf dev) = 4) by reflexivity.
  fold (labelValuesOf dev).
  destruct dev as [udm|usg|usw|uap]; cbn [deviceOK portTable].
  - unfold bind, ret. rewrite forRange_ports_spec by exact Hlv.
    destruct (forallb portOK (UDM.PortTable udm)); reflexivity.
  - reflexivity.
  - unfold bind, ret. rewrite collectSwitch_spec by exact Hlv.
    destruct (switchOK usw); cbn [andb]; [|reflexivity].
    rewrite forRange_ports_spec by exact Hlv.
    destruct (forallb portOK (USW.PortTable usw)); [|reflexivity].
    rewrite foldl_app. reflexivity.
  - reflexivity.
Qed.

Lemma forRange_devices_spec devs : forall st,
  forRange devs collectDevice st
  = if forallb deviceOK devs
    then Done (tt, foldl applyWrite st (devs ≫= deviceWrites))
    else Panic.
Proof.
  induction devs as [|dev devs IH]; intros st; [reflexivity|].
  rewrite forRange_cons, collectDevice_spec.
  cbn [forallb]. destruct (deviceOK dev); cbn [andb]; [|reflexivity].
  rewrite IH. destruct (forallb deviceOK devs); [|reflexivity].
  rewrite bind_cons, foldl_app. reflexivity.
Qed.

Lemma emptyVecs_lookup i : emptyVecs !! i = Some ∅.
Proof. destruct i; vm_compute; reflexivity. Qed.

Lemma emptyVecs_lookup_total i : emptyVecs !!! i = (∅ : Series).
Proof. rewrite lookup_total_alt, emptyVecs_lookup. reflexivity. Qed.

(** [resetAll] leaves every instrument empty, whatever it held. *)
Lemma resetAll_spec st : resetAll st = Done (tt, emptyVecs).
Proof.
  unfold resetAll, bind, Reset. do 2 f_equal.
  apply map_eq. intros i. rewrite emptyVecs_lookup.
  destruct i;
    repeat first [ rewrite lookup_insert_eq; reflexivity
                 | rewrite lookup_insert_ne by discriminate ].
Qed.

Lemma populate_spec data st :
  populate data st
  = if collectable data then Done (tt, finalVecs data) else Panic.
Proof.
  unfold populate, bind. rewrite resetAll_spec, forRange_devices_spec.
  reflexivity.
Qed.

Lemma Collect_spec {Cl} (c : UniFiCollector Cl) :
  Collect c
  = if collectable (cache c)
    then Done (collectAll (finalVecs (cache c)),
               mkUniFiCollector (client c) (cache c) (finalVecs (cache c)))
    else Panic.
Proof.
  unfold Collect. rewrite populate_spec.
  destruct (collectable (cache c)); reflexivity.
Qed.

Lemma Scrape_spec {Cl} (c : UniFiCollector Cl) :
  Scrape c
  = if collectable (cache c)
    then Done (collectAll (finalVecs (cache c)))
    else Panic.
Proof.
  unfold Scrape. rewrite Collect_spec.
  destruct (collectable (cache c)); reflexivity.
Qed.

(** ** What the sink receives *)

Lemma instruments_complete i : i ∈ instruments.
Proof. destruct i; apply (bool_decide_unpack _); vm_compute; reflexivity. Qed.

Lemma instruments_NoDup : NoDup instruments.
Proof. apply (bool_decide_unpack _). vm_compute. reflexivity. Qed.

Lemma collectAll_bind st : collectAll st = instruments ≫= VecCollect st.
Proof.
  unfold collectAll, instruments. cbn [mbind list_bind].
  rewrite app_nil_r. reflexivity.
Qed.

Lemma seriesValue_is_Some st i k :
  is_Some (seriesValue st i k) <-> is_Some ((st !!! i) !! k).
Proof. unfold seriesValue. apply fmap_is_Some. Qed.

Lemma seriesValue_Some st i k v :
  seriesValue st i k = Some v -> is_Some ((st !!! i) !! k).
Proof. intros H. apply seriesValue_is_Some. eauto. Qed.

Lemma elem_of_VecCollect st i m :
  m ∈ VecCollect st i
  <-> mInstrument m = i /\ seriesValue st i (mLabelValues m) = Some (mValue m).
Proof.
  unfold VecCollect, seriesValue. rewrite list_elem_of_fmap. split.
  - intros [[k x] [-> H]]. apply elem_of_map_to_list in H. cbn.
    rewrite H. auto.
  - intros [<- H].
    destruct ((st !!! mInstrument m) !! mLabelValues m) as [x|] eqn:E;
      [|discriminate].
    injection H as H. exists (mLabelValues m, x). split.
    + destruct m; cbn in *; subst; reflexivity.
    + apply elem_of_map_to_list. exact E.
Qed.

(** A sample reaches the sink exactly when its instrument holds its
    series and the series reports that value. *)
Lemma elem_of_collectAll st m :
  m ∈ collectAll st
  <-> seriesValue st (mInstrument m) (mLabelValues m) = Some (mValue m).
Proof.
  rewrite collectAll_bind, list_elem_of_bind. split.
  - intros (i & Hm & _). apply elem_of_VecCollect in Hm as [<- H]. exact H.
  - intros H. exists (mInstrument m). split.
    + apply elem_of_VecCollect. auto.
    + apply instruments_complete.
Qed.

Lemma NoDup_seriesKey_VecCollect st i : NoDup (seriesKey <$> VecCollect st i).
Proof.
  unfold VecCollect. rewrite <- list_fmap_compose.
  apply (NoDup_fmap_2_strong _).
  - intros [k1 v1] [k2 v2] H1 H2 [= Hk].
    apply elem_of_map_to_list in H1, H2. cbn in Hk. subst k2.
    rewrite H1 in H2. congruence.
  - apply NoDup_map_to_list.
Qed.

(** No two samples of one scrape belong to the same series. *)
Lemma NoDup_seriesKey_collectAll st : NoDup (seriesKey <$> collectAll st).
Proof.
  rewrite collectAll_bind.
  pose proof instruments_NoDup as Hnd.
  revert Hnd. generalize instruments.
  induction l as [|i l IH]; intros Hnd; [constructor|].
  apply NoDup_cons in Hnd as [Hi Hl].
  rewrite bind_cons, fmap_app. apply NoDup_app. split; [|split].
  - apply NoDup_seriesKey_VecCollect.
  - intros key H1 H2.
    apply list_elem_of_fmap in H1 as (m1 & -> & H1).
    apply list_elem_of_fmap in H2 as (m2 & Hk & H2).
    apply elem_of_VecCollect in H1 as [H1 _].
    apply list_elem_of_bind in H2 as (j & H2 & Hj).
    apply elem_of_VecCollect in H2 as [H2 _].
    injection Hk as Hk _. congruence.
  - apply IH, Hl.
Qed.

Lemma count_NoDup_key {A B} `{EqDecision B} (f : A -> B) (l : list A) (b : B) :
  NoDup (f <$> l) ->
  length (filter (fun x => f x = b) l) = if decide (b ∈ f <$> l) then 1 else 0.
Proof.
  induction l as [|x l IH]; intros Hnd; [reflexivity|].
  rewrite fmap_cons in Hnd. apply NoDup_cons in Hnd as [Hx Hl].
  rewrite filter_cons. specialize (IH Hl).
  destruct (decide (f x = b)) as [<-|Hne].
  - cbn [length]. rewrite IH. rewrite decide_False by exact Hx.
    rewrite decide_True by (rewrite fmap_cons; left). reflexivity.
  - rewrite IH. apply decide_ext. rewrite fmap_cons, elem_of_cons.
    split; [auto|]. intros [?|?]; [congruence|assumption].
Qed.

(** The number of samples of a series in a scrape: one when the
    instrument holds the series, none otherwise. *)
Lemma countSeries_collectAll st i lvs :
  countSeries (collectAll st) i lvs
  = if decide (is_Some ((st !!! i) !! lvs)) then 1 else 0.
Proof.
  unfold countSeries.
  rewrite (count_NoDup_key seriesKey) by apply NoDup_seriesKey_collectAll.
  apply decide_ext. rewrite list_elem_of_fmap. split.
  - intros (m & Hk & Hm). apply elem_of_collectAll in Hm.
    injection Hk as -> ->. eapply seriesValue_Some, Hm.
  - intros [x Hx]. exists (mkMetric i lvs (readValue (kind (desc i)) x)).
    split; [reflexivity|].
    apply elem_of_collectAll. unfold seriesValue. cbn. rewrite Hx. reflexivity.
Qed.

(** ** The instruments after a list of writes *)

Lemma applyWrite_other st w i k :
  wTarget w ≠ (i, k) ->
  (applyWrite st w !!! i) !! k = (st !!! i) !! k.
Proof.
  intros Hne. destruct w as [j l v|j l v]; cbn in *.
  all: destruct (decide (j = i)) as [->|Hji];
    [ rewrite lookup_total_insert_eq, lookup_insert_ne by congruence
    | rewrite lookup_total_insert_ne by exact Hji ]; reflexivity.
Qed.

Lemma applyWrite_set st i k v :
  (applyWrite st (WSet i k v) !!! i) !! k = Some (setValue v).
Proof. cbn. rewrite lookup_total_insert_eq, lookup_insert_eq. reflexivity. Qed.

Lemma applyWrite_target st w i k :
  wTarget w = (i, k) -> is_Some ((applyWrite st w !!! i) !! k).
Proof.
  destruct w as [j l v|j l v]; cbn; intros [= -> ->];
    rewrite lookup_total_insert_eq, lookup_insert_eq; eauto.
Qed.

(** Writes to other series leave a series as it was. *)
Lemma foldl_applyWrite_other ws : forall st i k,
  (forall w, w ∈ ws -> wTarget w ≠ (i, k)) ->
  (foldl applyWrite st ws !!! i) !! k = (st !!! i) !! k.
Proof.
  induction ws as [|w ws IH]; intros st i k H; [reflexivity|].
  cbn [foldl]. rewrite IH by (intros; apply H; right; assumption).
  apply applyWrite_other, H. left.
Qed.

(** A series exists after the writes iff it existed before or one of the
    writes addresses it: no write deletes a series. *)
Lemma foldl_applyWrite_dom ws : forall st i k,
  is_Some ((foldl applyWrite st ws !!! i) !! k)
  <-> is_Some ((st !!! i) !! k) \/ exists w, w ∈ ws /\ wTarget w = (i, k).
Proof.
  induction ws as [|w ws IH]; intros st i k; cbn [foldl].
  - split; [auto|]. intros [H|(w & Hw & _)]; [exact H|]. inversion Hw.
  - rewrite IH. split.
    + intros [H|(w' & Hw' & Ht)].
      * destruct (decide (wTarget w = (i, k))) as [Ht|Hne].
        -- right. exists w. split; [left|exact Ht].
        -- left. rewrite <- (applyWrite_other st w i k Hne). exact H.
      * right. exists w'. split; [right; exact Hw'|exact Ht].
    + intros [H|(w' & Hw' & Ht)].
      * destruct (decide (wTarget w = (i, k))) as [Ht|Hne].
        -- left. apply applyWrite_target, Ht.
        -- left. rewrite (applyWrite_other st w i k Hne). exact H.
      * apply elem_of_cons in Hw' as [->|Hw'].
        -- left. apply applyWrite_target, Ht.
        -- right. exists w'. auto.
Qed.

(** When every write that addresses a series is the same [Set], the series
    holds the value of that [Set]. *)
Lemma foldl_applyWrite_set ws i k v : forall st,
  WSet i k v ∈ ws ->
  (forall w, w ∈ ws -> wTarget w = (i, k) -> w = WSet i k v) ->
  (foldl applyWrite st ws !!! i) !! k = Some (setValue v).
Proof.
  induction ws as [|w ws IH] using rev_ind; intros st Hin Huniq.
  - inversion Hin.
  - rewrite foldl_app. cbn [foldl].
    destruct (decide (wTarget w = (i, k))) as [Ht|Hne].
    + rewrite (Huniq w) by (try exact Ht; apply elem_of_app; right; left).
      apply applyWrite_set.
    + rewrite applyWrite_other by exact Hne. apply IH.
      * apply elem_of_app in Hin as [Hin|Hin]; [exact Hin|].
        apply list_elem_of_singleton in Hin. subst w. cbn in Hne. congruence.
      * intros w' Hw'. apply Huniq. apply elem_of_app. left. exact Hw'.
Qed.

Lemma finalVecs_dom data i k :
  is_Some ((finalVecs data !!! i) !! k)
  <-> exists w, w ∈ allWrites data /\ wTarget w = (i, k).
Proof.
  unfold finalVecs. rewrite foldl_applyWrite_dom, emptyVecs_lookup_total.
  rewrite lookup_empty. split; [|auto].
  intros [[? [=]]|H]; exact H.
Qed.

(** ** Where the writes of a snapshot come from *)

Lemma elem_of_allPorts data dev port :
  (dev, port) ∈ allPorts data
  <-> dev ∈ All (Devices data) /\ port ∈ portTable dev.
Proof.
  unfold allPorts. rewrite list_elem_of_bind. split.
  - intros (d & H & Hd). apply list_elem_of_fmap in H as (p & [= -> ->] & Hp). auto.
  - intros [Hd Hp]. exists dev. split; [|exact Hd].
    apply list_elem_of_fmap. eauto.
Qed.

Lemma elem_of_deviceWrites dev w :
  w ∈ deviceWrites dev
  <-> w ∈ baseWrites dev
      \/ (exists usw stat, dev = uswAdapter usw
            /\ USWStat.Sw (USW.Stat usw) = Some stat
            /\ w ∈ switchWrites (labelValuesOf dev) stat)
      \/ (exists port, w ∈ portWrites (labelValuesOf dev) port
            /\ port ∈ portTable dev).
Proof.
  unfold deviceWrites. rewrite !elem_of_app, list_elem_of_bind.
  apply or_iff_compat_l, or_iff_compat_r.
  destruct dev as [udm|usg|usw|uap].
  1,2,4: split; [intros H; inversion H|intros (usw' & stat & [=] & _)].
  destruct (USWStat.Sw (USW.Stat usw)) as [stat|] eqn:E.
  - split; [intros H; exists usw, stat; auto|].
    intros (usw' & stat' & [= <-] & E' & H). congruence.
  - split; [intros H; inversion H|].
    intros (usw' & stat' & [= <-] & E' & H). congruence.
Qed.

Lemma elem_of_allWrites data w :
  w ∈ allWrites data
  <-> (exists dev, dev ∈ All (Devices data) /\ w ∈ baseWrites dev)
      \/ (exists usw stat, uswAdapter usw ∈ All (Devices data)
            /\ USWStat.Sw (USW.Stat usw) = Some stat
            /\ w ∈ switchWrites (labelValuesOf (uswAdapter usw)) stat)
      \/ (exists dev port, (dev, port) ∈ allPorts data
            /\ w ∈ portWrites (labelValuesOf dev) port).
Proof.
  unfold allWrites. rewrite list_elem_of_bind. split.
  - intros (dev & Hw & Hdev). apply elem_of_deviceWrites in Hw.
    destruct Hw as [H|[(usw & stat & -> & E & H)|(port & H & Hp)]].
    + left. eauto.
    + right. left. eauto.
    + right. right. exists dev, port. rewrite elem_of_allPorts. auto.
  - intros [(dev & Hdev & H)|[(usw & stat & Hdev & E & H)|(dev & port & Hp & H)]].
    + exists dev. rewrite elem_of_deviceWrites. auto.
    + exists (uswAdapter usw). rewrite elem_of_deviceWrites. split; [|exact Hdev].
      right. left. eauto.
    + apply elem_of_allPorts in Hp as [Hdev Hp].
      exists dev. rewrite elem_of_deviceWrites. split; [|exact Hdev].
      right. right. eauto.
Qed.

Lemma elem_of_deviceInstruments i :
  i ∈ deviceInstruments <-> level i = DeviceLevel.
Proof.
  unfold deviceInstruments. rewrite !elem_of_cons, elem_of_nil.
  split.
  - intros H. decompose [or] H; subst; try reflexivity; contradiction.
  - destruct i; cbn; intros; try discriminate; auto 12.
Qed.

Lemma elem_of_switchInstruments i :
  i ∈ switchInstruments <-> level i = SwitchLevel.
Proof.
  unfold switchInstruments. rewrite !elem_of_cons, elem_of_nil.
  split.
  - intros H. decompose [or] H; subst; try reflexivity; contradiction.
  - destruct i; cbn; intros; try discriminate; auto 12.
Qed.

Lemma elem_of_portInstruments i :
  i ∈ portInstruments <-> level i = PortLevel.
Proof.
  unfold portInstruments. rewrite !elem_of_cons, elem_of_nil.
  split.
  - intros H. decompose [or] H; subst; try reflexivity; contradiction.
  - destruct i; cbn; intros; try discriminate; auto 12.
Qed.

Lemma level_SFP i : level i = SFPLevel <-> i = pSFPTemp.
Proof. destruct i; cbn; split; congruence. Qed.

Lemma base_targets dev i k :
  (i, k) ∈ wTarget <$> baseWrites dev
  <-> level i = DeviceLevel /\ k = deviceKey dev.
Proof.
  unfold baseWrites. cbn [fmap list_fmap wTarget].
  rewrite !elem_of_cons, elem_of_nil. split.
  - intros H. decompose [or] H; try contradiction;
      match goal with E : (_, _) = (_, _) |- _ => injection E as -> -> end;
      auto.
  - intros [Hl ->]. destruct i; try discriminate; auto 12.
Qed.

Lemma switch_targets lv stat i k :
  (i, k) ∈ wTarget <$> switchWrites lv stat
  <-> level i = SwitchLevel /\ k = lv.
Proof.
  unfold switchWrites. cbn [fmap list_fmap wTarget].
  rewrite !elem_of_cons, elem_of_nil. split.
  - intros H. decompose [or] H; try contradiction;
      match goal with E : (_, _) = (_, _) |- _ => injection E as -> -> end;
      auto.
  - intros [Hl ->]. destruct i; try discriminate; auto 12.
Qed.

Lemma port_targets lv port i k :
  (i, k) ∈ wTarget <$> portWrites lv port
  <-> k = portLabelValues lv port
      /\ (level i = PortLevel
          \/ (i = pSFPTemp /\ FlexBool.Val (Port.SFPFound port) = true)).
Proof.
  unfold portWrites. rewrite fmap_app. cbn [fmap list_fmap wTarget].
  rewrite elem_of_app, !elem_of_cons, elem_of_nil. split.
  - intros [H|H].
    + decompose [or] H; try contradiction;
        match goal with E : (_, _) = (_, _) |- _ => injection E as -> -> end;
        auto.
    + destruct (FlexBool.Val (Port.SFPFound port)); cbn in H.
      * apply list_elem_of_singleton in H. injection H as -> ->. auto.
      * inversion H.
  - intros [-> [Hl|[-> Hs]]].
    + left. destruct i; try discriminate; auto 12.
    + right. rewrite Hs. cbn. left.
Qed.

Lemma target_elem_of (ws : list Write) i k :
  (exists w, w ∈ ws /\ wTarget w = (i, k)) <-> (i, k) ∈ wTarget <$> ws.
Proof.
  rewrite list_elem_of_fmap. split; intros (w & H1 & H2); exists w; auto.
Qed.

(** Which series a snapshot's writes address. *)
Lemma allWrites_targets data i k :
  (exists w, w ∈ allWrites data /\ wTarget w = (i, k))
  <-> (level i = DeviceLevel
       /\ exists dev, dev ∈ All (Devices data) /\ k = deviceKey dev)
      \/ (level i = SwitchLevel
          /\ exists usw stat, uswAdapter usw ∈ All (Devices data)
               /\ USWStat.Sw (USW.Stat usw) = Some stat
               /\ k = labelValuesOf (uswAdapter usw))
      \/ (exists dev port, (dev, port) ∈ allPorts data
            /\ k = portKey dev port
            /\ (level i = PortLevel
                \/ (i = pSFPTemp /\ FlexBool.Val (Port.SFPFound port) = true))).
Proof.
  split.
  - intros (w & Hw & Ht). apply elem_of_allWrites in Hw.
    destruct Hw as [(dev & Hd & H)|[(usw & stat & Hd & E & H)|(dev & port & Hp & H)]].
    + left. assert (Hx : (i, k) ∈ wTarget <$> baseWrites dev)
        by (apply target_elem_of; eauto).
      apply base_targets in Hx as [? ?]. eauto.
    + right. left.
      assert (Hx : (i, k) ∈ wTarget <$> switchWrites (labelValuesOf (uswAdapter usw)) stat)
        by (apply target_elem_of; eauto).
      apply switch_targets in Hx as [? ?]. eauto 6.
    + right. right.
      assert (Hx : (i, k) ∈ wTarget <$> portWrites (labelValuesOf dev) port)
        by (apply target_elem_of; eauto).
      apply port_targets in Hx as [? ?]. exists dev, port. auto.
  - intros [(Hl & dev & Hd & ->)|[(Hl & usw & stat & Hd & E & ->)|(dev & port & Hp & -> & Hl)]].
    + assert (Hx : (i, deviceKey dev) ∈ wTarget <$> baseWrites dev)
        by (apply base_targets; auto).
      apply target_elem_of in Hx as (w & Hw & Ht). exists w. split; [|exact Ht].
      apply elem_of_allWrites. left. eauto.
    + assert (Hx : (i, labelValuesOf (uswAdapter usw))
                     ∈ wTarget <$> switchWrites (labelValuesOf (uswAdapter usw)) stat)
        by (apply switch_targets; auto).
      apply target_elem_of in Hx as (w & Hw & Ht). exists w. split; [|exact Ht].
      apply elem_of_allWrites. right. left. eauto.
    + assert (Hx : (i, portKey dev port) ∈ wTarget <$> portWrites (labelValuesOf dev) port)
        by (apply port_targets; auto).
      apply target_elem_of in Hx as (w & Hw & Ht). exists w. split; [|exact Ht].
      apply elem_of_allWrites. right. right. eauto.
Qed.

(** Which series the instruments hold after [Collect]. *)
Lemma finalVecs_series data i k :
  is_Some ((finalVecs data !!! i) !! k)
  <-> (level i = DeviceLevel
       /\ exists dev, dev ∈ All (Devices data) /\ k = deviceKey dev)
      \/ (level i = SwitchLevel
          /\ exists usw stat, uswAdapter usw ∈ All (Devices data)
               /\ USWStat.Sw (USW.Stat usw) = Some stat
               /\ k = labelValuesOf (uswAdapter usw))
      \/ (exists dev port, (dev, port) ∈ allPorts data
            /\ k = portKey dev port
            /\ (level i = PortLevel
                \/ (i = pSFPTemp /\ FlexBool.Val (Port.SFPFound port) = true))).
Proof. rewrite finalVecs_dom. apply allWrites_targets. Qed.

Lemma collectable_deviceOK data dev :
  collectable data = true -> dev ∈ All (Devices data) -> deviceOK dev = true.
Proof.
  unfold collectable. rewrite forallb_forall. intros H Hdev.
  apply H, list_elem_of_In, Hdev.
Qed.

Lemma deviceOK_usw_stat usw :
  deviceOK (uswAdapter usw) = true ->
  exists stat, USWStat.Sw (USW.Stat usw) = Some stat.
Proof.
  cbn. unfold switchOK. destruct (USWStat.Sw (USW.Stat usw)); [eauto|discriminate].
Qed.

Lemma portTable_family dev port :
  port ∈ portTable dev -> Type_ dev = "USW" \/ Type_ dev = "UDM".
Proof. destruct dev; cbn; auto; intros H; inversion H. Qed.

Lemma emitted_is_Some st i k :
  (exists v, mkMetric i k v ∈ collectAll st) <-> is_Some ((st !!! i) !! k).
Proof.
  rewrite <- seriesValue_is_Some. split.
  - intros [v H]. apply elem_of_collectAll in H. eauto.
  - intros [v H]. exists v. apply elem_of_collectAll. exact H.
Qed.

(** ** The claims about [Collect] *)

Lemma uswAdapter_in_All d usw : usw ∈ USWs d -> uswAdapter usw ∈ All d.
Proof.
  intros H. unfold All. cbn [app]. rewrite !elem_of_app.
  left. right. apply list_elem_of_fmap. eauto.
Qed.

(** [Collect] panics on a snapshot that holds a USW whose [Stat.Sw] is
    nil. *)
Lemma Collect_panics_without_totals {Cl} (c : UniFiCollector Cl) usw :
  usw ∈ USWs (Devices (cache c)) -> USWStat.Sw (USW.Stat usw) = None ->
  Collect c = Panic.
Proof.
  intros Hin Hnil. rewrite Collect_spec.
  destruct (collectable (cache c)) eqn:Hok; [|reflexivity].
  pose proof (collectable_deviceOK _ _ Hok (uswAdapter_in_All _ _ Hin)) as H.
  cbn in H. unfold switchOK in H. rewrite Hnil in H. discriminate.
Qed.

(** C9. The base instruments have the label names (type, site, source,
    name), the port instruments these followed by (port, port_number, up,
    uplink).  Where [Collect] runs to its end, each device of the snapshot
    has exactly one sample in each base instrument (temperature, CPU,
    memory), under the label values (model, site, address, name), and each
    port of a USW or UDM has exactly one sample in each port counter and
    in the speed gauge, under the device's (family tag, site, address,
    name) extended with the port's (name, index, up flag, uplink flag).
    But [Collect] does not run to its end on every snapshot: it panics,
    and no device gets a sample, when the snapshot holds a USW whose
    [Stat.Sw] is nil or a counter reading below zero, as on the two
    snapshots that hold such a switch beside the access point of the
    test. *)
Theorem C9_one_series_per_device_and_port {Cl} (c : UniFiCollector Cl) :
  (forall i, i ∈ deviceInstruments ->
     variableLabels (desc i) = ["type"; "site"; "source"; "name"])
  /\ (forall i, i ∈ portInstruments ->
        variableLabels (desc i)
        = (["type"; "site"; "source"; "name"]
           ++ ["port"; "port_number"; "up"; "uplink"])%list)
  /\ (collectable (cache c) = true ->
      exists ms c', Collect c = Done (ms, c')
        /\ forall dev, dev ∈ All (Devices (cache c)) ->
             (forall i, i ∈ deviceInstruments ->
                countSeries ms i [Model dev; Site dev; IP dev; Name dev] = 1)
             /\ (forall port i, port ∈ portTable dev -> i ∈ portInstruments ->
                   countSeries ms i
                     ([Type_ dev; Site dev; IP dev; Name dev]
                      ++ [Port.Name port; FlexInt.String (Port.PortIdx port);
                          FlexBool.String (Port.Up port);
                          FlexBool.String (Port.IsUplink port)])%list = 1))
  /\ (collectable (cache c) = false -> Collect c = Panic)
  /\ (forall usw, usw ∈ USWs (Devices (cache c)) ->
        USWStat.Sw (USW.Stat usw) = None -> Collect c = Panic)
  /\ Collect (mkUniFiCollector (client c)
                (mkUnifiData [] (mkUnifiDevices [] [] [Sample.uswNoStat] [Sample.uap1]) [])
                (vecs c)) = Panic
  /\ Collect (mkUniFiCollector (client c)
                (mkUnifiData [] (mkUnifiDevices [] [] [Sample.uswNeg] [Sample.uap1]) [])
                (vecs c)) = Panic.
Proof.
  split; [|split; [|split; [|split; [|split; [|split]]]]].
  - intros i Hi. apply elem_of_deviceInstruments in Hi.
    destruct i; try discriminate; reflexivity.
  - intros i Hi. apply elem_of_portInstruments in Hi.
    destruct i; try discriminate; reflexivity.
  - intros Hok. rewrite Collect_spec, Hok. eexists _, _. split; [reflexivity|].
    intros dev Hdev. split.
    + intros i Hi. rewrite countSeries_collectAll, decide_True; [reflexivity|].
      apply finalVecs_series. left.
      split; [apply elem_of_deviceInstruments, Hi|]. exists dev. auto.
    + intros port i Hp Hi.
      rewrite countSeries_collectAll, decide_True; [reflexivity|].
      apply finalVecs_series. right. right. exists dev, port.
      split; [apply elem_of_allPorts; auto|].
      split; [reflexivity|]. left. apply elem_of_portInstruments, Hi.
  - intros Hno. rewrite Collect_spec, Hno. reflexivity.
  - apply Collect_panics_without_totals.
  - rewrite Collect_spec. reflexivity.
  - rewrite Collect_spec. reflexivity.
Qed.

(** C10. For one device, the base samples carry [Model()] as first label
    value, the switch and port samples carry the family tag [Type()]
    (USW or UDM); so the two groups have different keys whenever
    [Model()] differs from [Type()].  Conversely every base sample starts
    with the model of a device of the snapshot, and every switch or port
    sample with the family tag USW or UDM. *)
Theorem C10_model_versus_type {Cl} (c : UniFiCollector Cl) :
  collectable (cache c) = true ->
  exists ms c', Collect c = Done (ms, c')
    /\ (forall dev, dev ∈ All (Devices (cache c)) ->
          (forall i, i ∈ deviceInstruments ->
             exists v, mkMetric i (Model dev :: [Site dev; IP dev; Name dev]) v ∈ ms)
          /\ (forall usw i, dev = uswAdapter usw -> i ∈ switchInstruments ->
                Type_ dev = "USW"
                /\ exists v, mkMetric i (Type_ dev :: [Site dev; IP dev; Name dev]) v ∈ ms)
          /\ (forall port i, port ∈ portTable dev -> i ∈ portInstruments ->
                (Type_ dev = "USW" \/ Type_ dev = "UDM")
                /\ exists v, mkMetric i
                     (Type_ dev :: [Site dev; IP dev; Name dev]
                      ++ [Port.Name port; FlexInt.String (Port.PortIdx port);
                          FlexBool.String (Port.Up port);
                          FlexBool.String (Port.IsUplink port)])%list v ∈ ms)
          /\ (Model dev <> Type_ dev ->
                Model dev :: [Site dev; IP dev; Name dev]
                <> Type_ dev :: [Site dev; IP dev; Name dev]))
    /\ (forall m, m ∈ ms ->
          match level (mInstrument m) with
          | DeviceLevel =>
              exists dev, dev ∈ All (Devices (cache c))
                /\ head (mLabelValues m) = Some (Model dev)
          | _ =>
              exists dev, dev ∈ All (Devices (cache c))
                /\ head (mLabelValues m) = Some (Type_ dev)
                /\ (Type_ dev = "USW" \/ Type_ dev = "UDM")
          end).
Proof.
  intros Hok. rewrite Collect_spec, Hok. eexists _, _.
  split; [reflexivity|]. split.
  - intros dev Hdev. repeat split.
    + intros i Hi. apply emitted_is_Some, finalVecs_series. left.
      split; [apply elem_of_deviceInstruments, Hi|]. exists dev. auto.
    + subst dev. reflexivity.
    + subst dev.
      destruct (deviceOK_usw_stat usw) as [stat Hstat];
        [eapply collectable_deviceOK; eassumption|].
      apply emitted_is_Some, finalVecs_series. right. left.
      split; [apply elem_of_switchInstruments; assumption|].
      exists usw, stat. auto.
    + eapply portTable_family; eassumption.
    + apply emitted_is_Some, finalVecs_series. right. right.
      exists dev, port. split; [apply elem_of_allPorts; auto|].
      split; [reflexivity|]. left. apply elem_of_portInstruments. assumption.
    + intros Hne [= E]. contradiction.
  - intros m Hm. apply elem_of_collectAll in Hm.
    assert (Hs : is_Some ((finalVecs (cache c) !!! mInstrument m) !! mLabelValues m))
      by (eapply seriesValue_Some; eauto).
    apply finalVecs_series in Hs.
    destruct Hs as [(Hl & dev & Hd & Hk)|[(Hl & usw & stat & Hd & E & Hk)|(dev & port & Hp & Hk & Hl)]].
    + rewrite Hl, Hk. eauto.
    + rewrite Hl, Hk. exists (uswAdapter usw). auto.
    + apply elem_of_allPorts in Hp as [Hd Hp].
      assert (Hx : exists dev0, dev0 ∈ All (Devices (cache c))
                /\ head (mLabelValues m) = Some (Type_ dev0)
                /\ (Type_ dev0 = "USW" \/ Type_ dev0 = "UDM")).
      { exists dev. rewrite Hk. repeat split; [exact Hd|].
        eapply portTable_family; eassumption. }
      destruct Hl as [Hl|[Hl _]]; [rewrite Hl|rewrite Hl]; exact Hx.
Qed.

(** C2. A scrape depends on the cache only, not on what the instruments
    held: after a scrape over [S1] and the replacement of the cache by
    [S2], the next scrape equals that of a collector whose instruments
    were empty, and it contains no sample labelled with a device [D]
    whose label values no device of [S2] carries. *)
Theorem C2_reset_before_repopulate {Cl}
    (c1 c1' : UniFiCollector Cl) (ms1 : list Metric)
    (S2 : UnifiData) (D : UnifiDevice) :
  Collect c1 = Done (ms1, c1') ->
  (exists m, m ∈ ms1 /\ labelledWith D m) ->
  (forall dev, dev ∈ All (Devices S2) ->
     deviceKey dev <> deviceKey D /\ labelValuesOf dev <> labelValuesOf D) ->
  Scrape (mkUniFiCollector (client c1') S2 (vecs c1'))
  = Scrape (mkUniFiCollector (client c1') S2 emptyVecs)
  /\ match Scrape (mkUniFiCollector (client c1') S2 (vecs c1')) with
     | Done ms2 => forall m, m ∈ ms2 -> ~ labelledWith D m
     | Panic => True
     end.
Proof.
  intros _ _ Habsent. rewrite !Scrape_spec. cbn [cache]. split; [reflexivity|].
  destruct (collectable S2); [|exact I].
  intros m Hm HD. apply elem_of_collectAll in Hm.
  assert (Hs : is_Some ((finalVecs S2 !!! mInstrument m) !! mLabelValues m))
    by (eapply seriesValue_Some; eauto).
  apply finalVecs_series in Hs. unfold labelledWith in HD.
  destruct Hs as [(Hl & dev & Hd & Hk)|[(Hl & usw & stat & Hd & E & Hk)|(dev & port & Hp & Hk & Hl)]].
  - rewrite Hl in HD. destruct (Habsent dev Hd) as [H _]. congruence.
  - rewrite Hl in HD. destruct (Habsent _ Hd) as [_ H]. congruence.
  - apply elem_of_allPorts in Hp as [Hd Hp].
    destruct (Habsent dev Hd) as [_ H]. apply H.
    rewrite Hk in HD. destruct Hl as [Hl|[Hl _]]; rewrite Hl in HD; exact HD.
Qed.

Lemma NoDup_fmap_eq {A B} (f : A -> B) (l : list A) x y :
  NoDup (f <$> l) -> x ∈ l -> y ∈ l -> f x = f y -> x = y.
Proof.
  induction l as [|a l IH]; intros Hnd Hx Hy E; [inversion Hx|].
  rewrite fmap_cons in Hnd. apply NoDup_cons in Hnd as [Ha Hl].
  apply elem_of_cons in Hx as [->|Hx]; apply elem_of_cons in Hy as [->|Hy].
  - reflexivity.
  - exfalso. apply Ha. rewrite E. apply list_elem_of_fmap. eauto.
  - exfalso. apply Ha. rewrite <- E. apply list_elem_of_fmap. eauto.
  - apply IH; assumption.
Qed.

(** The temperature series of a device holds that device's
    [Temperature()] when the devices that share its base key, if any,
    report the same temperature. *)
Lemma finalVecs_deviceTemp data dev :
  dev ∈ All (Devices data) ->
  (forall dev', dev' ∈ All (Devices data) -> deviceKey dev' = deviceKey dev ->
     Temperature dev' = Temperature dev) ->
  (finalVecs data !!! deviceTemp) !! deviceKey dev
  = Some (setValue (Temperature dev)).
Proof.
  intros Hdev Hsame. unfold finalVecs. apply foldl_applyWrite_set.
  - apply elem_of_allWrites. left. exists dev. split; [exact Hdev|]. left.
  - intros w Hw Ht. apply elem_of_allWrites in Hw.
    destruct Hw as [(dev' & Hd' & H)|[(usw & stat & Hd' & E & H)|(dev' & port & Hp & H)]].
    + unfold baseWrites in H. rewrite !elem_of_cons, elem_of_nil in H.
      destruct H as [->|[->|[->|[]]]]; cbn [wTarget] in Ht; try discriminate.
      assert (Hk : deviceKey dev' = deviceKey dev) by congruence.
      rewrite Hk, (Hsame dev' Hd' Hk). reflexivity.
    + assert (Hx : (deviceTemp, deviceKey dev)
                     ∈ wTarget <$> switchWrites (labelValuesOf (uswAdapter usw)) stat)
        by (apply target_elem_of; eauto).
      apply switch_targets in Hx as [? _]. discriminate.
    + assert (Hx : (deviceTemp, deviceKey dev)
                     ∈ wTarget <$> portWrites (labelValuesOf dev') port)
        by (apply target_elem_of; eauto).
      apply port_targets in Hx as [_ [?|[? _]]]; discriminate.
Qed.

(** The SFP temperature series of a port holds the port's reading when a
    module is found, and does not exist otherwise, when the ports that
    share its label values, if any, have the same flag and reading. *)
Lemma finalVecs_pSFPTemp data dev port :
  (dev, port) ∈ allPorts data ->
  (forall dev' port', (dev', port') ∈ allPorts data ->
     portKey dev' port' = portKey dev port ->
     FlexBool.Val (Port.SFPFound port') = FlexBool.Val (Port.SFPFound port)
     /\ FlexInt.Val (Port.SFPTemperature port')
        = FlexInt.Val (Port.SFPTemperature port)) ->
  (finalVecs data !!! pSFPTemp) !! portKey dev port
  = if FlexBool.Val (Port.SFPFound port)
    then Some (setValue (FlexInt.Val (Port.SFPTemperature port)))
    else None.
Proof.
  intros Hp Hsame.
  destruct (FlexBool.Val (Port.SFPFound port)) eqn:Hsfp.
  - unfold finalVecs. apply foldl_applyWrite_set.
    + apply elem_of_allWrites. right. right. exists dev, port.
      split; [exact Hp|]. unfold portWrites. rewrite Hsfp.
      apply elem_of_app. right. left.
    + intros w Hw Ht. apply elem_of_allWrites in Hw.
      destruct Hw as [(dev' & Hd' & H)|[(usw & stat & Hd' & E & H)|(dev' & port' & Hp' & H)]].
      * assert (Hx : (pSFPTemp, portKey dev port) ∈ wTarget <$> baseWrites dev')
          by (apply target_elem_of; eauto).
        apply base_targets in Hx as [? _]. discriminate.
      * assert (Hx : (pSFPTemp, portKey dev port)
                       ∈ wTarget <$> switchWrites (labelValuesOf (uswAdapter usw)) stat)
          by (apply target_elem_of; eauto).
        apply switch_targets in Hx as [? _]. discriminate.
      * unfold portWrites in H. rewrite elem_of_app, !elem_of_cons, elem_of_nil in H.
        destruct H as [H|H].
        -- decompose [or] H; try contradiction; subst w; discriminate.
        -- destruct (FlexBool.Val (Port.SFPFound port')); [|inversion H].
           apply list_elem_of_singleton in H. subst w. cbn [wTarget] in Ht.
           assert (Hk : portKey dev' port' = portKey dev port)
             by (unfold portKey at 1; congruence).
           destruct (Hsame dev' port' Hp' Hk) as [_ Hv].
           fold (portKey dev' port'). rewrite Hk, Hv. reflexivity.
  - apply eq_None_not_Some. intros Hs. apply finalVecs_series in Hs.
    destruct Hs as [(Hl & _)|[(Hl & _)|(dev' & port' & Hp' & Hk & Hl)]];
      try discriminate.
    destruct Hl as [Hl|[_ Hl]]; [discriminate|].
    destruct (Hsame dev' port' Hp' (eq_sym Hk)) as [Hf _]. congruence.
Qed.

(** C4. The USG and UAP adapters answer [HasTemperature() = false] and
    [Temperature() = 0].  Where [Collect] runs to its end, it emits
    exactly one temperature sample under the label values of such a
    device, and the sample has value 0 when every device of the snapshot
    that carries the same label values reports temperature 0 (devices
    with equal label values share one series).  The access point of the
    test ([CPU = 10], [Mem = 20], no temperature field) yields
    temperature 0, CPU 10 and memory 20. *)
Theorem C4_no_temperature_is_zero {Cl} (c : UniFiCollector Cl) :
  (forall dev, noTemperatureFamily dev = true ->
     HasTemperature dev = false /\ Temperature dev = 0%float)
  /\ (collectable (cache c) = true ->
      exists ms c', Collect c = Done (ms, c')
        /\ forall dev, dev ∈ All (Devices (cache c)) ->
             noTemperatureFamily dev = true ->
             countSeries ms deviceTemp [Model dev; Site dev; IP dev; Name dev] = 1
             /\ ((forall dev', dev' ∈ All (Devices (cache c)) ->
                     [Model dev'; Site dev'; IP dev'; Name dev']
                     = [Model dev; Site dev; IP dev; Name dev] ->
                     Temperature dev' = 0%float) ->
                 mkMetric deviceTemp [Model dev; Site dev; IP dev; Name dev] 0 ∈ ms))
  /\ (exists c1,
        fetch (NewUniFiCollectorWithClient Sample.mc) = Returned None c1
        /\ All (Devices (cache c1)) = [uapAdapter Sample.uap1]
        /\ Scrape c1
           = Done [ mkMetric deviceTemp [""; ""; "192.168.1.2"; "uap-1"] 0;
                    mkMetric deviceCPU [""; ""; "192.168.1.2"; "uap-1"] 10;
                    mkMetric deviceMem [""; ""; "192.168.1.2"; "uap-1"] 20 ]).
Proof.
  split; [|split].
  - intros [udm|usg|usw|uap] H; try discriminate; split; reflexivity.
  - intros Hok. rewrite Collect_spec, Hok. eexists _, _.
    split; [reflexivity|]. intros dev Hdev Hfam. split.
    + rewrite countSeries_collectAll, decide_True; [reflexivity|].
      apply finalVecs_series. left. split; [reflexivity|]. exists dev. auto.
    + intros Hsame.
      assert (H0 : Temperature dev = 0%float)
        by (destruct dev; try discriminate; reflexivity).
      apply elem_of_collectAll. unfold seriesValue.
      cbn [mInstrument mLabelValues mValue].
      change [Model dev; Site dev; IP dev; Name dev] with (deviceKey dev).
      rewrite (finalVecs_deviceTemp _ dev Hdev).
      * rewrite H0. reflexivity.
      * intros dev' Hd' Hk. rewrite H0. apply Hsame; assumption.
  - eexists. split; [reflexivity|].
    split; [reflexivity|].
    rewrite Scrape_spec. vm_compute. reflexivity.
Qed.

(** C7. Where [Collect] runs to its end, for every port of the port table
    of a USW or UDM of the snapshot: an SFP temperature sample is emitted
    under the port's label values when [SFPFound] is true; when the ports
    that carry the same label values, if any, have the same flag and
    reading, it is emitted only then, and with the port's
    [SFPTemperature] (ports with equal label values share one series);
    the port counters and the speed gauge get their sample whatever the
    flag. *)
Theorem C7_sfp_temperature_gated {Cl} (c : UniFiCollector Cl) :
  collectable (cache c) = true ->
  exists ms c', Collect c = Done (ms, c')
    /\ forall dev port,
         dev ∈ All (Devices (cache c)) -> port ∈ portTable dev ->
         (Type_ dev = "USW" \/ Type_ dev = "UDM")
         /\ (FlexBool.Val (Port.SFPFound port) = true ->
             exists v, mkMetric pSFPTemp (portKey dev port) v ∈ ms)
         /\ ((forall dev' port',
                dev' ∈ All (Devices (cache c)) -> port' ∈ portTable dev' ->
                portKey dev' port' = portKey dev port ->
                FlexBool.Val (Port.SFPFound port')
                = FlexBool.Val (Port.SFPFound port)
                /\ FlexInt.Val (Port.SFPTemperature port')
                   = FlexInt.Val (Port.SFPTemperature port)) ->
             forall v, mkMetric pSFPTemp (portKey dev port) v ∈ ms
                       <-> FlexBool.Val (Port.SFPFound port) = true
                           /\ v = FlexInt.Val (Port.SFPTemperature port))
         /\ (forall i, i ∈ portInstruments ->
               exists v, mkMetric i (portKey dev port) v ∈ ms).
Proof.
  intros Hok. rewrite Collect_spec, Hok. eexists _, _.
  split; [reflexivity|]. intros dev port Hdev Hport.
  assert (Hp : (dev, port) ∈ allPorts (cache c))
    by (apply elem_of_allPorts; auto).
  split; [eapply portTable_family; eassumption|]. split; [|split].
  - intros Hsfp. apply emitted_is_Some, finalVecs_series. right. right.
    exists dev, port. auto.
  - intros Hsame v. rewrite elem_of_collectAll. unfold seriesValue.
    cbn [mInstrument mLabelValues mValue].
    rewrite (finalVecs_pSFPTemp _ dev port Hp).
    + destruct (FlexBool.Val (Port.SFPFound port)); cbn; split.
      * intros [= ->]. auto.
      * intros [_ ->]. reflexivity.
      * discriminate.
      * intros [? _]. discriminate.
    + intros dev' port' Hp' Hk. apply elem_of_allPorts in Hp' as [? ?].
      apply (Hsame dev' port'); assumption.
  - intros i Hi. apply emitted_is_Some, finalVecs_series. right. right.
    exists dev, port. split; [exact Hp|]. split; [reflexivity|].
    left. apply elem_of_portInstruments, Hi.
Qed.

(** ** The refresh step *)

Lemma appendNonNil_acc {A} (l : list (option A)) : forall acc,
  foldl (fun vals p => match p with
                       | Some v => (vals ++ [v])%list
                       | None => vals
                       end) acc l
  = (acc ++ omap id l)%list.
Proof.
  induction l as [|[v|] l IH]; intros acc; cbn [foldl omap list_omap].
  - rewrite app_nil_r. reflexivity.
  - rewrite IH. cbn. rewrite <- app_assoc. reflexivity.
  - apply IH.
Qed.

(** The copy loops keep the non-nil entries, in order. *)
Lemma appendNonNil_omap {A} (l : list (option A)) : appendNonNil l = omap id l.
Proof. unfold appendNonNil. rewrite appendNonNil_acc. reflexivity. Qed.

Lemma appendNonNil_filter {A} (l : list (option A)) :
  Some <$> appendNonNil l = filter (fun p => is_Some p) l.
Proof.
  rewrite appendNonNil_omap.
  induction l as [|[v|] l IH]; [reflexivity| |].
  - rewrite filter_cons_True by eauto. cbn. rewrite <- IH. reflexivity.
  - rewrite filter_cons_False by (intros [? [=]]). exact IH.
Qed.

Lemma elem_of_appendNonNil {A} (l : list (option A)) (x : A) :
  x ∈ appendNonNil l <-> Some x ∈ l.
Proof.
  rewrite appendNonNil_omap, list_elem_of_omap. split.
  - intros ([y|] & Hy & E); cbn in E; [|discriminate]. congruence.
  - intros H. exists (Some x). auto.
Qed.

(** What [fetch] does, by cases on the answers of the client. *)
Lemma fetch_unfold {Cl} `{UniFiClient Cl} (c : UniFiCollector Cl) :
  fetch c
  = match GetSites (client c) with
    | (_, e0, cl0) =>
        match (match e0 with Some _ => Login cl0 | None => (None, cl0) end) with
        | (Some err, cl1) => Returned (Some err) (mkUniFiCollector cl1 (cache c) (vecs c))
        | (None, cl1) =>
            match GetSites cl1 with
            | (sites, _, cl2) =>
                match GetClients sites cl2 with
                | (clients, _, cl3) =>
                    match GetDevices sites cl3 with
                    | (Some devices, _, cl4) =>
                        Returned None
                          (mkUniFiCollector cl4 (snapshotOf sites clients devices) (vecs c))
                    | (None, _, cl4) =>
                        Panicked (mkUniFiCollector cl4 (cache c) (vecs c))
                    end
                end
            end
        end
    end.
Proof.
  unfold fetch.
  destruct (GetSites (client c)) as [[s0 e0] cl0].
  destruct (match e0 with Some _ => Login cl0 | None => (None, cl0) end)
    as [[err|] cl1]; [reflexivity|].
  destruct (GetSites cl1) as [[sites e1] cl2].
  destruct (GetClients sites cl2) as [[clients e2] cl3].
  destruct (GetDevices sites cl3) as [[[devices|] e3] cl4]; reflexivity.
Qed.

(** Every sample of a scrape carries the labels of a device of the cache. *)
Lemma Scrape_labelled {Cl} (c : UniFiCollector Cl) :
  match Scrape c with
  | Done ms => forall m, m ∈ ms ->
      exists dev, dev ∈ All (Devices (cache c)) /\ labelledWith dev m
  | Panic => True
  end.
Proof.
  rewrite Scrape_spec. destruct (collectable (cache c)); [|exact I].
  intros m Hm. apply elem_of_collectAll in Hm.
  assert (Hs : is_Some ((finalVecs (cache c) !!! mInstrument m) !! mLabelValues m))
    by (eapply seriesValue_Some; eauto).
  apply finalVecs_series in Hs. unfold labelledWith.
  destruct Hs as [(Hl & dev & Hd & Hk)|[(Hl & usw & stat & Hd & E & Hk)|(dev & port & Hp & Hk & Hl)]].
  - exists dev. rewrite Hl. auto.
  - exists (uswAdapter usw). rewrite Hl. auto.
  - apply elem_of_allPorts in Hp as [Hd Hp]. exists dev. split; [exact Hd|].
    destruct Hl as [Hl|[Hl _]]; rewrite Hl, Hk; reflexivity.
Qed.

(** C8. When the cycle gets past the login step and [GetDevices] returns
    a record, [fetch] returns no error and the cache holds, for sites,
    clients and each device family, exactly the non-nil entries of the
    raw lists in their order; the nil entries yield no device, hence no
    sample, in the following scrape. *)
Theorem C8_nil_entries_skipped {Cl} `{UniFiClient Cl} (c : UniFiCollector Cl)
    s0 e0 cl0 cl1 sites e1 cl2 clients e2 cl3 devices e3 cl4 :
  GetSites (client c) = ((s0, e0), cl0) ->
  (match e0 with Some _ => Login cl0 | None => (None, cl0) end) = (None, cl1) ->
  GetSites cl1 = ((sites, e1), cl2) ->
  GetClients sites cl2 = ((clients, e2), cl3) ->
  GetDevices sites cl3 = ((Some devices, e3), cl4) ->
  exists c', fetch c = Returned None c'
    /\ Some <$> Sites (cache c') = filter (fun p => is_Some p) sites
    /\ Some <$> Clients (cache c') = filter (fun p => is_Some p) clients
    /\ Some <$> UDMs (Devices (cache c')) = filter (fun p => is_Some p) (Devices.UDMs devices)
    /\ Some <$> USGs (Devices (cache c')) = filter (fun p => is_Some p) (Devices.USGs devices)
    /\ Some <$> USWs (Devices (cache c')) = filter (fun p => is_Some p) (Devices.USWs devices)
    /\ Some <$> UAPs (Devices (cache c')) = filter (fun p => is_Some p) (Devices.UAPs devices)
    /\ (forall dev, dev ∈ All (Devices (cache c')) <->
          match dev with
          | udmAdapter d => Some d ∈ Devices.UDMs devices
          | usgAdapter d => Some d ∈ Devices.USGs devices
          | uswAdapter d => Some d ∈ Devices.USWs devices
          | uapAdapter d => Some d ∈ Devices.UAPs devices
          end)
    /\ match Scrape c' with
       | Done ms => forall m, m ∈ ms ->
           exists dev, dev ∈ All (Devices (cache c')) /\ labelledWith dev m
       | Panic => True
       end.
Proof.
  intros H0 HL H1 H2 H3. rewrite fetch_unfold, H0, HL, H1, H2, H3.
  eexists. split; [reflexivity|]. cbn [cache Sites Clients Devices UDMs USGs USWs UAPs snapshotOf].
  repeat (split; [apply appendNonNil_filter|]).
  split; [|apply Scrape_labelled].
  intros dev. unfold All. cbn [UDMs USGs USWs UAPs app].
  rewrite !elem_of_app, !list_elem_of_fmap.
  setoid_rewrite elem_of_appendNonNil.
  destruct dev as [d|d|d|d]; split.
  all: try (intros Hd; decompose [or ex and] Hd; try discriminate;
            match goal with E : _ = _ |- _ => injection E as -> end;
            assumption).
  - intros Hd. left. left. left. eauto.
  - intros Hd. left. left. right. eauto.
  - intros Hd. left. right. eauto.
  - intros Hd. right. eauto.
Qed.

(** One case split on the next answer of the client under the recorder. *)
Ltac client_step :=
  cbn;
  match goal with
  | |- context [@GetSites ?Cl ?I ?x] =>
      is_var I; destruct (@GetSites Cl I x) as [[? ?] ?]
  | |- context [@Login ?Cl ?I ?x] =>
      is_var I; destruct (@Login Cl I x) as [[?|] ?]
  | |- context [@GetClients ?Cl ?I ?s ?x] =>
      is_var I; destruct (@GetClients Cl I s x) as [[? ?] ?]
  | |- context [@GetDevices ?Cl ?I ?s ?x] =>
      is_var I; destruct (@GetDevices Cl I s x) as [[[?|] ?] ?]
  | |- context [match ?e with Some _ => _ | None => _ end] =>
      is_var e; destruct e
  end.

(** Recording the calls does not change what [fetch] does to the cache,
    to the instruments and to the client inside. *)
Lemma withTrace_fetch {Cl} `{UniFiClient Cl} (c : UniFiCollector Cl) :
  let r := fetch c in
  let rt := fetch (withTrace c) in
  cache (collectorOf rt) = cache (collectorOf r)
  /\ vecs (collectorOf rt) = vecs (collectorOf r)
  /\ inner (client (collectorOf rt)) = client (collectorOf r)
  /\ match r, rt with
     | Returned e _, Returned et _ => e = et
     | Panicked _, Panicked _ => True
     | _, _ => False
     end.
Proof.
  cbv zeta. rewrite !fetch_unfold. unfold withTrace.
  repeat client_step; cbn; repeat split.
Qed.

(** C6. In one call of [fetch]: when the probe [GetSites] succeeds, no
    [Login] is made; when it fails, exactly one [Login] follows, before
    the data calls of the same call; and when that [Login] fails too,
    [fetch] returns the login error, having made no data call, with the
    cache (and the instruments) untouched. *)
Theorem C6_login_on_failed_probe {Cl} `{UniFiClient Cl} (c : UniFiCollector Cl) :
  let trace := calls (client (collectorOf (fetch (withTrace c)))) in
  match GetSites (client c) with
  | (_, None, _) =>
      trace = [CallGetSites; CallGetSites; CallGetClients; CallGetDevices]
  | (_, Some _, cl0) =>
      match Login cl0 with
      | (None, _) =>
          trace = [CallGetSites; CallLogin; CallGetSites; CallGetClients; CallGetDevices]
      | (Some err, cl1) =>
          trace = [CallGetSites; CallLogin]
          /\ fetch c = Returned (Some err) (mkUniFiCollector cl1 (cache c) (vecs c))
      end
  end.
Proof.
  cbv zeta. rewrite !fetch_unfold. unfold withTrace.
  repeat client_step; cbn; repeat split.
Qed.

(** C1 (what the code does on a failing round). The collector holds the
    snapshot [Sample.S1].
    - The second [GetSites] fails: [fetch] returns no error and replaces
      the cache by an empty snapshot; the next scrape has lost every
      sample of the previous one.
    - [GetClients] fails: [fetch] returns no error and stores a snapshot
      with this round's devices and no client.
    - [GetDevices] fails with a nil result: [fetch] panics, and so does
      [run].
    - The probe and the login fail: only then is the cache retained.
    - The test's own [mockClient], with [Err] set after a first good
      round: [fetch] logs in, returns no error and stores a snapshot
      without sites. *)
Theorem C1_failed_round_replaces_cache :
  let c (cl : scripted.t) := mkUniFiCollector cl Sample.S1 emptyVecs in
  (exists c', fetch (c Failing.sitesFail) = Returned None c'
     /\ cache c' = mkUnifiData [] (mkUnifiDevices [] [] [] []) []
     /\ cache c' <> Sample.S1
     /\ Scrape c' = Done []
     /\ exists ms, Scrape (c Failing.sitesFail) = Done ms /\ length ms = 50)
  /\ (exists c', fetch (c Failing.clientsFail) = Returned None c'
        /\ Clients (cache c') = []
        /\ Clients Sample.S1 = [Sample.client1]
        /\ Devices (cache c') = Devices Sample.S1)
  /\ (exists c', fetch (c Failing.devicesFail) = Panicked c'
        /\ run 1 (c Failing.devicesFail) = Panicked c')
  /\ (exists err c', fetch (c Failing.loginFail) = Returned (Some err) c'
        /\ cache c' = Sample.S1)
  /\ (exists c0 c',
        fetch (NewUniFiCollectorWithClient Sample.mc) = Returned None c0
        /\ Sites (cache c0) = [Sample.site1]
        /\ fetch (mkUniFiCollector Failing.mockErr (cache c0) (vecs c0))
           = Returned None c'
        /\ Sites (cache c') = []
        /\ mockClient.loggedIn (client c') = true).
Proof.
  cbv zeta. split; [|split; [|split; [|split]]].
  - eexists. split; [rewrite fetch_unfold; reflexivity|].
    split; [reflexivity|]. split; [discriminate|].
    split; [rewrite Scrape_spec; vm_compute; reflexivity|].
    eexists. split; [rewrite Scrape_spec; vm_compute; reflexivity|].
    reflexivity.
  - eexists. split; [rewrite fetch_unfold; reflexivity|].
    split; [reflexivity|]. split; reflexivity.
  - eexists. split; [rewrite fetch_unfold; reflexivity|].
    unfold run. rewrite fetch_unfold. reflexivity.
  - eexists _, _. split; [rewrite fetch_unfold; reflexivity|]. reflexivity.
  - eexists _, _. split; [rewrite fetch_unfold; reflexivity|].
    split; [reflexivity|].
    split; [rewrite fetch_unfold; reflexivity|]. split; reflexivity.
Qed.

(** ** The mutex *)

Lemma stores_all src dst : Mutex.stores Mutex.fields src dst = src.
Proof. destruct src as [? [] ?], dst as [? [] ?]. reflexivity. Qed.

Lemma stores_snoc done f src dst :
  Mutex.store f src (Mutex.stores done src dst)
  = Mutex.stores (done ++ [f]) src dst.
Proof. unfold Mutex.stores. rewrite foldl_app. reflexivity. Qed.

Lemma holder_of_writer s :
  Mutex.inv s -> Mutex.writerInside s -> Mutex.holder s = Some Mutex.Writer.
Proof.
  intros [Hfree _ Hreader _] Hw.
  destruct (Mutex.holder s) as [[|j]|] eqn:Hh; [reflexivity| |].
  - destruct (Hreader j eq_refl) as (_ & Hn & _). contradiction.
  - destruct (Hfree eq_refl) as (_ & Hn & _). contradiction.
Qed.

Lemma holder_of_reader s i :
  Mutex.inv s -> Mutex.readerInside s i ->
  Mutex.holder s = Some (Mutex.Reader i).
Proof.
  intros [Hfree Hwriter Hreader _] Hr.
  destruct (Mutex.holder s) as [[|j]|] eqn:Hh.
  - destruct (Hwriter eq_refl) as (Hn & _). destruct (Hn i Hr).
  - destruct (decide (i = j)) as [->|Hne]; [reflexivity|].
    destruct (Hreader j eq_refl) as (_ & _ & Hn & _). destruct (Hn i Hne Hr).
  - destruct (Hfree eq_refl) as (_ & _ & Hn). destruct (Hn i Hr).
Qed.

Lemma inv_init scrapes : Mutex.inv (Mutex.init scrapes).
Proof.
  constructor; cbn.
  - intros _. split; [left|]. split.
    + intros (new & todo & [=]).
    + intros i (todo & seen & H). apply lookup_replicate in H as [[=] _].
  - discriminate.
  - discriminate.
  - intros i seen H. apply lookup_replicate in H as [[=] _].
Qed.

Lemma readerInside_insert_ne (l : list Mutex.rpc) i j pc m h w p :
  j <> i ->
  Mutex.readerInside (Mutex.mkState m h w (<[i := pc]> l) p) j ->
  exists todo seen, l !! j = Some (Mutex.RLocked todo seen).
Proof.
  intros Hne (todo & seen & H). cbn in H.
  rewrite list_lookup_insert_ne in H by congruence. eauto.
Qed.

Lemma inv_step s s' : Mutex.inv s -> Mutex.step true s s' -> Mutex.inv s'.
Proof.
  intros Hinv Hstep. pose proof Hinv as [Hfree Hwriter Hreader Hdone].
  destruct Hstep as [s sites clients devices Hw
                    |s new Hw Hlock
                    |s new f todo Hw
                    |s new Hw
                    |s i Hr Hlock
                    |s i f todo seen Hr
                    |s i seen Hr].
  - (* the snapshot is built *)
    constructor; cbn.
    + intros Hh. destruct (Hfree Hh) as (Hm & _ & Hrd).
      split; [exact Hm|]. split; [intros (? & ? & [=])|exact Hrd].
    + intros Hh. destruct (Hwriter Hh) as (_ & ? & ? & ? & ? & E & _).
      congruence.
    + intros i Hh. destruct (Hreader i Hh) as (Hm & _ & Hrd & Hi).
      split; [exact Hm|]. split; [intros (? & ? & [=])|]. split; assumption.
    + exact Hdone.
  - (* the refresh takes the mutex *)
    specialize (Hlock eq_refl). destruct (Hfree Hlock) as (Hm & _ & Hrd).
    constructor; cbn; try discriminate.
    + intros _. split; [exact Hrd|].
      exists new, [], Mutex.fields, (Mutex.mem s). auto.
    + exact Hdone.
  - (* the refresh stores one field *)
    assert (Hh : Mutex.holder s = Some Mutex.Writer)
      by (apply holder_of_writer; [exact Hinv|eexists _, _; exact Hw]).
    destruct (Hwriter Hh) as (Hrd & new' & done & todo' & old & E & Hf & Ho & Hm).
    rewrite Hw in E. injection E as <- <-.
    constructor; cbn; rewrite ?Hh; try discriminate.
    + intros _. split; [exact Hrd|].
      exists new, (done ++ [f])%list, todo, old. split; [reflexivity|].
      split; [rewrite <- app_assoc; exact Hf|]. split; [exact Ho|].
      rewrite Hm. apply stores_snoc.
    + exact Hdone.
  - (* the refresh releases the mutex *)
    assert (Hh : Mutex.holder s = Some Mutex.Writer)
      by (apply holder_of_writer; [exact Hinv|eexists _, _; exact Hw]).
    destruct (Hwriter Hh) as (Hrd & new' & done & todo' & old & E & Hf & Ho & Hm).
    rewrite Hw in E. injection E as <- <-. rewrite app_nil_r in Hf. subst done.
    rewrite stores_all in Hm.
    constructor; cbn; try discriminate.
    + intros _. split; [rewrite Hm; left|].
      split; [intros (? & ? & [=])|exact Hrd].
    + intros j seen H. right. eapply Hdone, H.
  - (* a scrape takes the mutex *)
    specialize (Hlock eq_refl). destruct (Hfree Hlock) as (Hm & Hnw & Hrd).
    constructor; cbn; try discriminate.
    + intros j [= <-]. split; [exact Hm|]. split; [exact Hnw|]. split.
      * intros k Hk Hin. apply readerInside_insert_ne in Hin; [|exact Hk].
        apply (Hrd k Hin).
      * exists [], Mutex.fields, Mutex.zero. split; [|reflexivity].
        apply list_lookup_insert_eq. eapply lookup_lt_Some, Hr.
    + intros j seen H. destruct (decide (j = i)) as [->|Hne].
      * rewrite list_lookup_insert_eq in H by (eapply lookup_lt_Some, Hr).
        discriminate.
      * rewrite list_lookup_insert_ne in H by congruence. eapply Hdone, H.
  - (* a scrape loads one field *)
    assert (Hh : Mutex.holder s = Some (Mutex.Reader i))
      by (apply holder_of_reader; [exact Hinv|eexists _, _; exact Hr]).
    destruct (Hreader i Hh) as (Hm & Hnw & Hrd & done & todo' & seen0 & E & Hf).
    rewrite Hr in E. injection E as <- ->.
    constructor; cbn; rewrite ?Hh; try discriminate.
    + intros j [= <-]. split; [exact Hm|]. split; [exact Hnw|]. split.
      * intros k Hk Hin. apply readerInside_insert_ne in Hin; [|exact Hk].
        apply (Hrd k Hk Hin).
      * exists (done ++ [f])%list, todo, seen0. split.
        -- rewrite stores_snoc.
           apply list_lookup_insert_eq. eapply lookup_lt_Some, Hr.
        -- rewrite <- app_assoc. exact Hf.
    + intros j seen H. destruct (decide (j = i)) as [->|Hne].
      * rewrite list_lookup_insert_eq in H by (eapply lookup_lt_Some, Hr).
        discriminate.
      * rewrite list_lookup_insert_ne in H by congruence. eapply Hdone, H.
  - (* a scrape releases the mutex *)
    assert (Hh : Mutex.holder s = Some (Mutex.Reader i))
      by (apply holder_of_reader; [exact Hinv|eexists _, _; exact Hr]).
    destruct (Hreader i Hh) as (Hm & Hnw & Hrd & done & todo' & seen0 & E & Hf).
    rewrite Hr in E. injection E as <- ->. rewrite app_nil_r in Hf. subst done.
    rewrite stores_all in *.
    constructor; cbn; try discriminate.
    + intros _. split; [exact Hm|]. split; [exact Hnw|].
      intros k Hin. destruct (decide (k = i)) as [->|Hk].
      * destruct Hin as (? & ? & Hin). cbn in Hin.
        rewrite list_lookup_insert_eq in Hin by (eapply lookup_lt_Some, Hr).
        discriminate.
      * apply readerInside_insert_ne in Hin; [|exact Hk].
        apply (Hrd k Hk Hin).
    + intros j seen H. destruct (decide (j = i)) as [->|Hne].
      * rewrite list_lookup_insert_eq in H by (eapply lookup_lt_Some, Hr).
        injection H as <-. exact Hm.
      * rewrite list_lookup_insert_ne in H by congruence. eapply Hdone, H.
Qed.

Lemma reachable_inv scrapes s : Mutex.reachable true scrapes s -> Mutex.inv s.
Proof.
  unfold Mutex.reachable. revert s.
  apply (rtc_ind_r (fun s => Mutex.inv s) (Mutex.init scrapes)).
  - apply inv_init.
  - intros s s' _ Hstep IH. eapply inv_step; eassumption.
Qed.

(** Every stored snapshot is the initial one or the snapshot one round of
    [fetch] built from its three answers. *)
Lemma published_whole sync scrapes s :
  Mutex.reachable sync scrapes s ->
  (forall new, (exists todo, Mutex.wr s = Mutex.WLocked new todo)
               \/ Mutex.wr s = Mutex.WReady new ->
     exists sites clients devices, new = snapshotOf sites clients devices)
  /\ forall d, d ∈ Mutex.published s ->
       d = Mutex.zero
       \/ exists sites clients devices, d = snapshotOf sites clients devices.
Proof.
  unfold Mutex.reachable. revert s.
  apply (rtc_ind_r _ (Mutex.init scrapes)).
  - cbn. split.
    + intros new [[? [=]]|[=]].
    + intros d Hd. apply list_elem_of_singleton in Hd. auto.
  - intros s s' _ Hstep [IHw IHp]. destruct Hstep; cbn in *.
    + split; [|exact IHp]. intros new' [[? [=]]|[= <-]]. eauto.
    + split; [|exact IHp]. intros new' [[? [= <- _]]|[=]]. apply IHw. auto.
    + split; [|exact IHp]. intros new' [[? [= <- _]]|[=]].
      apply IHw. left. eauto.
    + split; [intros new' [[? [=]]|[=]]|].
      intros d Hd. apply elem_of_cons in Hd as [->|Hd]; [|auto].
      right. apply IHw. left. eauto.
    + split; assumption.
    + split; assumption.
    + split; assumption.
Qed.

Ltac mutex_step c :=
  eapply rtc_l;
  [ c; first [ reflexivity | intros _; reflexivity | discriminate ]
  | cbn [Mutex.mem Mutex.holder Mutex.wr Mutex.rd Mutex.published] ].

Ltac writer_round sync :=
  mutex_step ltac:(eapply (Mutex.w_build sync _ [Some Sample.site1]
                             [Some Sample.client1] Sample.testDevices));
  mutex_step ltac:(eapply Mutex.w_lock);
  do 6 mutex_step ltac:(eapply Mutex.w_store);
  mutex_step ltac:(eapply Mutex.w_unlock).

Lemma sample_run : Mutex.reachable true 1 Mutex.sampleEnd.
Proof.
  unfold Mutex.reachable, Mutex.init.
  writer_round true.
  mutex_step ltac:(eapply (Mutex.r_lock _ _ 0)).
  do 6 mutex_step ltac:(eapply (Mutex.r_load _ _ 0)).
  mutex_step ltac:(eapply (Mutex.r_unlock _ _ 0)).
  apply rtc_refl.
Qed.

(** Without the mutex a scrape can read a mix of two rounds: here the
    sites of the initial cache with the devices and clients of the first
    refresh. *)
Lemma unguarded_torn_read :
  Mutex.reachable false 1 Mutex.tornEnd
  /\ Mutex.rd Mutex.tornEnd !! 0 = Some (Mutex.RDone Mutex.tornSeen)
  /\ Mutex.tornSeen ∉ Mutex.published Mutex.tornEnd.
Proof.
  split; [|split].
  - unfold Mutex.reachable, Mutex.init.
    mutex_step ltac:(eapply (Mutex.r_lock _ _ 0)).
    mutex_step ltac:(eapply (Mutex.r_load _ _ 0)).
    writer_round false.
    do 5 mutex_step ltac:(eapply (Mutex.r_load _ _ 0)).
    mutex_step ltac:(eapply (Mutex.r_unlock _ _ 0)).
    apply rtc_refl.
  - reflexivity.
  - cbn. rewrite !elem_of_cons, elem_of_nil. intros [H|[H|[]]]; discriminate.
Qed.

(** C5. With the mutex, in every interleaving of the refresh goroutine
    and the scrapes: the snapshot a scrape has read is, as a whole, one
    of the snapshots stored so far (the initial cache or what one round
    of [fetch] built), never a mix of two; and while a scrape is inside
    [Collect] the refresh is outside its critical section and the cache
    is one whole stored snapshot. *)
Theorem C5_scrape_reads_one_snapshot (scrapes : nat) (s : Mutex.state) :
  Mutex.reachable true scrapes s ->
  (forall i seen, Mutex.rd s !! i = Some (Mutex.RDone seen) ->
     seen ∈ Mutex.published s
     /\ (seen = Mutex.zero
         \/ exists sites clients devices, seen = snapshotOf sites clients devices))
  /\ (forall i, Mutex.readerInside s i ->
        ~ Mutex.writerInside s /\ Mutex.mem s ∈ Mutex.published s).
Proof.
  intros Hreach. pose proof (reachable_inv _ _ Hreach) as Hinv.
  pose proof (published_whole _ _ _ Hreach) as [_ Hwhole]. split.
  - intros i seen Hrd. pose proof (Mutex.inv_done _ Hinv i seen Hrd) as Hin.
    split; [exact Hin|]. apply Hwhole, Hin.
  - intros i Hin. pose proof (holder_of_reader s i Hinv Hin) as Hh.
    destruct (Mutex.inv_reader _ Hinv i Hh) as (Hm & Hnw & _). auto.
Qed.

Lemma C5_scrape_reads_one_snapshot_witness :
  Mutex.reachable true 1 Mutex.sampleEnd
  /\ Mutex.rd Mutex.sampleEnd !! 0 = Some (Mutex.RDone Mutex.tornNew)
  /\ Mutex.tornNew ∈ Mutex.published Mutex.sampleEnd.
Proof.
  split; [exact sample_run|]. split; [reflexivity|].
  apply (proj1 (C5_scrape_reads_one_snapshot 1 Mutex.sampleEnd sample_run)
           0 Mutex.tornNew eq_refl).
Defined.

(** ** The claims at sample inputs *)

(** [Collect] panics on a switch without totals and on a negative counter:
    [collectable] is exactly the condition under which it returns. *)
Lemma Collect_panics :
  Collect (mkUniFiCollector tt
             (mkUnifiData [] (mkUnifiDevices [] [] [Sample.uswNoStat] [Sample.uap1]) [])
             emptyVecs) = Panic
  /\ Collect (mkUniFiCollector tt
                (mkUnifiData [] (mkUnifiDevices [] [] [Sample.uswNeg] [Sample.uap1]) [])
                emptyVecs) = Panic.
Proof. rewrite !Collect_spec. split; reflexivity. Qed.

Lemma Collect_returns_iff {Cl} (c : UniFiCollector Cl) :
  Collect c <> Panic <-> collectable (cache c) = true.
Proof.
  rewrite Collect_spec. destruct (collectable (cache c)); split;
    congruence.
Qed.

(** The calls of [fetch] on the scripted clients: a new login that
    succeeds, and one that fails. *)
Lemma fetch_traces :
  calls (client (collectorOf (fetch (withTrace Scenario.cRelogin))))
  = [CallGetSites; CallLogin; CallGetSites; CallGetClients; CallGetDevices]
  /\ calls (client (collectorOf
        (fetch (withTrace (mkUniFiCollector Failing.loginFail Sample.S1 emptyVecs)))))
     = [CallGetSites; CallLogin]
  /\ calls (client (collectorOf
        (fetch (withTrace (NewUniFiCollectorWithClient Sample.mc)))))
     = [CallGetSites; CallGetSites; CallGetClients; CallGetDevices].
Proof. rewrite !fetch_unfold. repeat split. Qed.

Ltac in_list :=
  cbn; repeat first [ apply list_elem_of_here | apply list_elem_of_further ].

Lemma C3_usage_clamped_witness :
  ((rawMem (uswAdapter Sample.usw1) <? 0)%float = true
   /\ MEMUsage (uswAdapter Sample.usw1) = 0%float)
  /\ ((0 <=? rawCPU (uswAdapter Sample.usw1))%float = true
      /\ CPUUsage (uswAdapter Sample.usw1) = 3.5%float).
Proof.
  pose proof (C3_usage_clamped (uswAdapter Sample.usw1)) as (_ & Hcpu & Hmem & _).
  split; (split; [reflexivity|]).
  - exact (Hmem eq_refl).
  - exact (Hcpu eq_refl).
Defined.

Lemma C9_one_series_per_device_and_port_witness :
  collectable Sample.S1 = true
  /\ exists ms c', Collect Scenario.c1 = Done (ms, c')
       /\ countSeries ms deviceCPU Scenario.keyUsw1 = 1
       /\ countSeries ms pRXBytes Scenario.keyPort2 = 1.
Proof.
  split; [reflexivity|].
  destruct (C9_one_series_per_device_and_port Scenario.c1)
    as (_ & _ & Hruns & _).
  destruct (Hruns eq_refl) as (ms & c' & E & Hall).
  exists ms, c'. split; [exact E|].
  destruct (Hall (uswAdapter Sample.usw1)) as [Hd Hp]; [in_list|].
  split.
  - apply (Hd deviceCPU). in_list.
  - apply (Hp Sample.port2 pRXBytes); in_list.
Defined.

Lemma C10_model_versus_type_witness :
  collectable Sample.S1 = true
  /\ exists ms c', Collect Scenario.c1 = Done (ms, c')
       /\ (exists v, mkMetric deviceTemp Scenario.keyUsw1 v ∈ ms)
       /\ (exists v, mkMetric swBytes Scenario.lvUsw1 v ∈ ms)
       /\ (exists v, mkMetric pSpeed Scenario.keyPort1 v ∈ ms)
       /\ Scenario.keyUsw1 <> Scenario.lvUsw1.
Proof.
  split; [reflexivity|].
  destruct (C10_model_versus_type Scenario.c1 eq_refl)
    as (ms & c' & E & Hall & _).
  exists ms, c'. split; [exact E|].
  destruct (Hall (uswAdapter Sample.usw1)) as (Hd & Hs & Hp & Hne); [in_list|].
  split; [apply (Hd deviceTemp); in_list|].
  split; [apply (Hs Sample.usw1 swBytes eq_refl); in_list|].
  split; [apply (Hp Sample.port1 pSpeed); in_list|].
  apply Hne. discriminate.
Defined.

Lemma C2_reset_before_repopulate_witness :
  Collect Scenario.c1 = Done (collectAll (finalVecs Sample.S1), Scenario.c1')
  /\ mkMetric deviceTemp Scenario.keyUsw1 48 ∈ collectAll (finalVecs Sample.S1)
  /\ labelledWith (uswAdapter Sample.usw1) (mkMetric deviceTemp Scenario.keyUsw1 48)
  /\ Scrape (mkUniFiCollector (client Scenario.c1') Sample.S2 (vecs Scenario.c1'))
     = Scrape (mkUniFiCollector (client Scenario.c1') Sample.S2 emptyVecs)
  /\ match Scrape (mkUniFiCollector (client Scenario.c1') Sample.S2
                     (vecs Scenario.c1')) with
     | Done ms2 => forall m, m ∈ ms2 -> ~ labelledWith (uswAdapter Sample.usw1) m
     | Panic => True
     end.
Proof.
  assert (H1 : Collect Scenario.c1
               = Done (collectAll (finalVecs Sample.S1), Scenario.c1'))
    by (rewrite Collect_spec; reflexivity).
  assert (H2 : mkMetric deviceTemp Scenario.keyUsw1 48
               ∈ collectAll (finalVecs Sample.S1))
    by (apply elem_of_collectAll; vm_compute; reflexivity).
  assert (H3 : labelledWith (uswAdapter Sample.usw1)
                 (mkMetric deviceTemp Scenario.keyUsw1 48)) by reflexivity.
  split; [exact H1|]. split; [exact H2|]. split; [exact H3|].
  apply (C2_reset_before_repopulate Scenario.c1 Scenario.c1' _ Sample.S2
           (uswAdapter Sample.usw1) H1).
  - eexists. split; [exact H2|exact H3].
  - intros dev Hdev. cbn in Hdev.
    rewrite !elem_of_cons, elem_of_nil in Hdev.
    destruct Hdev as [->|[->|[]]]; split; discriminate.
Defined.

Lemma C4_no_temperature_is_zero_witness :
  collectable Sample.S1 = true
  /\ exists ms c', Collect Scenario.c1 = Done (ms, c')
       /\ countSeries ms deviceTemp Scenario.keyUsg1 = 1
       /\ mkMetric deviceTemp Scenario.keyUsg1 0 ∈ ms.
Proof.
  split; [reflexivity|].
  destruct (proj1 (proj2 (C4_no_temperature_is_zero Scenario.c1)) eq_refl)
    as (ms & c' & E & Hall).
  exists ms, c'. split; [exact E|].
  destruct (Hall (usgAdapter Sample.usg1)) as [Hcount Hzero];
    [in_list|reflexivity|].
  split; [exact Hcount|]. apply Hzero.
  intros dev' Hdev' Hk. cbn in Hdev'.
  rewrite !elem_of_cons, elem_of_nil in Hdev'.
  destruct Hdev' as [->|[->|[->|[->|[]]]]]; try discriminate Hk. reflexivity.
Defined.

(** The gateway and the switch of [Shared.c] carry the same label values:
    the gateway reports no temperature, yet the one temperature sample
    under its label values has the switch's 48, and none has 0.  And on
    a snapshot that holds a switch without totals [Collect] panics, so
    that the access point beside it gets no sample at all. *)
Lemma C4_counterexample :
  (usgAdapter Shared.usg ∈ All (Devices (cache Shared.c))
   /\ noTemperatureFamily (usgAdapter Shared.usg) = true
   /\ exists ms c', Collect Shared.c = Done (ms, c')
        /\ mkMetric deviceTemp (deviceKey (usgAdapter Shared.usg)) 48 ∈ ms
        /\ mkMetric deviceTemp (deviceKey (usgAdapter Shared.usg)) 0 ∉ ms)
  /\ (uapAdapter Sample.uap1
        ∈ All (mkUnifiDevices [] [] [Sample.uswNoStat] [Sample.uap1])
      /\ noTemperatureFamily (uapAdapter Sample.uap1) = true
      /\ Scrape (mkUniFiCollector tt
                   (mkUnifiData []
                      (mkUnifiDevices [] [] [Sample.uswNoStat] [Sample.uap1]) [])
                   emptyVecs) = Panic).
Proof.
  split.
  - split; [in_list|]. split; [reflexivity|].
    rewrite Collect_spec. eexists _, _. split; [reflexivity|].
    rewrite !elem_of_collectAll. split; [vm_compute; reflexivity|].
    vm_compute. discriminate.
  - split; [in_list|]. split; [reflexivity|].
    rewrite Scrape_spec. reflexivity.
Qed.

Lemma C7_sfp_temperature_gated_witness :
  collectable Sample.S1 = true
  /\ exists ms c', Collect Scenario.c1 = Done (ms, c')
       /\ mkMetric pSFPTemp Scenario.keyPort2 41.5 ∈ ms
       /\ (forall v, mkMetric pSFPTemp Scenario.keyPort1 v ∉ ms)
       /\ (exists v, mkMetric pRXPackets Scenario.keyPort1 v ∈ ms).
Proof.
  assert (Hnd : NoDup (allPortKeys Sample.S1))
    by (apply (bool_decide_unpack _); vm_compute; reflexivity).
  assert (Hsame : forall dev port,
            (dev, port) ∈ allPorts Sample.S1 ->
            forall dev' port',
            dev' ∈ All (Devices Sample.S1) -> port' ∈ portTable dev' ->
            portKey dev' port' = portKey dev port ->
            FlexBool.Val (Port.SFPFound port') = FlexBool.Val (Port.SFPFound port)
            /\ FlexInt.Val (Port.SFPTemperature port')
               = FlexInt.Val (Port.SFPTemperature port)).
  { intros dev port Hp dev' port' Hd' Hp' Hk.
    assert (Hp2 : (dev', port') ∈ allPorts Sample.S1)
      by (apply elem_of_allPorts; auto).
    pose proof (NoDup_fmap_eq (fun dp => portKey dp.1 dp.2) _
                  (dev', port') (dev, port) Hnd Hp2 Hp Hk) as Heq.
    injection Heq as _ ->. auto. }
  split; [reflexivity|].
  destruct (C7_sfp_temperature_gated Scenario.c1 eq_refl)
    as (ms & c' & E & Hall).
  exists ms, c'. split; [exact E|].
  destruct (Hall (uswAdapter Sample.usw1) Sample.port1) as (_ & _ & H1 & Hc1);
    [in_list|in_list|].
  destruct (Hall (uswAdapter Sample.usw1) Sample.port2) as (_ & _ & H2 & _);
    [in_list|in_list|].
  assert (Hp1 : (uswAdapter Sample.usw1, Sample.port1) ∈ allPorts Sample.S1)
    by (apply elem_of_allPorts; split; in_list).
  assert (Hp2 : (uswAdapter Sample.usw1, Sample.port2) ∈ allPorts Sample.S1)
    by (apply elem_of_allPorts; split; in_list).
  split; [apply (H2 (Hsame _ _ Hp2) 41.5%float); split; reflexivity|].
  split; [|apply (Hc1 pRXPackets); in_list].
  intros v Hv. apply (H1 (Hsame _ _ Hp1) v) in Hv as [Hf _]. discriminate.
Defined.

(** The port table of [Odd.udmTwins] lists two ports with equal label
    values, the second without an SFP module: an SFP temperature sample
    is emitted under the label values of that port all the same, with the
    reading of the first.  And on a snapshot that holds a switch without
    totals [Collect] panics, so that no port gets a sample. *)
Lemma C7_counterexample :
  (udmAdapter Odd.udmTwins ∈ All (Devices (cache Odd.twins))
   /\ Odd.port2b ∈ portTable (udmAdapter Odd.udmTwins)
   /\ FlexBool.Val (Port.SFPFound Odd.port2b) = false
   /\ exists ms c', Collect Odd.twins = Done (ms, c')
        /\ mkMetric pSFPTemp (portKey (udmAdapter Odd.udmTwins) Odd.port2b) 41.5
           ∈ ms)
  /\ (Sample.port2 ∈ portTable (udmAdapter Sample.udm1)
      /\ FlexBool.Val (Port.SFPFound Sample.port2) = true
      /\ Scrape (mkUniFiCollector tt
                   (mkUnifiData []
                      (mkUnifiDevices [Sample.udm1] [] [Sample.uswNoStat] []) [])
                   emptyVecs) = Panic).
Proof.
  split.
  - split; [in_list|]. split; [in_list|]. split; [reflexivity|].
    rewrite Collect_spec. eexists _, _. split; [reflexivity|].
    rewrite !elem_of_collectAll. vm_compute. reflexivity.
  - split; [in_list|]. split; [reflexivity|].
    rewrite Scrape_spec. reflexivity.
Qed.

Lemma C8_nil_entries_skipped_witness :
  exists c', fetch Scenario.cRelogin = Returned None c'
    /\ Some <$> Sites (cache c') = [Some Sample.site1]
    /\ Some <$> Clients (cache c') = [Some Sample.client1]
    /\ Some <$> UAPs (Devices (cache c')) = [Some Sample.uap1]
    /\ Some <$> USWs (Devices (cache c')) = [].
Proof.
  edestruct (C8_nil_entries_skipped Scenario.cRelogin)
    as (c' & E & Hs & Hc & _ & _ & Hw & Ha & _);
    [reflexivity|reflexivity|reflexivity|reflexivity|reflexivity|].
  exists c'. split; [exact E|].
  split; [exact Hs|]. split; [exact Hc|]. split; [exact Ha|exact Hw].
Defined.

(** * Further properties of the collector *)

(** ** Scrapes *)

(** X1. A scrape changes neither the cache nor the client, and a second
    scrape over the same cache sends the same samples: the counters are
    rebuilt from the snapshot each time, they do not grow from scrape to
    scrape. *)
Theorem Collect_repeatable {Cl} (c c' : UniFiCollector Cl) (ms : list Metric) :
  Collect c = Done (ms, c') ->
  Collect c' = Done (ms, c') /\ cache c' = cache c /\ client c' = client c.
Proof.
  rewrite Collect_spec. destruct (collectable (cache c)) eqn:Hok; [|discriminate].
  intros [= <- <-]. rewrite Collect_spec. cbn [cache client]. rewrite Hok.
  repeat split.
Qed.

Lemma Collect_repeatable_witness :
  Collect Scenario.c1 = Done (collectAll (finalVecs Sample.S1), Scenario.c1')
  /\ Collect Scenario.c1' = Done (collectAll (finalVecs Sample.S1), Scenario.c1').
Proof.
  assert (H1 : Collect Scenario.c1
               = Done (collectAll (finalVecs Sample.S1), Scenario.c1'))
    by (rewrite Collect_spec; reflexivity).
  split; [exact H1|].
  exact (proj1 (Collect_repeatable Scenario.c1 Scenario.c1' _ H1)).
Defined.

Lemma collectAll_emptyVecs : collectAll emptyVecs = [].
Proof. vm_compute. reflexivity. Qed.

(** X2. Only the devices of the snapshot reach the sink: two collectors
    whose caches hold the same devices send the same samples, whatever
    their sites, clients, client state and instruments; and a cache
    without devices (as before the first refresh) yields no sample. *)
Theorem Scrape_only_devices {Cl Cl'}
    (c : UniFiCollector Cl) (c' : UniFiCollector Cl') :
  (Devices (cache c) = Devices (cache c') -> Scrape c = Scrape c')
  /\ (All (Devices (cache c)) = [] -> Scrape c = Done []).
Proof.
  rewrite !Scrape_spec. unfold collectable, finalVecs, allWrites. split.
  - intros ->. reflexivity.
  - intros ->. cbn. apply f_equal, collectAll_emptyVecs.
Qed.

Lemma Scrape_only_devices_witness :
  Scrape Scenario.c1
  = Scrape (mkUniFiCollector Failing.relogin
              (mkUnifiData [] (Devices Sample.S1) []) emptyVecs)
  /\ Scrape (NewUniFiCollectorWithClient Sample.mc) = Done [].
Proof.
  split.
  - exact (proj1 (Scrape_only_devices Scenario.c1
             (mkUniFiCollector Failing.relogin
                (mkUnifiData [] (Devices Sample.S1) []) emptyVecs)) eq_refl).
  - exact (proj2 (Scrape_only_devices (NewUniFiCollectorWithClient Sample.mc)
             Scenario.c1) eq_refl).
Defined.

(** ** The refresh step, for any client *)

(** X3. [fetch] never touches the instruments.  What it stores depends on
    the client alone: started from another cache and other instruments,
    it ends the same way, with the same client and, when it returns nil,
    the same cache; when it returns an error or panics, each collector
    keeps the cache it had. *)
Theorem fetch_replaces_wholesale {Cl} `{UniFiClient Cl}
    (c : UniFiCollector Cl) (data : UnifiData) (vs : Vecs) :
  vecs (collectorOf (fetch c)) = vecs c
  /\ match fetch c, fetch (mkUniFiCollector (client c) data vs) with
     | Returned None a, Returned None b =>
         cache a = cache b /\ client a = client b
     | Returned (Some e) a, Returned (Some e') b =>
         e = e' /\ cache a = cache c /\ cache b = data /\ client a = client b
     | Panicked a, Panicked b =>
         cache a = cache c /\ cache b = data /\ client a = client b
     | _, _ => False
     end.
Proof.
  rewrite !fetch_unfold. cbn [client cache vecs].
  repeat client_step; cbn; repeat split.
Qed.

(** X4. [fetch] returns an error exactly when the probe fails and the
    login that follows fails: no error of the three data calls is ever
    returned. *)
Theorem fetch_error_iff {Cl} `{UniFiClient Cl} (c : UniFiCollector Cl) :
  (exists e c', fetch c = Returned (Some e) c')
  <-> (GetSites (client c)).1.2 <> None
      /\ (Login (GetSites (client c)).2).1 <> None.
Proof.
  rewrite fetch_unfold.
  destruct (GetSites (client c)) as [[s0 [e0|]] cl0]; cbn.
  - destruct (Login cl0) as [[err|] cl1]; cbn.
    + split; [intros _; split; discriminate|eauto].
    + destruct (GetSites cl1) as [[sites e1] cl2].
      destruct (GetClients sites cl2) as [[clients e2] cl3].
      destruct (GetDevices sites cl3) as [[[devices|] e3] cl4];
        (split; [intros (? & ? & [=])|intros [_ ?]; congruence]).
  - destruct (GetSites cl0) as [[sites e1] cl2].
    destruct (GetClients sites cl2) as [[clients e2] cl3].
    destruct (GetDevices sites cl3) as [[[devices|] e3] cl4];
      (split; [intros (? & ? & [=])|intros [? _]; congruence]).
Qed.

(** X5. The copy loops of [fetch] return a list without nil entries
    unchanged, never return more entries than they got, and return as
    many only when there was no nil entry. *)
Theorem appendNonNil_roundtrip {A} (l : list A) (raw : list (option A)) :
  appendNonNil (Some <$> l) = l
  /\ length (appendNonNil raw) <= length raw
  /\ (length (appendNonNil raw) = length raw <-> None ∉ raw).
Proof.
  rewrite !appendNonNil_omap. split; [|split].
  - induction l as [|x l IH]; [reflexivity|]. cbn. rewrite IH. reflexivity.
  - induction raw as [|[x|] raw IH]; cbn; lia.
  - induction raw as [|[x|] raw IH]; cbn.
    + split; [intros _ Hin; inversion Hin|reflexivity].
    + rewrite not_elem_of_cons. split.
      * intros [= Hlen]. split; [discriminate|]. apply IH, Hlen.
      * intros [_ Hn]. f_equal. apply IH, Hn.
    + split.
      * intros Hlen. exfalso.
        assert (length (omap id raw) <= length raw)
          by (clear; induction raw as [|[x|] raw IH]; cbn; lia).
        lia.
      * intros Hn. exfalso. apply Hn. left.
Qed.

(** ** What the samples are *)

Lemma usage_not_negative dev :
  (CPUUsage dev <? 0)%float = false /\ (MEMUsage dev <? 0)%float = false.
Proof.
  rewrite CPUUsage_unfold, MEMUsage_unfold. split.
  - destruct (rawCPU dev <? 0)%float eqn:E; [reflexivity|exact E].
  - destruct (rawMem dev <? 0)%float eqn:E; [reflexivity|exact E].
Qed.

(** A series that only [Set] calls address holds the value of one of
    them (or what it held before). *)
Lemma foldl_applyWrite_from_set ws i k x : forall st,
  (forall w, w ∈ ws -> wTarget w = (i, k) -> exists v', w = WSet i k v') ->
  (foldl applyWrite st ws !!! i) !! k = Some x ->
  (st !!! i) !! k = Some x \/ exists v, x = setValue v /\ WSet i k v ∈ ws.
Proof.
  induction ws as [|w ws IH] using rev_ind; intros st Hset; [auto|].
  rewrite foldl_app. cbn [foldl].
  destruct (decide (wTarget w = (i, k))) as [Ht|Hne].
  - destruct (Hset w) as [v' ->]; [apply elem_of_app; right; left|exact Ht|].
    rewrite applyWrite_set. intros [= <-]. right. exists v'.
    split; [reflexivity|]. apply elem_of_app. right. left.
  - rewrite applyWrite_other by exact Hne. intros H.
    destruct (IH st) as [?|(v0 & -> & ?)]; auto.
    + intros w' Hw'. apply Hset, elem_of_app. auto.
    + right. exists v0. split; [reflexivity|]. apply elem_of_app. auto.
Qed.

Lemma device_level_writes data w :
  w ∈ allWrites data -> level (wTarget w).1 = DeviceLevel ->
  exists dev, dev ∈ All (Devices data) /\ w ∈ baseWrites dev.
Proof.
  intros Hw Hl. apply elem_of_allWrites in Hw.
  destruct Hw as [H|[(usw & stat & Hd & E & H)|(dev & port & Hp & H)]]; [exact H| |].
  - assert (Hy : ((wTarget w).1, (wTarget w).2)
                   ∈ wTarget <$> switchWrites (labelValuesOf (uswAdapter usw)) stat).
    { apply target_elem_of. exists w. split; [exact H|]. destruct (wTarget w); reflexivity. }
    apply switch_targets in Hy as [Hy _]. congruence.
  - assert (Hy : ((wTarget w).1, (wTarget w).2)
                   ∈ wTarget <$> portWrites (labelValuesOf dev) port).
    { apply target_elem_of. exists w. split; [exact H|]. destruct (wTarget w); reflexivity. }
    apply port_targets in Hy as [_ [Hy|[Hy _]]]; [congruence|].
    rewrite Hy in Hl. discriminate.
Qed.

(** X6. No CPU or memory sample is below zero: each is the [CPUUsage()]
    (resp. [MEMUsage()]) of a device of the cache, which clamps negative
    readings to zero. *)
Theorem usage_samples_not_negative {Cl} (c : UniFiCollector Cl) :
  match Scrape c with
  | Done ms =>
      forall m, m ∈ ms ->
        (mInstrument m = deviceCPU ->
           (mValue m <? 0)%float = false
           /\ exists dev, dev ∈ All (Devices (cache c))
                /\ mLabelValues m = deviceKey dev /\ mValue m = CPUUsage dev)
        /\ (mInstrument m = deviceMem ->
              (mValue m <? 0)%float = false
              /\ exists dev, dev ∈ All (Devices (cache c))
                   /\ mLabelValues m = deviceKey dev /\ mValue m = MEMUsage dev)
  | Panic => True
  end.
Proof.
  rewrite Scrape_spec. destruct (collectable (cache c)); [|exact I].
  intros [i k v] Hm. apply elem_of_collectAll in Hm.
  cbn [mInstrument mLabelValues mValue] in *.
  assert (Hfrom : level i = DeviceLevel ->
            exists dev, dev ∈ All (Devices (cache c)) /\ WSet i k v ∈ baseWrites dev).
  { intros Hl. unfold seriesValue, finalVecs in Hm.
    destruct ((foldl applyWrite emptyVecs (allWrites (cache c)) !!! i) !! k)
      as [x|] eqn:E; [|discriminate].
    injection Hm as Hm.
    apply foldl_applyWrite_from_set in E.
    - destruct E as [E|(v0 & -> & E)].
      + rewrite emptyVecs_lookup_total, lookup_empty in E. discriminate.
      + assert (v0 = v) as -> by (destruct i; try discriminate Hl; exact Hm).
        apply device_level_writes in E; [exact E|exact Hl].
    - intros w Hw Ht. apply device_level_writes in Hw as (dev & _ & Hw);
        [|rewrite Ht; exact Hl].
      unfold baseWrites in Hw. rewrite !elem_of_cons, elem_of_nil in Hw.
      destruct Hw as [->|[->|[->|[]]]]; cbn in Ht; injection Ht as <- <-; eauto. }
  split; intros ->; destruct (Hfrom eq_refl) as (dev & Hdev & Hw);
    unfold baseWrites in Hw; rewrite !elem_of_cons, elem_of_nil in Hw;
    destruct Hw as [[=]|[[=]|[[=]|[]]]]; subst;
    (split; [apply usage_not_negative|eauto]).
Qed.

Lemma Describe_instruments : Describe = desc <$> instruments.
Proof. reflexivity. Qed.

(** X7. [Describe] announces 22 descriptors with pairwise different
    names, and every sample of a scrape belongs to one of them and
    carries exactly one label value per label name of its descriptor. *)
Theorem Describe_covers_Collect {Cl} (c : UniFiCollector Cl) :
  length Describe = 22
  /\ NoDup (fqName <$> Describe)
  /\ match Scrape c with
     | Done ms =>
         forall m, m ∈ ms ->
           desc (mInstrument m) ∈ Describe
           /\ length (mLabelValues m)
              = length (variableLabels (desc (mInstrument m)))
     | Panic => True
     end.
Proof.
  split; [reflexivity|]. split.
  - apply (bool_decide_unpack _). vm_compute. reflexivity.
  - rewrite Scrape_spec. destruct (collectable (cache c)); [|exact I].
    intros m Hm. split.
    + rewrite Describe_instruments. apply list_elem_of_fmap.
      exists (mInstrument m). split; [reflexivity|apply instruments_complete].
    + apply elem_of_collectAll in Hm.
      assert (Hs : is_Some ((finalVecs (cache c) !!! mInstrument m) !! mLabelValues m))
        by (eapply seriesValue_Some; eauto).
      apply finalVecs_series in Hs.
      destruct Hs as [(Hl & dev & _ & ->)|[(Hl & usw & stat & _ & _ & ->)|(dev & port & _ & -> & Hl)]].
      * destruct (mInstrument m); try discriminate; reflexivity.
      * destruct (mInstrument m); try discriminate; reflexivity.
      * destruct Hl as [Hl|[-> _]]; [|reflexivity].
        destruct (mInstrument m); try discriminate; reflexivity.
Qed.

Lemma seriesKey_writeMetric w : seriesKey (writeMetric w) = wTarget w.
Proof. destruct w; reflexivity. Qed.

(** When no two writes address the same series, each write leaves its own
    sample. *)
Lemma allWrites_kinds data w :
  w ∈ allWrites data -> kind (desc (wTarget w).1) = wKind w.
Proof.
  intros Hw. apply elem_of_allWrites in Hw.
  destruct Hw as [(dev & _ & H)|[(usw & stat & _ & _ & H)|(dev & port & _ & H)]].
  - unfold baseWrites in H. rewrite !elem_of_cons, elem_of_nil in H.
    decompose [or] H; try contradiction; subst w; reflexivity.
  - unfold switchWrites in H. rewrite !elem_of_cons, elem_of_nil in H.
    decompose [or] H; try contradiction; subst w; reflexivity.
  - unfold portWrites in H. rewrite elem_of_app, !elem_of_cons, elem_of_nil in H.
    destruct H as [H|H].
    + decompose [or] H; try contradiction; subst w; reflexivity.
    + destruct (FlexBool.Val (Port.SFPFound port)); [|inversion H].
      apply list_elem_of_singleton in H. subst w. reflexivity.
Qed.

Lemma foldl_applyWrite_unique ws : forall st w,
  NoDup (wTarget <$> ws) -> w ∈ ws ->
  kind (desc (wTarget w).1) = wKind w ->
  (st !!! (wTarget w).1) !! (wTarget w).2 = None ->
  seriesValue (foldl applyWrite st ws) (wTarget w).1 (wTarget w).2
  = Some (mValue (writeMetric w)).
Proof.
  induction ws as [|w0 ws IH]; intros st w Hnd Hin Hkind Hnone; [inversion Hin|].
  rewrite fmap_cons in Hnd. apply NoDup_cons in Hnd as [Hw0 Hnd].
  cbn [foldl]. apply elem_of_cons in Hin as [->|Hin].
  - unfold seriesValue. rewrite foldl_applyWrite_other.
    + destruct w0 as [i k v|i k v]; cbn [wTarget wKind fst snd] in *.
      * rewrite applyWrite_set, Hkind. reflexivity.
      * cbn [applyWrite]. rewrite lookup_total_insert_eq, lookup_insert_eq.
        rewrite Hnone, Hkind. cbn [default fmap option_fmap option_map].
        rewrite readValue_first_add. reflexivity.
    + intros w' Hw' E. apply Hw0. apply list_elem_of_fmap. exists w'.
      split; [|exact Hw']. rewrite E. destruct (wTarget w0); reflexivity.
  - apply IH; [exact Hnd|exact Hin|exact Hkind|].
    rewrite applyWrite_other; [exact Hnone|].
    intros E. apply Hw0. apply list_elem_of_fmap. exists w.
    split; [|exact Hin]. rewrite E. destruct (wTarget w); reflexivity.
Qed.

Lemma length_bind_sum {A B} (f : A -> list B) (l : list A) :
  length (l ≫= f) = sum_list_with (fun x => length (f x)) l.
Proof.
  induction l as [|x l IH]; [reflexivity|].
  rewrite bind_cons, length_app, IH. reflexivity.
Qed.

Lemma length_portWrites lv port :
  length (portWrites lv port)
  = 9 + (if FlexBool.Val (Port.SFPFound port) then 1 else 0).
Proof.
  unfold portWrites. rewrite length_app.
  destruct (FlexBool.Val (Port.SFPFound port)); reflexivity.
Qed.

Lemma length_ports_writes lv (ports : list Port.t) :
  length (ports ≫= portWrites lv)
  = 9 * length ports
    + length (filter (fun port => FlexBool.Val (Port.SFPFound port) = true) ports).
Proof.
  induction ports as [|port ports IH]; [reflexivity|].
  rewrite bind_cons, length_app, IH, length_portWrites, filter_cons.
  destruct (FlexBool.Val (Port.SFPFound port));
    [rewrite decide_True by reflexivity|rewrite decide_False by discriminate];
    cbn [length]; lia.
Qed.

Lemma length_deviceWrites dev :
  deviceOK dev = true ->
  length (deviceWrites dev)
  = 3 + (if isUSW dev then 9 else 0) + 9 * length (portTable dev)
    + length (filter (fun port => FlexBool.Val (Port.SFPFound port) = true)
                (portTable dev)).
Proof.
  intros Hok. unfold deviceWrites. rewrite !length_app, length_ports_writes.
  destruct dev as [udm|usg|usw|uap]; cbn [isUSW baseWrites length]; try lia.
  destruct (deviceOK_usw_stat usw Hok) as [stat ->]. cbn. lia.
Qed.

Lemma filter_sfp_pair (dev : UnifiDevice) (ports : list Port.t) :
  filter (fun dp : UnifiDevice * Port.t =>
            FlexBool.Val (Port.SFPFound dp.2) = true)
    ((fun port => (dev, port)) <$> ports)
  = (fun port => (dev, port))
      <$> filter (fun port => FlexBool.Val (Port.SFPFound port) = true) ports.
Proof.
  induction ports as [|y l IH]; [reflexivity|].
  rewrite fmap_cons, !filter_cons. cbn [snd].
  destruct (decide (FlexBool.Val (Port.SFPFound y) = true)); rewrite IH;
    reflexivity.
Qed.

Lemma length_writes_of (devs : list UnifiDevice) :
  forallb deviceOK devs = true ->
  length (devs ≫= deviceWrites)
  = 3 * length devs + 9 * length (filter (fun dev => isUSW dev = true) devs)
    + 9 * length (devs ≫= fun dev => (fun port => (dev, port)) <$> portTable dev)
    + length (filter (fun dp : UnifiDevice * Port.t =>
                        FlexBool.Val (Port.SFPFound dp.2) = true)
                (devs ≫= fun dev => (fun port => (dev, port)) <$> portTable dev)).
Proof.
  induction devs as [|dev devs IH]; [reflexivity|].
  cbn [forallb]. intros [Hd Hds]%andb_prop.
  rewrite !bind_cons, filter_app, !length_app, IH by exact Hds.
  rewrite length_deviceWrites by exact Hd.
  rewrite filter_sfp_pair.
  rewrite !length_fmap, filter_cons.
  destruct (isUSW dev);
    [rewrite decide_True by reflexivity|rewrite decide_False by discriminate];
    cbn [length]; lia.
Qed.

Lemma filter_isUSW_All d :
  length (filter (fun dev => isUSW dev = true) (All d)) = length (USWs d).
Proof.
  unfold All. cbn [app]. rewrite !filter_app, !length_app.
  assert (Hno : forall {A} (f : A -> UnifiDevice) (l : list A),
            (forall x, isUSW (f x) = false) ->
            length (filter (fun dev => isUSW dev = true) (f <$> l)) = 0).
  { intros A f l Hf. induction l as [|x l IH]; [reflexivity|].
    rewrite fmap_cons, filter_cons, decide_False by (rewrite Hf; discriminate).
    exact IH. }
  rewrite (Hno _ udmAdapter), (Hno _ usgAdapter), (Hno _ uapAdapter)
    by reflexivity.
  assert (Hall : length (filter (fun dev => isUSW dev = true) (uswAdapter <$> USWs d))
                 = length (USWs d)).
  { induction (USWs d) as [|x l IH]; [reflexivity|].
    rewrite fmap_cons, filter_cons, decide_True by reflexivity.
    cbn [length]. rewrite IH. reflexivity. }
  rewrite Hall. lia.
Qed.

(** X8. On a snapshot on which no two [Set]/[Add] calls of [Collect]
    address the same series, the scrape consists of exactly one sample
    per call, with the value set or zero plus the value added; their
    number is 3 per device, 9 per USW, 9 per port and 1 per port with an
    SFP module. *)
Theorem Collect_one_sample_per_write {Cl} (c : UniFiCollector Cl) :
  collectable (cache c) = true ->
  NoDup (wTarget <$> allWrites (cache c)) ->
  exists ms c', Collect c = Done (ms, c')
    /\ ms ≡ₚ writeMetric <$> allWrites (cache c)
    /\ length ms
       = 3 * length (All (Devices (cache c)))
         + 9 * length (USWs (Devices (cache c)))
         + 9 * length (allPorts (cache c))
         + length (filter (fun dp : UnifiDevice * Port.t =>
                             FlexBool.Val (Port.SFPFound dp.2) = true)
                     (allPorts (cache c))).
Proof.
  intros Hok Hnd. rewrite Collect_spec, Hok. eexists _, _.
  split; [reflexivity|].
  assert (Hperm : collectAll (finalVecs (cache c))
                  ≡ₚ writeMetric <$> allWrites (cache c)).
  { apply NoDup_Permutation.
    - apply (NoDup_fmap_1 seriesKey). apply NoDup_seriesKey_collectAll.
    - apply (NoDup_fmap_1 seriesKey). rewrite <- list_fmap_compose.
      replace ((seriesKey ∘ writeMetric) <$> allWrites (cache c))
        with (wTarget <$> allWrites (cache c)); [exact Hnd|].
      apply list_fmap_ext. intros ? w _. symmetry. apply seriesKey_writeMetric.
    - intros m. rewrite elem_of_collectAll, list_elem_of_fmap. split.
      + intros Hm.
        assert (Hs : is_Some ((finalVecs (cache c) !!! mInstrument m) !! mLabelValues m))
          by (eapply seriesValue_Some; eauto).
        apply finalVecs_dom in Hs as (w & Hw & Ht).
        exists w. split; [|exact Hw].
        pose proof (foldl_applyWrite_unique _ emptyVecs w Hnd Hw
                      (allWrites_kinds _ _ Hw)) as Hu.
        rewrite Ht in Hu. cbn [fst snd] in Hu. fold (finalVecs (cache c)) in Hu.
        rewrite Hm in Hu.
        rewrite emptyVecs_lookup_total, lookup_empty in Hu.
        specialize (Hu eq_refl). injection Hu as Hu.
        destruct m as [i k v]. cbn in *.
        destruct w; cbn in *; congruence.
      + intros (w & -> & Hw).
        pose proof (foldl_applyWrite_unique _ emptyVecs w Hnd Hw
                      (allWrites_kinds _ _ Hw)) as Hu.
        rewrite emptyVecs_lookup_total, lookup_empty in Hu.
        specialize (Hu eq_refl). destruct w; exact Hu. }
  split; [exact Hperm|].
  rewrite Hperm, length_fmap. unfold allWrites, allPorts.
  rewrite length_writes_of by exact Hok. rewrite filter_isUSW_All. reflexivity.
Qed.

Lemma Collect_one_sample_per_write_witness :
  collectable Sample.S1 = true
  /\ NoDup (wTarget <$> allWrites Sample.S1)
  /\ exists ms c', Collect Scenario.c1 = Done (ms, c') /\ length ms = 50.
Proof.
  assert (Hnd : NoDup (wTarget <$> allWrites Sample.S1))
    by (apply (bool_decide_unpack _); vm_compute; reflexivity).
  split; [reflexivity|]. split; [exact Hnd|].
  destruct (Collect_one_sample_per_write Scenario.c1 eq_refl Hnd)
    as (ms & c' & E & _ & Hlen).
  exists ms, c'. split; [exact E|]. rewrite Hlen. reflexivity.
Defined.

(** ** Series that several writes address *)

Lemma applyWrite_replay st w i k :
  wTarget w = (i, k) ->
  (applyWrite st w !!! i) !! k = replay ((st !!! i) !! k) w.
Proof.
  destruct w as [j l v|j l v]; cbn; intros [= -> ->];
    rewrite lookup_total_insert_eq, lookup_insert_eq; reflexivity.
Qed.

(** The content of a series after a list of writes: the writes that
    address it, replayed in order. *)
Lemma foldl_applyWrite_replay ws : forall st i k,
  (foldl applyWrite st ws !!! i) !! k
  = foldl replay ((st !!! i) !! k) (filter (fun w => wTarget w = (i, k)) ws).
Proof.
  induction ws as [|w ws IH]; intros st i k; [reflexivity|].
  cbn [foldl]. rewrite IH, filter_cons.
  destruct (decide (wTarget w = (i, k))) as [Ht|Hne].
  - cbn [foldl]. rewrite applyWrite_replay by exact Ht. reflexivity.
  - rewrite applyWrite_other by exact Hne. reflexivity.
Qed.

Lemma filter_none {A} (P : A -> Prop) `{forall x, Decision (P x)} (l : list A) :
  (forall x, x ∈ l -> ~ P x) -> filter P l = [].
Proof.
  induction l as [|x l IH]; intros Hn; [reflexivity|].
  rewrite filter_cons, decide_False by (apply Hn; left).
  apply IH. intros y Hy. apply Hn. right. exact Hy.
Qed.

Lemma portCounter_level i f : portCounter i = Some f -> level i = PortLevel.
Proof. destruct i; cbn; congruence. Qed.

Lemma filter_portWrites i f k lv port :
  portCounter i = Some f ->
  filter (fun w => wTarget w = (i, k)) (portWrites lv port)
  = if decide (portLabelValues lv port = k)
    then [WAdd i k (FlexInt.Val (f port))]
    else [].
Proof.
  intros Hc. unfold portWrites. set (pl := portLabelValues lv port).
  rewrite filter_app.
  assert (Hsfp : filter (fun w => wTarget w = (i, k))
                   (if FlexBool.Val (Port.SFPFound port)
                    then [WSet pSFPTemp pl (FlexInt.Val (Port.SFPTemperature port))]
                    else []) = []).
  { apply filter_none. intros w Hw Ht.
    destruct (FlexBool.Val (Port.SFPFound port)); [|inversion Hw].
    apply list_elem_of_singleton in Hw. subst w. cbn in Ht.
    injection Ht as <- _. discriminate. }
  rewrite Hsfp, app_nil_r. clear Hsfp.
  rewrite !filter_cons, filter_nil. cbn [wTarget].
  destruct (decide (pl = k)) as [<-|Hne].
  - destruct i; try discriminate; injection Hc as <-;
      repeat (rewrite decide_False by discriminate);
      rewrite decide_True by reflexivity;
      repeat (rewrite decide_False by discriminate); reflexivity.
  - repeat (rewrite decide_False by congruence). reflexivity.
Qed.

Lemma filter_deviceWrites i f k dev :
  portCounter i = Some f ->
  filter (fun w => wTarget w = (i, k)) (deviceWrites dev)
  = (fun dp : UnifiDevice * Port.t => WAdd i k (FlexInt.Val (f dp.2)))
      <$> filter (fun dp : UnifiDevice * Port.t => portKey dp.1 dp.2 = k)
            ((fun port => (dev, port)) <$> portTable dev).
Proof.
  intros Hc. pose proof (portCounter_level i f Hc) as Hl.
  unfold deviceWrites. rewrite !filter_app.
  rewrite (filter_none _ (baseWrites dev)), app_nil_l.
  2:{ intros w Hw Ht.
      assert (Hx : (i, k) ∈ wTarget <$> baseWrites dev)
        by (apply target_elem_of; eauto).
      apply base_targets in Hx as [Hx _]. congruence. }
  rewrite filter_none, app_nil_l.
  2:{ intros w Hw Ht. destruct dev as [udm|usg|usw|uap]; try (inversion Hw; fail).
      destruct (USWStat.Sw (USW.Stat usw)) as [stat|]; [|inversion Hw].
      assert (Hx : (i, k) ∈ wTarget <$> switchWrites (labelValuesOf (uswAdapter usw)) stat)
        by (apply target_elem_of; eauto).
      apply switch_targets in Hx as [Hx _]. congruence. }
  induction (portTable dev) as [|port ports IH]; [reflexivity|].
  rewrite bind_cons, filter_app, IH, (filter_portWrites i f k _ port Hc).
  rewrite fmap_cons, filter_cons. cbn [fst snd].
  change (portKey dev port) with (portLabelValues (labelValuesOf dev) port).
  destruct (decide (portLabelValues (labelValuesOf dev) port = k)); reflexivity.
Qed.

Lemma filter_allWrites i f k data :
  portCounter i = Some f ->
  filter (fun w => wTarget w = (i, k)) (allWrites data)
  = (fun dp : UnifiDevice * Port.t => WAdd i k (FlexInt.Val (f dp.2)))
      <$> filter (fun dp : UnifiDevice * Port.t => portKey dp.1 dp.2 = k)
            (allPorts data).
Proof.
  intros Hc. unfold allWrites, allPorts.
  induction (All (Devices data)) as [|dev devs IH]; [reflexivity|].
  rewrite !bind_cons, !filter_app, fmap_app, IH,
    (filter_deviceWrites i f k dev Hc).
  reflexivity.
Qed.

Lemma foldl_replay_adds i k (g : UnifiDevice * Port.t -> float) l : forall o,
  foldl replay o ((fun dp => WAdd i k (g dp)) <$> l)
  = match l with
    | [] => o
    | _ => Some (foldl addValue (default zeroValue o) (g <$> l))
    end.
Proof.
  induction l as [|dp l IH]; intros o; [reflexivity|].
  cbn [fmap list_fmap foldl replay]. rewrite IH.
  destruct l; reflexivity.
Qed.

Lemma portCounter_kind i f : portCounter i = Some f -> kind (desc i) = CounterVec.
Proof. destruct i; cbn; congruence. Qed.

(** The counter on whole numbers: it adds 1 where a binary64 sum no longer
    can, and it wraps at 2^64. *)
Lemma addValue_whole_numbers :
  readValue CounterVec (foldl addValue zeroValue [9007199254740992; 1; 1]%float)
  = 9007199254740994%float
  /\ (9007199254740992 + 1 + 1 = 9007199254740992)%float
  /\ readValue CounterVec
       (foldl addValue zeroValue [9223372036854775808; 9223372036854775808]%float)
     = 0%float
  /\ readValue CounterVec (foldl addValue zeroValue [0.5; 2; 0.25]%float)
     = 2.75%float.
Proof. repeat split; vm_compute; reflexivity. Qed.

(** X9. A port counter holds, for each tuple of label values, the readings
    of all the ports of the snapshot that carry this tuple: the readings
    that are whole numbers are summed as unsigned 64-bit integers
    (wrapping at 2^64), the others as floats in the order [Collect]
    visits the ports, and the sample is the sum of the two.  Ports that
    share their label values share one series. *)
Theorem port_counter_sums {Cl} (c : UniFiCollector Cl) :
  collectable (cache c) = true ->
  exists ms c', Collect c = Done (ms, c')
    /\ forall i f k v, portCounter i = Some f ->
         let readings :=
           (fun dp : UnifiDevice * Port.t => FlexInt.Val (f dp.2))
             <$> filter (fun dp : UnifiDevice * Port.t => portKey dp.1 dp.2 = k)
                   (allPorts (cache c)) in
         mkMetric i k v ∈ ms
         <-> readings <> []
             /\ v = (foldl (fun a r => a + r) 0
                       (filter (fun r => integral r = false) readings)
                     + float64
                         (foldr Z.add 0%Z
                            (uint64 <$> filter (fun r => integral r = true) readings)
                          mod 2 ^ 64))%float.
Proof.
  intros Hok. rewrite Collect_spec, Hok. eexists _, _. split; [reflexivity|].
  intros i f k v Hc readings. rewrite elem_of_collectAll.
  cbn [mInstrument mLabelValues mValue]. unfold seriesValue, finalVecs.
  rewrite foldl_applyWrite_replay, emptyVecs_lookup_total, lookup_empty.
  rewrite (filter_allWrites i f k _ Hc), foldl_replay_adds.
  rewrite (portCounter_kind i f Hc). subst readings.
  destruct (filter _ (allPorts (cache c))) as [|dp l].
  - split; [discriminate|]. intros [H _]. contradiction.
  - cbn [default]. rewrite foldl_addValue by (cbn; lia).
    cbn [option_fmap option_map readValue valBits valInt zeroValue].
    rewrite Z.add_0_l. split.
    + intros [= <-]. split; [rewrite fmap_cons; discriminate|reflexivity].
    + intros [_ ->]. reflexivity.
Qed.

Lemma port_counter_sums_witness :
  collectable (cache Odd.twins) = true
  /\ exists ms c', Collect Odd.twins = Done (ms, c')
       /\ mkMetric pRXBytes Odd.keyTwins 100 ∈ ms
       /\ mkMetric pTXPackets Odd.keyTwins 12 ∈ ms.
Proof.
  split; [reflexivity|].
  destruct (port_counter_sums Odd.twins eq_refl) as (ms & c' & E & Hsum).
  exists ms, c'. split; [exact E|]. split.
  - apply (Hsum pRXBytes Port.RxBytes Odd.keyTwins); [reflexivity|].
    split; [vm_compute; discriminate|vm_compute; reflexivity].
  - apply (Hsum pTXPackets Port.TxPackets Odd.keyTwins); [reflexivity|].
    split; [vm_compute; discriminate|vm_compute; reflexivity].
Defined.

(** ** Fields [Collect] does not read *)

Lemma All_forgetUnread d : All (forgetUnread d) = forgetDevice <$> All d.
Proof.
  unfold All, forgetUnread. cbn [UDMs USGs USWs UAPs app].
  rewrite !fmap_app, <- !list_fmap_compose. reflexivity.
Qed.

Lemma deviceWrites_forget dev : deviceWrites (forgetDevice dev) = deviceWrites dev.
Proof.
  destruct dev as [udm|usg|usw|uap]; try reflexivity.
  unfold deviceWrites, baseWrites, deviceKey. cbn.
  unfold udmAdapter_Temperature. cbn.
  destruct (UDM.Temperatures udm); reflexivity.
Qed.

Lemma deviceOK_forget dev : deviceOK (forgetDevice dev) = deviceOK dev.
Proof. destruct dev; reflexivity. Qed.

Lemma forallb_deviceOK_forget (devs : list UnifiDevice) :
  forallb deviceOK (forgetDevice <$> devs) = forallb deviceOK devs.
Proof.
  induction devs as [|dev devs IH]; [reflexivity|].
  cbn. rewrite IH, deviceOK_forget. reflexivity.
Qed.

Lemma bind_deviceWrites_forget (devs : list UnifiDevice) :
  (forgetDevice <$> devs) ≫= deviceWrites = devs ≫= deviceWrites.
Proof.
  induction devs as [|dev devs IH]; [reflexivity|].
  rewrite fmap_cons, !bind_cons, IH, deviceWrites_forget. reflexivity.
Qed.

(** X10. [Collect] never reads the [HasTemperature] flag of a UDM or a
    USW, nor the temperature entries of a UDM after the first, nor the
    names of these entries: with the flags cleared and these entries
    blanked in the cache, the scrape is the same. *)
Theorem Scrape_ignores_HasTemperature {Cl} (c : UniFiCollector Cl) :
  Scrape (mkUniFiCollector (client c)
            (mkUnifiData (Sites (cache c)) (forgetUnread (Devices (cache c)))
               (Clients (cache c)))
            (vecs c))
  = Scrape c.
Proof.
  rewrite !Scrape_spec. unfold collectable, finalVecs, allWrites.
  cbn [cache Devices].
  rewrite All_forgetUnread, forallb_deviceOK_forget, bind_deviceWrites_forget.
  reflexivity.
Qed.

(** ** Rounds of [run] *)

(** X11. While the controller refuses both the probe and the login
    (whatever the client state [P] it goes through), [run] neither
    panics nor touches the cache and the instruments, for any number of
    rounds: the scrapes keep sending the last snapshot. *)
Theorem run_keeps_cache_while_login_fails {Cl} `{UniFiClient Cl}
    (P : Cl -> Prop) (rounds : nat) (c : UniFiCollector Cl) :
  (forall cl, P cl -> (GetSites cl).1.2 <> None /\ P (GetSites cl).2) ->
  (forall cl, P cl -> (Login cl).1 <> None /\ P (Login cl).2) ->
  P (client c) ->
  exists c', run rounds c = Returned None c'
    /\ cache c' = cache c /\ vecs c' = vecs c /\ P (client c')
    /\ Scrape c' = Scrape c.
Proof.
  intros Hprobe Hlogin. revert c.
  induction rounds as [|n IH]; intros c HP.
  - exists c. repeat split. exact HP.
  - cbn [run]. rewrite fetch_unfold.
    destruct (Hprobe _ HP) as [Hp HP0].
    destruct (GetSites (client c)) as [[s0 e0] cl0]. cbn in Hp, HP0.
    destruct e0 as [e0|]; [|congruence].
    destruct (Hlogin _ HP0) as [Hl HP1].
    destruct (Login cl0) as [[err|] cl1]; cbn in Hl, HP1; [|congruence].
    destruct (IH (mkUniFiCollector cl1 (cache c) (vecs c)) HP1)
      as (c' & Hrun & Hc & Hv & HP' & Hs).
    exists c'. split; [exact Hrun|]. cbn in Hc, Hv.
    split; [exact Hc|]. split; [exact Hv|]. split; [exact HP'|].
    rewrite Hs, !Scrape_spec. reflexivity.
Qed.

Lemma run_keeps_cache_while_login_fails_witness :
  exists c', run 3 (mkUniFiCollector exhausted Sample.S1 emptyVecs)
             = Returned None c'
    /\ cache c' = Sample.S1.
Proof.
  destruct (run_keeps_cache_while_login_fails (fun cl => cl = exhausted) 3
              (mkUniFiCollector exhausted Sample.S1 emptyVecs))
    as (c' & Hrun & Hc & _).
  - intros cl ->. split; [discriminate|reflexivity].
  - intros cl ->. split; [discriminate|reflexivity].
  - reflexivity.
  - exists c'. split; [exact Hrun|exact Hc].
Defined.

Lemma mock_fetch (c : UniFiCollector mockClient.t) (devices : Devices.t) :
  mockClient.Devices (client c) = Some devices ->
  exists c', fetch c = Returned None c'
    /\ cache c' = mockSnapshot (client c) devices
    /\ vecs c' = vecs c
    /\ mockData (client c') = mockData (client c)
    /\ mockClient.loggedIn (client c')
       = match mockClient.Err (client c) with
         | Some _ => true
         | None => mockClient.loggedIn (client c)
         end.
Proof.
  intros Hd. rewrite fetch_unfold. destruct c as [[li ss cs ds [e|]] data vs];
    cbn in *; subst ds; eexists; repeat split.
Qed.

(** X12. With the [mockClient] of the test, [fetch] never returns an
    error: it panics when the mock has no [Devices], and otherwise
    returns nil, logging in exactly when [Err] is set (the sites are then
    lost); every later round of [run] stores the same snapshot again. *)
Theorem mock_fetch_never_errors (c : UniFiCollector mockClient.t) :
  (forall e c', fetch c <> Returned (Some e) c')
  /\ ((exists c', fetch c = Panicked c') <-> mockClient.Devices (client c) = None)
  /\ (forall devices, mockClient.Devices (client c) = Some devices ->
        forall n, exists c',
          run (S n) c = Returned None c'
          /\ cache c' = mockSnapshot (client c) devices
          /\ mockClient.loggedIn (client c')
             = match mockClient.Err (client c) with
               | Some _ => true
               | None => mockClient.loggedIn (client c)
               end).
Proof.
  split; [|split].
  - intros e c'. rewrite fetch_unfold.
    destruct c as [[li ss cs [ds|] [e0|]] data vs]; cbn; discriminate.
  - rewrite fetch_unfold.
    destruct c as [[li ss cs [ds|] [e0|]] data vs]; cbn; split;
      try discriminate; try (intros [? [=]]); eauto.
  - intros devices Hd n. revert c Hd.
    induction n as [|n IH]; intros c Hd.
    + destruct (mock_fetch c devices Hd) as (c' & Hf & Hc & _ & _ & Hl).
      exists c'. cbn [run]. rewrite Hf. auto.
    + destruct (mock_fetch c devices Hd) as (c1 & Hf & Hc & _ & Hdata & Hl).
      assert (Hrun : run (S (S n)) c = run (S n) c1)
        by (cbn [run]; rewrite Hf; reflexivity).
      unfold mockData in Hdata. injection Hdata as Hs Hcs Hds He.
      destruct (IH c1) as (c' & Hr & Hc' & Hl'); [congruence|].
      exists c'. rewrite Hrun. split; [exact Hr|]. split.
      * rewrite Hc'. unfold mockSnapshot. rewrite Hs, Hcs, He. reflexivity.
      * rewrite Hl', He, Hl. destruct (mockClient.Err (client c)); reflexivity.
Qed.

(** ** The configuration *)

Lemma GetString_flag p name def :
  Main.flagDefault name = Some def ->
  Main.GetString p name
  = match Main.given p !! name with
    | Some v => v
    | None => default def (Main.getEnv p name)
    end.
Proof. unfold Main.GetString. intros ->. reflexivity. Qed.

(** X13. The password handed to the UniFi client never comes from the
    command line: [initConfig] defines the flag [unifi.pass] but reads the
    key [unifi.password], so the value is the environment variable
    [UNIFI_PASSWORD] when set and not empty, and the empty string
    otherwise, whatever flags are given; the user name, read under the
    name of its flag, does follow the command line. *)
Theorem unifi_pass_flag_is_ignored (p : Main.Process) (flags : gmap string string) :
  Main.UniFiPass (Main.initConfig (Main.mkProcess flags (Main.environ p)))
  = Main.UniFiPass (Main.initConfig p)
  /\ Main.UniFiPass (Main.initConfig p)
     = match Main.environ p !! "UNIFI_PASSWORD" with
       | Some v => v
       | None => ""
       end
  /\ forall v, flags !! "unifi.user" = Some v ->
       Main.UniFiUser (Main.initConfig (Main.mkProcess flags (Main.environ p))) = v.
Proof.
  split; [reflexivity|]. split.
  - cbn. unfold Main.GetString, Main.getEnv.
    change (Main.flagDefault "unifi.password") with (@None string).
    change (Main.envKey "unifi.password") with "UNIFI_PASSWORD".
    destruct (Main.environ p !! "UNIFI_PASSWORD") as [v|]; [|reflexivity].
    case_bool_decide as E; [rewrite E|]; reflexivity.
  - intros v Hv. cbn. rewrite (GetString_flag _ "unifi.user" "") by reflexivity.
    cbn. rewrite Hv. reflexivity.
Qed.

Lemma unifi_pass_flag_is_ignored_witness :
  Main.UniFiPass (Main.initConfig Main.unifiOnly) = ""
  /\ Main.UniFiUser (Main.initConfig Main.unifiOnly) = "exporter".
Proof.
  destruct (unifi_pass_flag_is_ignored Main.unifiOnly (Main.given Main.unifiOnly))
    as (_ & Hpass & Huser).
  split; [exact Hpass|]. apply Huser. reflexivity.
Defined.

(** X14. [main] goes past its configuration check only when both a
    Redfish target and a UniFi URL are configured: a process that is
    given no Redfish target, by flag or by environment, stops there,
    whatever UniFi settings it has. *)
Theorem main_needs_both_targets (p : Main.Process) :
  (Main.checkConfig (Main.initConfig p) = None
   <-> Main.GetString p "redfish.target" <> ""
       /\ Main.GetString p "unifi.url" <> "")
  /\ (Main.given p !! "redfish.target" = None ->
      Main.environ p !! "REDFISH_TARGET" = None ->
      Main.checkConfig (Main.initConfig p)
      = Some "At least one of Redfish and UniFi config must be provided").
Proof.
  unfold Main.checkConfig. cbn [Main.initConfig Main.RedfishTarget Main.UniFiURL].
  split.
  - case_bool_decide as E; split; try discriminate; tauto.
  - intros Hflag Henv.
    assert (Hr : Main.GetString p "redfish.target" = "").
    { rewrite (GetString_flag _ "redfish.target" "") by reflexivity.
      rewrite Hflag. unfold Main.getEnv.
      change (Main.envKey "redfish.target") with "REDFISH_TARGET".
      rewrite Henv. reflexivity. }
    rewrite Hr. rewrite bool_decide_eq_true_2 by auto. reflexivity.
Qed.

Lemma main_needs_both_targets_witness :
  Main.checkConfig (Main.initConfig Main.unifiOnly)
  = Some "At least one of Redfish and UniFi config must be provided".
Proof.
  exact (proj2 (main_needs_both_targets Main.unifiOnly) eq_refl eq_refl).
Defined.

(** ** Devices that share their label values *)

Lemma baseGauge_level i g : baseGauge i = Some g -> level i = DeviceLevel.
Proof. destruct i; cbn; congruence. Qed.

Lemma filter_deviceWrites_base i g k dev :
  baseGauge i = Some g ->
  filter (fun w => wTarget w = (i, k)) (deviceWrites dev)
  = if decide (deviceKey dev = k) then [WSet i k (g dev)] else [].
Proof.
  intros Hg. pose proof (baseGauge_level i g Hg) as Hl.
  unfold deviceWrites. rewrite !filter_app.
  rewrite (filter_none _ (portTable dev ≫= portWrites (labelValuesOf dev))), app_nil_r.
  2:{ intros w Hw Ht. apply list_elem_of_bind in Hw as (port & Hw & _).
      assert (Hx : (i, k) ∈ wTarget <$> portWrites (labelValuesOf dev) port)
        by (apply target_elem_of; eauto).
      apply port_targets in Hx as [_ [Hx|[Hx _]]]; [congruence|].
      rewrite Hx in Hl. discriminate. }
  rewrite (filter_none _ (match dev with
                          | uswAdapter usw =>
                              match USWStat.Sw (USW.Stat usw) with
                              | Some stat => switchWrites (labelValuesOf dev) stat
                              | None => []
                              end
                          | _ => []
                          end)), app_nil_r.
  2:{ intros w Hw Ht. destruct dev as [udm|usg|usw|uap]; try (inversion Hw; fail).
      destruct (USWStat.Sw (USW.Stat usw)) as [stat|]; [|inversion Hw].
      assert (Hx : (i, k) ∈ wTarget <$> switchWrites (labelValuesOf (uswAdapter usw)) stat)
        by (apply target_elem_of; eauto).
      apply switch_targets in Hx as [Hx _]. congruence. }
  unfold baseWrites. rewrite !filter_cons, filter_nil. cbn [wTarget].
  destruct (decide (deviceKey dev = k)) as [<-|Hne].
  - destruct i; try discriminate; injection Hg as <-;
      repeat (rewrite decide_False by discriminate);
      rewrite decide_True by reflexivity;
      repeat (rewrite decide_False by discriminate); reflexivity.
  - repeat (rewrite decide_False by congruence). reflexivity.
Qed.

Lemma filter_allWrites_base i g k data :
  baseGauge i = Some g ->
  filter (fun w => wTarget w = (i, k)) (allWrites data)
  = (fun dev => WSet i k (g dev))
      <$> filter (fun dev => deviceKey dev = k) (All (Devices data)).
Proof.
  intros Hg. unfold allWrites.
  induction (All (Devices data)) as [|dev devs IH]; [reflexivity|].
  rewrite bind_cons, filter_app, IH, (filter_deviceWrites_base i g k dev Hg).
  rewrite filter_cons. destruct (decide (deviceKey dev = k)); reflexivity.
Qed.

Lemma foldl_replay_sets i k (g : UnifiDevice -> float) l : forall o,
  foldl replay o ((fun dev => WSet i k (g dev)) <$> l)
  = match last l with
    | Some dev => Some (setValue (g dev))
    | None => o
    end.
Proof.
  induction l as [|dev l IH]; intros o; [reflexivity|].
  cbn [fmap list_fmap foldl replay]. rewrite IH.
  destruct l as [|dev' l]; [reflexivity|].
  rewrite last_cons_cons. destruct (last (dev' :: l)) eqn:E; [reflexivity|].
  apply last_None in E. discriminate.
Qed.

(** X15. A base gauge (temperature, CPU, memory) holds, for each tuple
    (model, site, address, name), the reading of the last device that
    carries this tuple, in the order UDM, USG, USW, UAP and slice order:
    devices that share the four label values share one series. *)
Theorem base_gauge_last_wins {Cl} (c : UniFiCollector Cl) :
  collectable (cache c) = true ->
  exists ms c', Collect c = Done (ms, c')
    /\ forall i g k v, baseGauge i = Some g ->
         (mkMetric i k v ∈ ms
          <-> g <$> last (filter (fun dev => deviceKey dev = k)
                            (All (Devices (cache c))))
              = Some v).
Proof.
  intros Hok. rewrite Collect_spec, Hok. eexists _, _. split; [reflexivity|].
  intros i g k v Hg. rewrite elem_of_collectAll.
  cbn [mInstrument mLabelValues mValue]. unfold seriesValue, finalVecs.
  rewrite foldl_applyWrite_replay, emptyVecs_lookup_total, lookup_empty.
  rewrite (filter_allWrites_base i g k _ Hg), foldl_replay_sets.
  assert (Hk : kind (desc i) = GaugeVec)
    by (destruct i; try discriminate Hg; reflexivity).
  rewrite Hk. destruct (last _); reflexivity.
Qed.

Lemma base_gauge_last_wins_witness :
  collectable (cache Shared.c) = true
  /\ exists ms c', Collect Shared.c = Done (ms, c')
       /\ mkMetric deviceTemp Shared.key 48 ∈ ms
       /\ mkMetric deviceCPU Shared.key 7 ∈ ms.
Proof.
  split; [reflexivity|].
  destruct (base_gauge_last_wins Shared.c eq_refl) as (ms & c' & E & Hlast).
  exists ms, c'. split; [exact E|]. split.
  - apply (Hlast deviceTemp Temperature Shared.key); [reflexivity|].
    vm_compute. reflexivity.
  - apply (Hlast deviceCPU CPUUsage Shared.key); [reflexivity|].
    vm_compute. reflexivity.
Defined.

Lemma mock_fetch_never_errors_witness :
  exists c', run 2 (NewUniFiCollectorWithClient Sample.mc) = Returned None c'
    /\ cache c' = mockSnapshot Sample.mc Sample.testDevices
    /\ mockClient.loggedIn (client c') = false.
Proof.
  destruct (proj2 (proj2 (mock_fetch_never_errors
                            (NewUniFiCollectorWithClient Sample.mc)))
              Sample.testDevices eq_refl 1) as (c' & Hrun & Hc & Hl).
  exists c'. split; [exact Hrun|]. split; [exact Hc|exact Hl].
Defined.

(** ** The test *)

Lemma WithLabelValues_arity {A} i lvs (k : Instrument * list string -> M A) st :
  length lvs <> length (variableLabels (desc i)) ->
  (h <- WithLabelValues i lvs ;; k h) st = Panic.
Proof.
  intros Hne. unfold bind, WithLabelValues.
  rewrite decide_False by exact Hne. reflexivity.
Qed.

(** X16. [TestCollectorCollect] cannot pass, whatever the mock client
    holds: its lookups give two label values to instruments that have
    four label names, and [WithLabelValues] panics on them (unless the
    test has panicked before, on a mock without devices). *)
Theorem test_lookup_panics (mc : mockClient.t) :
  Test.TestCollectorCollect mc = Test.Panics.
Proof.
  unfold Test.TestCollectorCollect.
  destruct (fetch (NewUniFiCollectorWithClient mc)) as [err col|col];
    [|reflexivity].
  destruct (Collect col) as [[ms col']|]; [|reflexivity].
  rewrite WithLabelValues_arity by (cbn; lia). reflexivity.
Qed.
